(** * reAItor: search pipeline coordinator and feedback-driven re-ranking

    A shallow embedding of the core of the reAItor backend:
    - [services/scraper_orchestrator.py]: merging and address-based
      deduplication of the listings returned by the scraper agents;
    - [api/search.py]: the background search pipeline and the status
      projection;
    - [services/recommendation_service.py]: feedback recording, weight
      learning and personalised ranking.

    Conventions.  Python [str] values are Rocq strings whose characters are
    the code points U+0000..U+00FF; Python [int] is [Z]; Python [float] is
    idealised as a real number ([R]), with NaN rendered as [None] where the
    code tests for it; [Optional[T]] is [option T]; a [dict] used as a map is
    a [gmap]; a [set] is a [gset]. *)

From Stdlib Require Import Reals Lra Lia ZArith Ascii String List Permutation Sorted.
From stdpp Require Import gmap strings list fin_maps sorting.

Local Open Scope string_scope.
Local Open Scope list_scope.

(** Equality of real numbers is decided classically. *)
#[local] Instance R_eq_dec : EqDecision R := Req_dec_T.

(** ** Python string primitives used by the orchestrator *)

Module PyStr.

(** Code point of a character. *)
Definition code (c : ascii) : N := N_of_ascii c.

Definition in_range (lo hi : N) (c : ascii) : bool :=
  (N.leb lo (code c) && N.leb (code c) hi)%bool.

(** Characters changed by [str.lower]: A-Z and, above ASCII, U+00C0..U+00DE
    except the multiplication sign U+00D7. *)
Definition is_upper (c : ascii) : bool :=
  (in_range 65 90 c
   || (in_range 192 222 c && negb (N.eqb (code c) 215)))%bool.

Definition lower_char (c : ascii) : ascii :=
  if is_upper c then ascii_of_N (code c + 32) else c.

(** [str.lower()] *)
Definition lower (s : list ascii) : list ascii := map lower_char s.

(** Characters that [str.strip()] and [str.split()] treat as white space:
    U+0009..U+000D, U+001C..U+0020, U+0085 and U+00A0. *)
Definition isspace (c : ascii) : bool :=
  (in_range 9 13 c || in_range 28 32 c
   || N.eqb (code c) 133 || N.eqb (code c) 160)%bool.

Fixpoint lstrip (s : list ascii) : list ascii :=
  match s with
  | c :: s' => if isspace c then lstrip s' else s
  | [] => []
  end.

Definition rstrip (s : list ascii) : list ascii := rev (lstrip (rev s)).

(** [str.strip()] *)
Definition strip (s : list ascii) : list ascii := rstrip (lstrip s).

(** [s.startswith(p)] *)
Fixpoint startswith (p s : list ascii) : bool :=
  match p, s with
  | [], _ => true
  | a :: p', b :: s' => if Ascii.eqb a b then startswith p' s' else false
  | _ :: _, [] => false
  end.

(** [s.replace(old, new)] for a non-empty [old]: a left-to-right scan that
    replaces non-overlapping occurrences.  [skip] counts the characters of
    a matched occurrence that are still to be dropped. *)
Fixpoint replace_go (old new : list ascii) (skip : nat) (s : list ascii)
  : list ascii :=
  match s with
  | [] => []
  | c :: s' =>
      match skip with
      | S k => replace_go old new k s'
      | O =>
          if startswith old s
          then new ++ replace_go old new (length old - 1) s'
          else c :: replace_go old new 0 s'
      end
  end.

Definition replace (old new s : list ascii) : list ascii :=
  replace_go old new 0 s.

(** [str.split()] without arguments: the maximal runs of non-space
    characters.  [cur] is the current word, reversed. *)
Fixpoint split_go (cur : list ascii) (s : list ascii) : list (list ascii) :=
  match s with
  | [] => match cur with [] => [] | _ => [rev cur] end
  | c :: s' =>
      if isspace c
      then match cur with
           | [] => split_go [] s'
           | _ => rev cur :: split_go [] s'
           end
      else split_go (c :: cur) s'
  end.

Definition split (s : list ascii) : list (list ascii) := split_go [] s.

(** [sep.join(words)] *)
Fixpoint join (sep : list ascii) (ws : list (list ascii)) : list ascii :=
  match ws with
  | [] => []
  | [w] => w
  | w :: ws' => w ++ sep ++ join sep ws'
  end.

Definition chars (s : string) : list ascii := list_ascii_of_string s.
Definition str (l : list ascii) : string := string_of_list_ascii l.

End PyStr.

(** ** models/schemas.py *)

Inductive Source := zillow | redfin | realtor.

Record Listing := {
  id : string;
  source : Source;
  url : string;
  address : string;
  city : string;
  state : string;
  zip_code : string;
  price : Z;
  bedrooms : Z;
  bathrooms : R;
  sqft : Z;
  property_type : string;
  description : string;
  images : list string;
  listing_date : option string;
  days_on_market : option Z
}.

Record UserPreferences := {
  price_min : option Z;
  price_max : option Z;
  bedrooms_min : option Z;
  bedrooms_max : option Z;
  bathrooms_min : option R;
  bathrooms_max : option R;
  sqft_min : option Z;
  sqft_max : option Z;
  location : option string;
  property_types : option (list string);
  must_have_features : option (list string);
  deal_breakers : option (list string);
  lifestyle_priorities : option (list string)
}.

Record EvaluationReport := {
  eval_listing_id : string;
  preference_match_score : R;
  crime_score : option R;
  school_score : option R;
  walkability_score : option R;
  affordability_score : option R;
  similar_evaluations : list string;
  strengths : list string;
  concerns : list string;
  additional_notes : option string
}.

Record ArgumentReport := {
  arg_listing_id : string;
  pro_arguments : list string;
  con_arguments : list string
}.

Inductive Recommendation := StrongBuy | Consider | Pass.

Record FinalReport := {
  listing : Listing;
  evaluation : EvaluationReport;
  arguments : ArgumentReport;
  final_score : R;
  executive_summary : string;
  recommendation : Recommendation
}.

Inductive Role := user | assistant.

Record ChatSession := {
  session_id : string;
  messages : list (Role * string);
  preferences : option UserPreferences;
  preferences_complete : bool
}.

Inductive Status := pending | scraping | evaluating | complete | error.

Record SearchStatusResponse := {
  resp_status : Status;
  resp_progress : R;
  resp_message : string;
  listings_found : nat;
  listings_evaluated : nat
}.

Inductive Action := like | dislike.

Record FeedbackRequest := {
  fb_listing_id : string;
  action : Action;
  fb_session_id : string
}.

(** ** services/scraper_orchestrator.py *)

Module ScraperOrchestrator.
Import PyStr.

Definition _normalize_chars (a : list ascii) : list ascii :=
  let normalized := strip (lower a) in
  let normalized := replace (chars "street") (chars "st") normalized in
  let normalized := replace (chars "avenue") (chars "ave") normalized in
  let normalized := replace (chars "boulevard") (chars "blvd") normalized in
  let normalized := replace (chars "drive") (chars "dr") normalized in
  let normalized := replace (chars "road") (chars "rd") normalized in
  let normalized := replace (chars ".") [] normalized in
  let normalized := replace (chars ",") [] normalized in
  join (chars " ") (split normalized).

Definition _normalize_address (address : string) : string :=
  str (_normalize_chars (chars address)).

(** One iteration of the loop of [_deduplicate_listings]; the state is
    the pair [(seen_addresses, unique_listings)]. *)
Definition dedup_step (st : gset string * list Listing) (listing : Listing)
  : gset string * list Listing :=
  let normalized_address := _normalize_address (address listing) in
  if decide (normalized_address ∉ st.1)
  then ({[ normalized_address ]} ∪ st.1, st.2 ++ [listing])
  else st.

Definition _deduplicate_listings (listings : list Listing) : list Listing :=
  (foldl dedup_step (∅, []) listings).2.

(** What awaiting one scraper task yields under
    [asyncio.gather(..., return_exceptions=True)]. *)
Inductive ScraperResult :=
| Raised (msg : string)
| Returned (listings : list Listing)
| ReturnedOther.

Definition combine_step (all_listings : list Listing) (result : ScraperResult)
  : list Listing :=
  match result with
  | Raised _ => all_listings
  | Returned l => all_listings ++ l
  | ReturnedOther => all_listings
  end.

Definition search_all_platforms (results : list ScraperResult) : list Listing :=
  let all_listings := foldl combine_step [] results in
  _deduplicate_listings all_listings.

End ScraperOrchestrator.


(** ** api/search.py: the search pipeline *)

Module Search.
Import ScraperOrchestrator.

(** Entries of [evaluated_listings] and [argued_listings]. *)
Record EvaluatedListing := {
  el_listing : Listing;
  el_evaluation : EvaluationReport
}.

Record ArguedListing := {
  al_listing : Listing;
  al_evaluation : EvaluationReport;
  al_arguments : ArgumentReport
}.

(** One entry of [search_sessions].  The keys [evaluated_listings],
    [argued_listings] and [final_reports] are absent until they are first
    assigned. *)
Record SearchSession := {
  status : Status;
  chat_session_id : string;
  message : string;
  progress : R;
  listings : list Listing;
  evaluated_listings : option (list EvaluatedListing);
  argued_listings : option (list ArguedListing);
  final_reports : option (list FinalReport)
}.

(** The assignments [search_sessions[session_id][key] = value]. *)
Inductive Write :=
| SetStatus (s : Status)
| SetMessage (m : string)
| SetProgress (p : R)
| SetListings (l : list Listing)
| SetEvaluated (l : list EvaluatedListing)
| SetArgued (l : list ArguedListing)
| SetFinalReports (l : list FinalReport).

Definition apply_write (w : Write) (s : SearchSession) : SearchSession :=
  match w with
  | SetStatus v =>
      {| status := v; chat_session_id := chat_session_id s;
         message := message s; progress := progress s; listings := listings s;
         evaluated_listings := evaluated_listings s;
         argued_listings := argued_listings s;
         final_reports := final_reports s |}
  | SetMessage v =>
      {| status := status s; chat_session_id := chat_session_id s;
         message := v; progress := progress s; listings := listings s;
         evaluated_listings := evaluated_listings s;
         argued_listings := argued_listings s;
         final_reports := final_reports s |}
  | SetProgress v =>
      {| status := status s; chat_session_id := chat_session_id s;
         message := message s; progress := v; listings := listings s;
         evaluated_listings := evaluated_listings s;
         argued_listings := argued_listings s;
         final_reports := final_reports s |}
  | SetListings v =>
      {| status := status s; chat_session_id := chat_session_id s;
         message := message s; progress := progress s; listings := v;
         evaluated_listings := evaluated_listings s;
         argued_listings := argued_listings s;
         final_reports := final_reports s |}
  | SetEvaluated v =>
      {| status := status s; chat_session_id := chat_session_id s;
         message := message s; progress := progress s; listings := listings s;
         evaluated_listings := Some v;
         argued_listings := argued_listings s;
         final_reports := final_reports s |}
  | SetArgued v =>
      {| status := status s; chat_session_id := chat_session_id s;
         message := message s; progress := progress s; listings := listings s;
         evaluated_listings := evaluated_listings s;
         argued_listings := Some v;
         final_reports := final_reports s |}
  | SetFinalReports v =>
      {| status := status s; chat_session_id := chat_session_id s;
         message := message s; progress := progress s; listings := listings s;
         evaluated_listings := evaluated_listings s;
         argued_listings := argued_listings s;
         final_reports := Some v |}
  end.

(** The successive states of the session: the state before the first write
    and the state after each write. *)
Fixpoint run_writes (s : SearchSession) (ws : list Write) : list SearchSession :=
  match ws with
  | [] => [s]
  | w :: ws' => s :: run_writes (apply_write w s) ws'
  end.

(** The state after all the writes. *)
Definition final_state (s : SearchSession) (ws : list Write) : SearchSession :=
  foldl (λ st w, apply_write w st) s ws.

(** The external collaborators.  A call returns [None] when it raises; the
    first argument is the loop index of the call, so that the outcome may
    differ from call to call. *)
Record Collaborators := {
  scrapers : UserPreferences → list ScraperResult;
  evaluate_listing :
    nat → Listing → UserPreferences → option EvaluationReport;
  generate_arguments :
    nat → Listing → EvaluationReport → UserPreferences → option ArgumentReport;
  compile_report :
    nat → Listing → EvaluationReport → ArgumentReport → UserPreferences
    → option FinalReport
}.

(** [sorted(xs, key=key, reverse=True)] and [xs.sort(key=key, reverse=True)]:
    a stable sort into descending key order.  An element is inserted
    before the first element whose key is not greater than its own. *)
Fixpoint insert_desc {A} (key : A → R) (x : A) (l : list A) : list A :=
  match l with
  | [] => [x]
  | y :: l' =>
      if Rlt_dec (key x) (key y) then y :: insert_desc key x l'
      else x :: l
  end.

Definition sorted_desc {A} (key : A → R) (l : list A) : list A :=
  foldr (insert_desc key) [] l.

(** One of the three [for i, x in enumerate(xs)] loops, from index [i] on:
    each call that returns appends its result and writes the progress
    [base + span * (i + 1) / n]; a call that raises is skipped. *)
Fixpoint stage_loop {A B} (call : nat → A → option B) (base span : R)
    (n i : nat) (xs : list A) : list B * list Write :=
  match xs with
  | [] => ([], [])
  | x :: xs' =>
      let rest := stage_loop call base span n (S i) xs' in
      match call i x with
      | Some b =>
          (b :: rest.1,
           SetProgress (base + span * INR (i + 1) / INR n) :: rest.2)
      | None => rest
      end
  end.

Definition evaluate_call (c : Collaborators) (prefs : UserPreferences)
    (i : nat) (l : Listing) : option EvaluatedListing :=
  match evaluate_listing c i l prefs with
  | Some ev => Some {| el_listing := l; el_evaluation := ev |}
  | None => None
  end.

Definition argue_call (c : Collaborators) (prefs : UserPreferences)
    (i : nat) (e : EvaluatedListing) : option ArguedListing :=
  match generate_arguments c i (el_listing e) (el_evaluation e) prefs with
  | Some args =>
      Some {| al_listing := el_listing e; al_evaluation := el_evaluation e;
              al_arguments := args |}
  | None => None
  end.

Definition compile_call (c : Collaborators) (prefs : UserPreferences)
    (i : nat) (a : ArguedListing) : option FinalReport :=
  compile_report c i (al_listing a) (al_evaluation a) (al_arguments a) prefs.

(** The results of the three enrichment stages. *)
Record Stages := {
  st_listings : list Listing;
  st_evaluated : list EvaluatedListing * list Write;
  st_argued : list ArguedListing * list Write;
  st_final : list FinalReport * list Write
}.

Definition stages (c : Collaborators) (prefs : UserPreferences) : Stages :=
  let listings := search_all_platforms (scrapers c prefs) in
  let ev := stage_loop (evaluate_call c prefs) 50 20 (length listings) 0 listings in
  let ar := stage_loop (argue_call c prefs) 70 15 (length ev.1) 0 ev.1 in
  let fr := stage_loop (compile_call c prefs) 85 10 (length ar.1) 0 ar.1 in
  {| st_listings := listings; st_evaluated := ev; st_argued := ar;
     st_final := fr |}.

(** The writes of [run_search_pipeline] when nothing escapes the
    per-listing handlers. *)
Definition pipeline_writes (chat_sessions : gmap string ChatSession)
    (c : Collaborators) (chat_id : string) : list Write :=
  match chat_sessions !! chat_id with
  | None => [SetStatus error; SetMessage "Chat session not found"]
  | Some chat_session =>
      match preferences chat_session with
      | None => [SetStatus error; SetMessage "No preferences found"]
      | Some prefs =>
          let st := stages c prefs in
          [SetStatus scraping;
           SetMessage "Searching real estate platforms...";
           SetProgress 20]
          ++ [SetStatus evaluating;
              SetMessage "Evaluating listings...";
              SetProgress 50]
          ++ (st_evaluated st).2
          ++ [SetStatus evaluating;
              SetMessage "Generating pro/con arguments...";
              SetProgress 70]
          ++ (st_argued st).2
          ++ [SetStatus evaluating;
              SetMessage "Compiling final reports...";
              SetProgress 85]
          ++ (st_final st).2
          ++ [SetStatus complete;
              SetMessage "Analysis complete";
              SetProgress 100;
              SetListings (st_listings st);
              SetEvaluated (st_evaluated st).1;
              SetArgued (st_argued st).1;
              SetFinalReports (sorted_desc final_score (st_final st).1)]
      end
  end.

(** [run_search_pipeline].  [escaped = Some (k, msg)] is an exception with
    text [msg] that escapes the per-listing handlers after [k] writes: the
    outer handler then sets the status to error and stores the text. *)
Definition run_search_pipeline (chat_sessions : gmap string ChatSession)
    (c : Collaborators) (chat_id : string) (escaped : option (nat * string))
  : list Write :=
  let ws := pipeline_writes chat_sessions c chat_id in
  match escaped with
  | Some (k, msg) =>
      if decide (k < length ws)
      then take k ws ++ [SetStatus error; SetMessage msg]
      else ws
  | None => ws
  end.

(** The session [start_search] stores before it launches the pipeline. *)
Definition start_search (chat_id : string) : SearchSession :=
  {| status := pending; chat_session_id := chat_id;
     message := "Initializing search..."; progress := 0; listings := [];
     evaluated_listings := None; argued_listings := None;
     final_reports := None |}.

(** [get_search_status], for a session that exists. *)
Definition get_search_status (session : SearchSession) : SearchStatusResponse :=
  {| resp_status := status session;
     resp_progress := progress session;
     resp_message := message session;
     listings_found := length (listings session);
     listings_evaluated := length (default [] (evaluated_listings session)) |}.

(** Every state the session goes through in one run. *)
Definition session_trace (chat_sessions : gmap string ChatSession)
    (c : Collaborators) (chat_id : string) (escaped : option (nat * string))
  : list SearchSession :=
  run_writes (start_search chat_id)
    (run_search_pipeline chat_sessions c chat_id escaped).

End Search.

(** ** numpy, over the reals

    [np.mean], [np.std] and [np.corrcoef] as numpy documents them.  A
    correlation that numpy returns as NaN (a zero denominator) is [None]. *)

Module Np.
Local Open Scope R_scope.

Definition sum (xs : list R) : R := foldr Rplus 0 xs.

Definition mean (xs : list R) : R := sum xs / INR (length xs).

(** Deviations from the mean. *)
Definition dev (xs : list R) : list R := map (λ x, x - mean xs) xs.

Definition dot (xs ys : list R) : R := sum (zip_with Rmult xs ys).

(** [np.std]: the square root of the mean squared deviation. *)
Definition std (xs : list R) : R :=
  sqrt (mean (map (λ d, d * d) (dev xs))).

(** [np.cov] of two rows, with the default normalisation by [n - 1]. *)
Definition cov (xs ys : list R) : R :=
  dot (dev xs) (dev ys) / (INR (length xs) - 1).

(** [np.corrcoef(xs, ys)[0, 1]]: the covariance divided by the square roots
    of the two variances; NaN when one of them is zero or there are fewer
    than two observations. *)
Definition corrcoef (xs ys : list R) : option R :=
  if decide (length xs < 2)%nat then None
  else if decide (cov xs xs = 0 ∨ cov ys ys = 0) then None
  else Some (cov xs ys / sqrt (cov xs xs) / sqrt (cov ys ys)).

End Np.

(** ** services/recommendation_service.py *)

Module RecommendationService.
Local Open Scope R_scope.

(** The document and the metadata stored for one feedback.  (The
    document's constant timestamp text is left out.) *)
Record FeedbackDocument := {
  doc_session_id : string;
  doc_listing_id : string;
  doc_action : Action;
  features : gmap string R
}.

Record FeedbackMetadata := {
  meta_session_id : string;
  meta_listing_id : string;
  meta_action : Action;
  meta_price : Z;
  meta_bedrooms : Z;
  meta_bathrooms : R;
  meta_sqft : Z;
  meta_final_score : R
}.

Record WeightsDocument := {
  w_session_id : string;
  weights : gmap string R;
  sample_size : nat
}.

(** The two ChromaDB collections, keyed by document id; [upsert] is
    [insert]. *)
Record Stores := {
  feedback_collection : gmap string (FeedbackDocument * FeedbackMetadata);
  preference_weights_collection : gmap string WeightsDocument
}.

Definition empty_stores : Stores :=
  {| feedback_collection := ∅; preference_weights_collection := ∅ |}.

(** [x or d] on an optional number: [d] when [x] is [None] or zero. *)
Definition or_default (x : option R) (d : R) : R :=
  match x with
  | Some v => if decide (v = 0) then d else v
  | None => d
  end.

Definition or_default_Z (x : option Z) (d : Z) : Z :=
  match x with
  | Some v => if decide (v = 0%Z) then d else v
  | None => d
  end.

Definition lower_str (s : string) : string :=
  PyStr.str (PyStr.lower (PyStr.chars s)).

Definition indicator (b : bool) : R := if b then 1 else 0.

Definition _extract_features (l : Listing) (final_report : FinalReport)
  : gmap string R :=
  let ev := evaluation final_report in
  let ar := arguments final_report in
  list_to_map
    [("price", IZR (price l) / 1000000);
     ("bedrooms", IZR (bedrooms l));
     ("bathrooms", bathrooms l);
     ("sqft", IZR (sqft l) / 1000);
     ("days_on_market", IZR (or_default_Z (days_on_market l) 30) / 100);
     ("preference_match", preference_match_score ev);
     ("crime_score", or_default (crime_score ev) 5);
     ("school_score", or_default (school_score ev) 5);
     ("walkability_score", or_default (walkability_score ev) 5);
     ("affordability_score", or_default (affordability_score ev) 5);
     ("final_score", final_score final_report);
     ("pro_count", INR (length (pro_arguments ar)));
     ("con_count", INR (length (con_arguments ar)));
     ("argument_balance",
        IZR (Z.of_nat (length (pro_arguments ar))
             - Z.of_nat (length (con_arguments ar))));
     ("is_house",
        indicator (bool_decide (lower_str (property_type l) = "house")));
     ("is_condo",
        indicator (bool_decide (lower_str (property_type l) = "condo")));
     ("is_townhouse",
        indicator (bool_decide (lower_str (property_type l) = "townhouse")))].

(** [f"{session_id}_{listing_id}"] *)
Definition feedback_id (session_id listing_id : string) : string :=
  session_id +:+ "_" +:+ listing_id.

(** [collection.get(where={"session_id": session_id})]: the stored entries
    whose metadata carries the session id. *)
Definition get_where_session (session_id : string)
    (coll : gmap string (FeedbackDocument * FeedbackMetadata))
  : list (string * (FeedbackDocument * FeedbackMetadata)) :=
  filter (λ e, meta_session_id e.2.2 = session_id) (map_to_list coll).

Definition label (a : Action) : R :=
  match a with like => 1 | dislike => -1 end.

(** The matrix [X]: one row per feature vector, one column per feature
    name; [None] when a vector lacks a name ([KeyError]). *)
Definition feature_matrix (feature_names : list string)
    (feature_vectors : list (gmap string R)) : option (list (list R)) :=
  mapM (λ fv, mapM (λ fname, fv !! fname) feature_names) feature_vectors.

(** [X[:, i]] *)
Definition column (X : list (list R)) (i : nat) : list R :=
  map (λ row, nth i row 0) X.

Definition correlation_weight (feature_values y : list R) : R :=
  if decide (Np.std feature_values = 0) then 0
  else match Np.corrcoef feature_values y with
       | Some correlation => correlation
       | None => 0
       end.

Definition _calculate_feature_weights
    (feature_vectors : list (gmap string R)) (labels : list R)
  : option (gmap string R) :=
  match feature_vectors with
  | [] => Some ∅
  | fv0 :: _ =>
      let feature_names := (map_to_list fv0).*1 in
      match feature_matrix feature_names feature_vectors with
      | None => None
      | Some X =>
          Some (foldl
                  (λ (weights : gmap string R) '(i, feature_name),
                     <[feature_name := correlation_weight (column X i) labels]>
                       weights)
                  ∅ (imap (λ i n, (i, n)) feature_names))
      end
  end.

(** [_update_preference_weights]; [None] when the weight computation
    raises, in which case nothing has been written. *)
Definition _update_preference_weights (session_id : string) (st : Stores)
  : option Stores :=
  let results := get_where_session session_id (feedback_collection st) in
  if decide (length results < 2)%nat then Some st
  else
    let feature_vectors := map (λ e, features e.2.1) results in
    let labels := map (λ e, label (meta_action e.2.2)) results in
    match _calculate_feature_weights feature_vectors labels with
    | None => None
    | Some ws =>
        Some {| feedback_collection := feedback_collection st;
                preference_weights_collection :=
                  <[session_id :=
                      {| w_session_id := session_id; weights := ws;
                         sample_size := length labels |}]>
                    (preference_weights_collection st) |}
    end.

(** The document and the metadata [record_feedback] builds. *)
Definition feedback_document (feedback : FeedbackRequest) (l : Listing)
    (final_report : FinalReport) : FeedbackDocument :=
  {| doc_session_id := fb_session_id feedback;
     doc_listing_id := fb_listing_id feedback;
     doc_action := action feedback;
     features := _extract_features l final_report |}.

Definition feedback_metadata (feedback : FeedbackRequest) (l : Listing)
    (final_report : FinalReport) : FeedbackMetadata :=
  {| meta_session_id := fb_session_id feedback;
     meta_listing_id := fb_listing_id feedback;
     meta_action := action feedback; meta_price := price l;
     meta_bedrooms := bedrooms l; meta_bathrooms := bathrooms l;
     meta_sqft := sqft l; meta_final_score := final_score final_report |}.

(** [record_feedback]: the stores after the call, and whether the call
    returned ([true]) or raised after the upsert ([false]). *)
Definition record_feedback (feedback : FeedbackRequest) (l : Listing)
    (final_report : FinalReport) (st : Stores) : Stores * bool :=
  let document := feedback_document feedback l final_report in
  let metadata := feedback_metadata feedback l final_report in
  let feedback_id :=
    feedback_id (fb_session_id feedback) (fb_listing_id feedback) in
  let st1 :=
    {| feedback_collection :=
         <[feedback_id := (document, metadata)]> (feedback_collection st);
       preference_weights_collection := preference_weights_collection st |} in
  match _update_preference_weights (fb_session_id feedback) st1 with
  | Some st2 => (st2, true)
  | None => (st1, false)
  end.

Definition _get_preference_weights (session_id : string) (st : Stores)
  : option (gmap string R) :=
  weights <$> preference_weights_collection st !! session_id.

Definition weighted_sum (fs ws : gmap string R) : R :=
  map_fold
    (λ feature_name feature_value acc,
       match ws !! feature_name with
       | Some w => acc + feature_value * w
       | None => acc
       end)
    0 fs.

Definition _calculate_personalized_score (fs ws : gmap string R) : R :=
  let base_score := default 5 (fs !! "final_score") in
  let personalized_score :=
    0.7 * base_score + 0.3 * (5 + weighted_sum fs ws) in
  Rmax 0 (Rmin 10 personalized_score).

Definition get_ranked_listings (session_id : string)
    (reports : list FinalReport) (st : Stores) : list FinalReport :=
  match _get_preference_weights session_id st with
  | None => Search.sorted_desc final_score reports
  | Some ws =>
      if decide (ws = ∅) then Search.sorted_desc final_score reports
      else
        let scored_listings :=
          map (λ report,
                 (_calculate_personalized_score
                    (_extract_features (listing report) report) ws,
                  report))
              reports in
        map snd (Search.sorted_desc fst scored_listings)
  end.

Definition get_next_listing (session_id : string)
    (available_listings : list FinalReport) (seen_listing_ids : list string)
    (st : Stores) : option FinalReport :=
  let unseen_listings :=
    filter (λ r, id (listing r) ∉ seen_listing_ids) available_listings in
  match unseen_listings with
  | [] => None
  | _ => head (get_ranked_listings session_id unseen_listings st)
  end.

End RecommendationService.

(** ** services/recommendation_service.py: insights and history *)

Module Insights.
Import RecommendationService.
Local Open Scope R_scope.

(** The seventeen feature names, in the order of the dictionary literal of
    [_extract_features]. *)
Definition feature_order : list string :=
  ["price"; "bedrooms"; "bathrooms"; "sqft"; "days_on_market";
   "preference_match"; "crime_score"; "school_score"; "walkability_score";
   "affordability_score"; "final_score"; "pro_count"; "con_count";
   "argument_balance"; "is_house"; "is_condo"; "is_townhouse"].

(** [weights.items()]: the entries in insertion order.  The weight
    dictionaries the service stores are filled in the order of
    [feature_order]; any other key comes after, in the order of the map. *)
Definition items (ws : gmap string R) : list (string * R) :=
  omap (λ n, pair n <$> ws !! n) feature_order
  ++ filter (λ kv, kv.1 ∉ feature_order) (map_to_list ws).

(** What [get_learning_insights] returns.  The keys [like_rate] and
    [weights] are absent ([None]) when the session has no feedback. *)
Record LearningInsights := {
  total_swipes : nat;
  likes : nat;
  dislikes : nat;
  like_rate : option R;
  learned_preferences : list (string * string);
  insight_weights : option (option (gmap string R))
}.

#[global] Instance Action_eq_dec : EqDecision Action.
Proof. solve_decision. Defined.

Definition count_action (a : Action)
    (results : list (string * (FeedbackDocument * FeedbackMetadata))) : nat :=
  length (filter (λ e, meta_action e.2.2 = a) results).

Definition describe (kv : string * R) : string * string :=
  if Rlt_dec 0 kv.2
  then (kv.1, "Prefers higher " +:+ kv.1)
  else (kv.1, "Prefers lower " +:+ kv.1).

Definition get_learning_insights (session_id : string) (st : Stores)
  : LearningInsights :=
  let results := get_where_session session_id (feedback_collection st) in
  match results with
  | [] =>
      {| total_swipes := 0; likes := 0; dislikes := 0; like_rate := None;
         learned_preferences := []; insight_weights := None |}
  | _ =>
      let likes := count_action like results in
      let dislikes := count_action dislike results in
      let ws := _get_preference_weights session_id st in
      let learned_preferences :=
        match ws with
        | None => []
        | Some w =>
            if decide (w = ∅) then []
            else
              let sorted_weights :=
                Search.sorted_desc (λ kv, Rabs kv.2) (items w) in
              describe <$> take 5 sorted_weights
        end in
      {| total_swipes := likes + dislikes; likes := likes;
         dislikes := dislikes;
         like_rate :=
           Some (if decide (0 < likes + dislikes)%nat
                 then INR likes / INR (likes + dislikes) else 0);
         learned_preferences := learned_preferences;
         insight_weights := Some ws |}
  end.

(** One record of [get_feedback_history]. *)
Record HistoryRecord := {
  h_listing_id : string;
  h_action : Action;
  h_price : Z;
  h_bedrooms : Z;
  h_final_score : R;
  h_features : gmap string R
}.

Definition get_feedback_history (session_id : string) (st : Stores)
  : list HistoryRecord :=
  map (λ e,
         {| h_listing_id := meta_listing_id e.2.2;
            h_action := meta_action e.2.2;
            h_price := meta_price e.2.2;
            h_bedrooms := meta_bedrooms e.2.2;
            h_final_score := meta_final_score e.2.2;
            h_features := features e.2.1 |})
      (get_where_session session_id (feedback_collection st)).

End Insights.

(** ** api/search.py: the endpoints *)

Module SearchApi.
Import Search RecommendationService.

(** What an endpoint does: it returns a value, raises an [HTTPException],
    or lets an exception of the service escape. *)
Inductive Outcome (A : Type) :=
| Return (a : A)
| HTTPException (status_code : nat) (detail : string)
| Unhandled.
Arguments Return {A} a.
Arguments HTTPException {A} status_code detail.
Arguments Unhandled {A}.

(** The module-level state: [search_sessions], [seen_listings] and the
    collections of [recommendation_service]. *)
Record ApiState := {
  search_sessions : gmap string SearchSession;
  seen_listings : gmap string (list string);
  service : Stores
}.

(** [start_search], for the session id [uuid.uuid4()] produced: the
    session stored and the response.  The pipeline is launched as a
    background task. *)
Definition start_search (search_session_id chat_id : string) (st : ApiState)
  : ApiState * (string * Status) :=
  ({| search_sessions :=
        <[search_session_id := Search.start_search chat_id]>
          (search_sessions st);
      seen_listings := seen_listings st; service := service st |},
   (search_session_id, pending)).

(** The common entry of the result endpoints: the session must exist and
    be complete. *)
Definition completed_session (not_complete : string) (session_id : string)
    (st : ApiState) : Outcome SearchSession :=
  match search_sessions st !! session_id with
  | None => HTTPException 404 "Search session not found"
  | Some session =>
      match status session with
      | complete => Return session
      | _ => HTTPException 400 not_complete
      end
  end.

Definition get_search_results (session_id : string) (st : ApiState)
  : Outcome (list Listing) :=
  match completed_session "Search is not complete yet" session_id st with
  | Return session => Return (listings session)
  | HTTPException c d => HTTPException c d
  | Unhandled => Unhandled
  end.

Definition get_evaluated_results (session_id : string) (st : ApiState)
  : Outcome (list EvaluatedListing) :=
  match completed_session "Search is not complete yet" session_id st with
  | Return session => Return (default [] (evaluated_listings session))
  | HTTPException c d => HTTPException c d
  | Unhandled => Unhandled
  end.

Definition get_final_results (session_id : string) (st : ApiState)
  : Outcome (list FinalReport) :=
  match completed_session "Search is not complete yet" session_id st with
  | Return session => Return (default [] (final_reports session))
  | HTTPException c d => HTTPException c d
  | Unhandled => Unhandled
  end.

(** The loop of [submit_feedback] that looks the listing up: the first
    report whose listing has the id. *)
Fixpoint find_report (listing_id : string) (reports : list FinalReport)
  : option FinalReport :=
  match reports with
  | [] => None
  | report :: rest =>
      if decide (id (listing report) = listing_id) then Some report
      else find_report listing_id rest
  end.

(** The two statements that track a listing as seen. *)
Definition mark_seen (session_id listing_id : string)
    (seen : gmap string (list string)) : gmap string (list string) :=
  let seen1 :=
    match seen !! session_id with
    | None => <[session_id := []]> seen
    | Some _ => seen
    end in
  let l := default [] (seen1 !! session_id) in
  if decide (listing_id ∈ l) then seen1
  else <[session_id := l ++ [listing_id]]> seen1.

Definition submit_feedback (request : FeedbackRequest) (st : ApiState)
  : ApiState * Outcome Insights.LearningInsights :=
  let session_id := fb_session_id request in
  match completed_session "Search not complete yet" session_id st with
  | HTTPException c d => (st, HTTPException c d)
  | Unhandled => (st, Unhandled)
  | Return session =>
      match find_report (fb_listing_id request)
              (default [] (final_reports session)) with
      | None => (st, HTTPException 404 "Listing not found in this session")
      | Some final_report =>
          let recorded :=
            record_feedback request (listing final_report) final_report
              (service st) in
          if recorded.2
          then
            let st' :=
              {| search_sessions := search_sessions st;
                 seen_listings :=
                   mark_seen session_id (fb_listing_id request)
                     (seen_listings st);
                 service := recorded.1 |} in
            (st', Return (Insights.get_learning_insights session_id
                            recorded.1))
          else
            ({| search_sessions := search_sessions st;
                seen_listings := seen_listings st;
                service := recorded.1 |}, Unhandled)
      end
  end.

(** The response of [get_next_listing]. *)
Record NextResponse := {
  next_message : string;
  next_listing : option FinalReport;
  all_seen : bool
}.

Definition get_next_listing (session_id : string) (st : ApiState)
  : Outcome NextResponse :=
  match completed_session "Search not complete yet" session_id st with
  | HTTPException c d => HTTPException c d
  | Unhandled => Unhandled
  | Return session =>
      match default [] (final_reports session) with
      | [] => HTTPException 404 "No listings available"
      | reports =>
          let seen := default [] (seen_listings st !! session_id) in
          match RecommendationService.get_next_listing session_id reports
                  seen (service st) with
          | None =>
              Return {| next_message := "No more unseen listings available";
                        next_listing := None; all_seen := true |}
          | Some r =>
              Return {| next_message := "Next recommended listing";
                        next_listing := Some r; all_seen := false |}
          end
      end
  end.

Definition get_learning_insights (session_id : string) (st : ApiState)
  : Outcome (string * Insights.LearningInsights) :=
  match search_sessions st !! session_id with
  | None => HTTPException 404 "Search session not found"
  | Some _ =>
      Return (session_id,
              Insights.get_learning_insights session_id (service st))
  end.

Definition get_ranked_results (session_id : string) (st : ApiState)
  : Outcome (list FinalReport) :=
  match completed_session "Search not complete yet" session_id st with
  | HTTPException c d => HTTPException c d
  | Unhandled => Unhandled
  | Return session =>
      match default [] (final_reports session) with
      | [] => Return []
      | reports => Return (get_ranked_listings session_id reports (service st))
      end
  end.

End SearchApi.

(** ** api/chat.py and the conversational agent's reply *)

Module Chat.
Import PyStr SearchApi.

Definition marker : string := "[PREFERENCES_COMPLETE]".

(** [needle in hay] *)
Fixpoint contains (needle hay : list ascii) : bool :=
  (startswith needle hay
   || match hay with
      | [] => false
      | _ :: hay' => contains needle hay'
      end)%bool.

(** The end of [ConversationalAgent.chat], from the text of the reply on:
    the text without the marker, and whether the marker was there. *)
Definition chat (assistant_message : string) : string * bool :=
  let preferences_complete :=
    contains (chars marker) (chars assistant_message) in
  (str (strip (replace (chars marker) [] (chars assistant_message))),
   preferences_complete).

Definition get_initial_message : string :=
  "Hello! I'm here to help you find your perfect home. Let's start by understanding what you're looking for. What's your budget for your new home?".

(** What the agent does in one turn: the text of its reply ([None] when
    the call raises) and the outcome of [extract_preferences], should it
    be called ([None] when the call raises, [Some None] when it returns
    [None]). *)
Record Turn := {
  reply : option string;
  extraction : option (option UserPreferences)
}.

(** [start_chat_session], for the session id produced. *)
Definition start_chat_session (new_id : string)
    (chat_sessions : gmap string ChatSession) : gmap string ChatSession :=
  <[new_id :=
      {| session_id := new_id;
         messages := [(assistant, get_initial_message)];
         preferences := None; preferences_complete := false |}]>
    chat_sessions.

Definition add_message (m : Role * string) (session : ChatSession)
  : ChatSession :=
  {| session_id := session_id session;
     messages := messages session ++ [m];
     preferences := preferences session;
     preferences_complete := preferences_complete session |}.

Definition set_complete (session : ChatSession) : ChatSession :=
  {| session_id := session_id session; messages := messages session;
     preferences := preferences session; preferences_complete := true |}.

Definition set_preferences (p : UserPreferences) (session : ChatSession)
  : ChatSession :=
  {| session_id := session_id session; messages := messages session;
     preferences := Some p;
     preferences_complete := preferences_complete session |}.

(** The response of [send_message]. *)
Record ChatMessageResponse := {
  response : string;
  resp_preferences_complete : bool;
  current_preferences : option UserPreferences
}.

(** [send_message].  The session object is the one stored in
    [chat_sessions]: what the handler has appended or set is stored even
    when a call of the agent raises afterwards. *)
Definition send_message (id : string) (message : string) (turn : Turn)
    (chat_sessions : gmap string ChatSession)
  : gmap string ChatSession * Outcome ChatMessageResponse :=
  match chat_sessions !! id with
  | None => (chat_sessions, HTTPException 404 "Chat session not found")
  | Some session =>
      let session := add_message (user, message) session in
      match reply turn with
      | None => (<[id := session]> chat_sessions, Unhandled)
      | Some assistant_message =>
          let result := chat assistant_message in
          let session := add_message (assistant, result.1) session in
          if result.2
          then
            let session := set_complete session in
            match extraction turn with
            | None => (<[id := session]> chat_sessions, Unhandled)
            | Some extracted_prefs =>
                let session :=
                  match extracted_prefs with
                  | Some p => set_preferences p session
                  | None => session
                  end in
                (<[id := session]> chat_sessions,
                 Return {| response := result.1;
                           resp_preferences_complete :=
                             preferences_complete session;
                           current_preferences := preferences session |})
            end
          else
            (<[id := session]> chat_sessions,
             Return {| response := result.1;
                       resp_preferences_complete :=
                         preferences_complete session;
                       current_preferences := preferences session |})
      end
  end.

(** [get_preferences] *)
Definition get_preferences (id : string)
    (chat_sessions : gmap string ChatSession)
  : Outcome (option UserPreferences * bool) :=
  match chat_sessions !! id with
  | None => HTTPException 404 "Chat session not found"
  | Some session =>
      Return (preferences session, preferences_complete session)
  end.

End Chat.

(** ** services/compilation_agent.py: scores and recommendation *)

Module CompilationAgent.
Local Open Scope R_scope.

(** [sum(xs)]: a left fold from 0. *)
Definition py_sum (xs : list R) : R := foldl Rplus 0 xs.

Definition _calculate_additional_factors_score (evaluation : EvaluationReport)
  : R :=
  let scores :=
    [crime_score evaluation; school_score evaluation;
     walkability_score evaluation; affordability_score evaluation] in
  let valid_scores := omap (λ s, s) scores in
  match valid_scores with
  | [] => 5
  | _ => py_sum valid_scores / INR (length valid_scores)
  end.

Definition _calculate_procon_balance (arguments : ArgumentReport) : R :=
  let pro_count := length (pro_arguments arguments) in
  let con_count := length (con_arguments arguments) in
  if decide (pro_count = 0%nat ∧ con_count = 0%nat) then 5
  else
    let ratio := INR pro_count / INR (pro_count + con_count) in
    ratio * 10.

Definition _score_to_recommendation (score : R) : Recommendation :=
  if Rle_dec 8 score then StrongBuy
  else if Rle_dec 5 score then Consider
  else Pass.

(** [_fallback_compilation].  The two float formats of the summary
    ([:.1f] and the default one) are parameters. *)
Definition _fallback_compilation (format_1f format_float : R → string)
    (evaluation : EvaluationReport) : R * string * Recommendation :=
  let preference_weight := 0.4 in
  let additional_weight := 0.3 in
  let balance_weight := 0.2 in
  let baseline_weight := 0.1 in
  let final_score :=
    preference_match_score evaluation * preference_weight
    + _calculate_additional_factors_score evaluation * additional_weight
    + 5 * balance_weight
    + 5 * baseline_weight in
  let final_score := Rmax 0 (Rmin 10 final_score) in
  let executive_summary :=
    "Property scores " +:+ format_1f final_score +:+ "/10 overall. "
    +:+ "Preference match: "
    +:+ format_float (preference_match_score evaluation) +:+ "/10. "
    +:+ "Key strengths: "
    +:+ PyStr.str (PyStr.join (PyStr.chars ", ")
                     (map PyStr.chars (take 2 (strengths evaluation))))
    +:+ "." in
  let recommendation := _score_to_recommendation final_score in
  (final_score, executive_summary, recommendation).

(** A Python float: a real number, NaN or an infinity ([json.loads]
    accepts NaN and Infinity). *)
Inductive PyFloat := Finite (x : R) | NaN | PosInf | NegInf.

(** [max(0.0, min(10.0, x))].  [min] and [max] keep their first argument
    unless the second compares smaller (larger), which NaN never does. *)
Definition clamp_score (x : PyFloat) : R :=
  match x with
  | Finite v => Rmax 0 (Rmin 10 v)
  | NaN => 10
  | PosInf => 10
  | NegInf => 0
  end.

(** The JSON object found in the reply, with the three keys the code
    reads; [None] is an absent key.  The score is the value [float()]
    returns; a recommendation that is not a string behaves as a string
    outside the three accepted ones. *)
Record JsonReply := {
  reply_final_score : option PyFloat;
  reply_executive_summary : option string;
  reply_recommendation : option string
}.

Definition recommendation_of (s : string) : option Recommendation :=
  if decide (s = "Strong Buy") then Some StrongBuy
  else if decide (s = "Consider") then Some Consider
  else if decide (s = "Pass") then Some Pass
  else None.

(** [_parse_compilation_response].  [reply = None] when the reply holds
    no JSON object or reading it raises: the fallback is used. *)
Definition _parse_compilation_response (format_1f format_float : R → string)
    (reply : option JsonReply) (evaluation : EvaluationReport)
  : R * string * Recommendation :=
  match reply with
  | Some result =>
      let final_score :=
        clamp_score (default (Finite 5) (reply_final_score result)) in
      let executive_summary := default "" (reply_executive_summary result) in
      let recommendation :=
        default "Consider" (reply_recommendation result) in
      (final_score, executive_summary,
       match recommendation_of recommendation with
       | Some r => r
       | None => _score_to_recommendation final_score
       end)
  | None => _fallback_compilation format_1f format_float evaluation
  end.

End CompilationAgent.

(** ** agents/base_scraper.py and the three scrapers *)

Module BaseScraper.
Import PyStr.

Definition max_results : nat := 20.

(** [str.isdigit] on a character: 0-9 and the superscripts U+00B2, U+00B3
    and U+00B9. *)
Definition isdigit (c : ascii) : bool :=
  (in_range 48 57 c || N.eqb (code c) 178 || N.eqb (code c) 179
   || N.eqb (code c) 185)%bool.

(** The characters [int] and the pattern [\d] accept: 0-9. *)
Definition is_decimal (c : ascii) : bool := in_range 48 57 c.

Definition digit_value (c : ascii) : Z := (Z.of_N (code c) - 48)%Z.

Definition decimal_value (s : list ascii) : Z :=
  foldl (λ acc c, 10 * acc + digit_value c)%Z 0%Z s.

(** [int(s)] on a string of [isdigit] characters; [None] is a
    [ValueError]: the string is empty, holds a superscript, or is longer
    than the interpreter's limit on integer strings
    ([int_max_str_digits], 0 for no limit). *)
Definition int (int_max_str_digits : nat) (s : list ascii) : option Z :=
  match s with
  | [] => None
  | _ =>
      if forallb is_decimal s
      then if decide (int_max_str_digits ≠ 0%nat
                      ∧ (int_max_str_digits < length s)%nat)
           then None
           else Some (decimal_value s)
      else None
  end.

(** [''.join(filter(str.isdigit, s))] *)
Definition digits_of (s : string) : list ascii :=
  List.filter isdigit (chars s).

Definition _format_price (int_max_str_digits : nat) (price_str : string) : Z :=
  let price := digits_of price_str in
  match price with
  | [] => 0%Z
  | _ => match int int_max_str_digits price with
         | Some v => v
         | None => 0%Z
         end
  end.

Definition _format_bedrooms (int_max_str_digits : nat) (bed_str : string) : Z :=
  let numbers := digits_of bed_str in
  match numbers with
  | [] => 0%Z
  | _ => match int int_max_str_digits numbers with
         | Some v => v
         | None => 0%Z
         end
  end.

Definition _format_sqft (int_max_str_digits : nat) (sqft_str : string) : Z :=
  let sqft := digits_of sqft_str in
  match sqft with
  | [] => 0%Z
  | _ => match int int_max_str_digits sqft with
         | Some v => v
         | None => 0%Z
         end
  end.

(** The longest prefix of characters satisfying [p], and the rest. *)
Fixpoint span (p : ascii → bool) (s : list ascii) : list ascii * list ascii :=
  match s with
  | [] => ([], [])
  | c :: s' =>
      if p c then let r := span p s' in (c :: r.1, r.2) else ([], s)
  end.

(** [re.search(r'\d+\.?\d*', s)]: the leftmost run of digits, with a
    period that follows it and the digits after the period.  The result
    is the integer part and, when the period matched, the fraction. *)
Fixpoint search_number (s : list ascii)
  : option (list ascii * option (list ascii)) :=
  match s with
  | [] => None
  | c :: s' =>
      if is_decimal c
      then
        let whole := span is_decimal s in
        match whole.2 with
        | "."%char :: rest => Some (whole.1, Some (span is_decimal rest).1)
        | _ => Some (whole.1, None)
        end
      else search_number s'
  end.

(** [float] of the matched text, as a real number. *)
Definition float (whole : list ascii) (fraction : option (list ascii)) : R :=
  (IZR (decimal_value whole)
   + match fraction with
     | Some f => IZR (decimal_value f) / 10 ^ length f
     | None => 0
     end)%R.

Definition _format_bathrooms (bath_str : string) : R :=
  match search_number (chars bath_str) with
  | Some m => float m.1 m.2
  | None => 0%R
  end.

(** What loading the result page gives a scraper: an exception before or
    during the extraction call, or the listing cards, each of which
    yields a listing or nothing (its extraction raised). *)
Inductive Page :=
| PageFailed
| PageLoaded (cards : list (option Listing)).

(** [extract_listings]: the first [max_results] cards, those that yield a
    listing. *)
Definition extract_listings (cards : list (option Listing)) : list Listing :=
  omap (λ card, card) (take max_results cards).

(** [search]: the extracted listings, cut to [max_results]; the mock
    listings when loading the page fails. *)
Definition search (mock_listings : list Listing) (page : Page)
  : list Listing :=
  match page with
  | PageLoaded cards => take max_results (extract_listings cards)
  | PageFailed => mock_listings
  end.

End BaseScraper.

(** ** The mock listings of the three scrapers *)

Module MockListings.
Import PyStr.

(** [preferences.location or "San Francisco, CA"] *)
Definition location_of (preferences : UserPreferences) : string :=
  match location preferences with
  | Some l => if decide (l = "") then "San Francisco, CA" else l
  | None => "San Francisco, CA"
  end.

(** The text before the first comma: [s.split(',')[0]]. *)
Fixpoint before_comma (s : list ascii) : list ascii :=
  match s with
  | [] => []
  | c :: s' => if Ascii.eqb c ","%char then [] else c :: before_comma s'
  end.

(** [location.split(',')[0] if ',' in location else location] *)
Definition city_of (location : string) : string :=
  if existsb (Ascii.eqb ","%char) (chars location)
  then str (before_comma (chars location))
  else location.

(** One mock listing; [street] is the address up to the location. *)
Definition mock_listing (uuid : string) (src : Source)
    (url street zip_code : string) (price bedrooms : Z) (bathrooms : R)
    (sqft : Z) (property_type description : string) (days_on_market : Z)
    (location : string) : Listing :=
  {| id := uuid; source := src; url := url;
     address := street +:+ ", " +:+ location;
     city := city_of location; state := "CA"; zip_code := zip_code;
     price := price; bedrooms := bedrooms; bathrooms := bathrooms;
     sqft := sqft; property_type := property_type;
     description := description;
     images := ["https://placehold.co/600x400"]; listing_date := None;
     days_on_market := Some days_on_market |}.

(** [_get_mock_listings] of [ZillowScraper], for the two ids produced. *)
Definition zillow_mock_listings (uuid1 uuid2 : string)
    (preferences : UserPreferences) : list Listing :=
  let location := location_of preferences in
  [mock_listing uuid1 zillow "https://www.zillow.com/mock-listing-1"
     "123 Market St" "94103" 600000 2 2 1200 "condo"
     "Beautiful condo in the heart of the city with modern amenities" 15
     location;
   mock_listing uuid2 zillow "https://www.zillow.com/mock-listing-2"
     "456 Valencia St" "94110" 650000 3 2.5 1500 "townhouse"
     "Spacious townhouse with parking and rooftop deck" 8 location].

(** [_get_mock_listings] of [RedfinScraper]. *)
Definition redfin_mock_listings (uuid1 uuid2 : string)
    (preferences : UserPreferences) : list Listing :=
  let location := location_of preferences in
  [mock_listing uuid1 redfin "https://www.redfin.com/mock-listing-1"
     "789 Mission St" "94103" 625000 2 2 1300 "condo"
     "Updated condo with city views and modern finishes" 12 location;
   mock_listing uuid2 redfin "https://www.redfin.com/mock-listing-2"
     "321 Folsom St" "94107" 680000 3 2.5 1600 "townhouse"
     "Charming townhouse with private patio and garage parking" 5
     location].

(** [_get_mock_listings] of [RealtorScraper]. *)
Definition realtor_mock_listings (uuid1 uuid2 : string)
    (preferences : UserPreferences) : list Listing :=
  let location := location_of preferences in
  [mock_listing uuid1 realtor "https://www.realtor.com/mock-listing-1"
     "555 Howard St" "94105" 590000 2 2 1250 "condo"
     "Luxury condo with concierge and amenities" 10 location;
   mock_listing uuid2 realtor "https://www.realtor.com/mock-listing-2"
     "888 Brannan St" "94103" 710000 3 3 1700 "townhouse"
     "Modern townhouse with rooftop terrace and EV charging" 3 location].

End MockListings.

(** ** services/scraper_orchestrator.py: one platform *)

Module Platform.
Import ScraperOrchestrator.

(** The names [get_source_name] returns, in the order of
    [self.scrapers]. *)
Definition get_source_name (s : Source) : string :=
  match s with
  | zillow => "zillow"
  | redfin => "redfin"
  | realtor => "realtor"
  end.

Definition scrapers : list Source := [zillow; redfin; realtor].

(** [search_platform]: the first scraper whose name is the lower-cased
    platform; [inl] is the text of the [ValueError]. *)
Definition search_platform {A} (search : Source → A) (platform : string)
  : string + A :=
  match List.find
          (λ s, bool_decide
                  (get_source_name s
                   = PyStr.str (PyStr.lower (PyStr.chars platform))))
          scrapers with
  | Some scraper => inr (search scraper)
  | None => inl ("Unknown platform: " +:+ platform)
  end.

End Platform.

(** ** services/evaluation_agent.py: reading the evaluation *)

Module EvaluationAgent.
Import CompilationAgent.

(** A key of the JSON object of the reply: absent, present with a value
    the code cannot use ([float] raises on it, or the schema rejects it),
    or present with a usable value. *)
Inductive Field (A : Type) :=
| Missing
| Unusable
| Given (a : A).
Arguments Missing {A}.
Arguments Unusable {A}.
Arguments Given {A} a.

Record EvalData := {
  d_preference_match_score : Field PyFloat;
  d_crime_score : Field PyFloat;
  d_school_score : Field PyFloat;
  d_walkability_score : Field PyFloat;
  d_affordability_score : Field PyFloat;
  d_strengths : Field (list string);
  d_concerns : Field (list string);
  d_additional_notes : Field (option string)
}.

(** What the reply gives: reading it raises, it holds no JSON object, or
    it holds one. *)
Inductive Reply :=
| Raises
| NoJson
| Json (eval_data : EvalData).

Definition _create_default_evaluation : EvalData :=
  {| d_preference_match_score := Given (Finite 5);
     d_crime_score := Given (Finite 5);
     d_school_score := Given (Finite 5);
     d_walkability_score := Given (Finite 5);
     d_affordability_score := Given (Finite 5);
     d_strengths := Given ["Property available for viewing"];
     d_concerns := Given ["Requires further evaluation"];
     d_additional_notes := Given (Some "Standard evaluation") |}.

(** [float(eval_data.get(key, 5.0))] passed through the schema's bounds
    [ge=0, le=10]; [None] when [float] or the validation raises. *)
Definition score_field (f : Field PyFloat) : option R :=
  match f with
  | Missing => Some 5%R
  | Unusable => None
  | Given (Finite v) =>
      if Rle_dec 0 v then if Rle_dec v 10 then Some v else None else None
  | Given _ => None
  end.

(** [eval_data.get(key, default)] passed through the schema. *)
Definition value_field {A} (f : Field A) (d : A) : option A :=
  match f with
  | Missing => Some d
  | Unusable => None
  | Given a => Some a
  end.

(** The report of the [except] branch. *)
Definition error_evaluation (listing_id : string) : EvaluationReport :=
  {| eval_listing_id := listing_id; preference_match_score := 5;
     crime_score := Some 5%R; school_score := Some 5%R;
     walkability_score := Some 5%R; affordability_score := Some 5%R;
     similar_evaluations := [];
     strengths := ["Property matches basic requirements"];
     concerns := ["Evaluation failed - manual review recommended"];
     additional_notes := Some "Automated evaluation encountered an error" |}.

(** The [EvaluationReport(...)] call of the [try] branch; [None] when it
    raises. *)
Definition build_report (eval_data : EvalData) (listing_id : string)
  : option EvaluationReport :=
  match score_field (d_preference_match_score eval_data),
        score_field (d_crime_score eval_data),
        score_field (d_school_score eval_data),
        score_field (d_walkability_score eval_data),
        score_field (d_affordability_score eval_data),
        value_field (d_strengths eval_data) [],
        value_field (d_concerns eval_data) [],
        value_field (d_additional_notes eval_data) (Some "") with
  | Some pm, Some cr, Some sc, Some wa, Some af, Some st, Some co, Some an =>
      Some {| eval_listing_id := listing_id; preference_match_score := pm;
              crime_score := Some cr; school_score := Some sc;
              walkability_score := Some wa; affordability_score := Some af;
              similar_evaluations := []; strengths := st; concerns := co;
              additional_notes := an |}
  | _, _, _, _, _, _, _, _ => None
  end.

Definition _parse_evaluation_response (reply : Reply) (listing_id : string)
  : EvaluationReport :=
  match reply with
  | Raises => error_evaluation listing_id
  | NoJson =>
      default (error_evaluation listing_id)
        (build_report _create_default_evaluation listing_id)
  | Json eval_data =>
      default (error_evaluation listing_id)
        (build_report eval_data listing_id)
  end.

End EvaluationAgent.

(** * Verification *)

(** ** Deduplication: facts about the loop *)

Section Dedup.
Import ScraperOrchestrator.

(** The deduplication key of a listing. *)
Definition addr_key (l : Listing) : string := _normalize_address (address l).

Lemma dedup_seen_spec (ls : list Listing) (st : gset string * list Listing) :
  (foldl dedup_step st ls).1 = st.1 ∪ list_to_set (addr_key <$> ls).
Proof.
  revert st. induction ls as [|l ls IH]; intros st; simpl.
  - set_solver.
  - rewrite IH. unfold dedup_step. fold (addr_key l).
    destruct (decide (addr_key l ∉ st.1)) as [Hn|Hn]; simpl.
    + set_solver.
    + apply dec_stable in Hn. set_solver.
Qed.

Lemma dedup_snoc (pre : list Listing) (l : Listing) :
  _deduplicate_listings (pre ++ [l]) =
    if decide (addr_key l ∈ addr_key <$> pre)
    then _deduplicate_listings pre
    else _deduplicate_listings pre ++ [l].
Proof.
  unfold _deduplicate_listings. rewrite foldl_app. simpl.
  unfold dedup_step at 1. fold (addr_key l).
  rewrite dedup_seen_spec. simpl.
  destruct (decide (addr_key l ∉ ∅ ∪ list_to_set (addr_key <$> pre))) as [Hn|Hn];
    destruct (decide (addr_key l ∈ addr_key <$> pre)) as [Hi|Hi];
    try reflexivity.
  - exfalso. apply Hn. set_solver.
  - exfalso. apply Hn. set_solver.
Qed.

Lemma dedup_nil : _deduplicate_listings [] = [].
Proof. reflexivity. Qed.

Lemma dedup_sublist (ls : list Listing) :
  _deduplicate_listings ls `sublist_of` ls.
Proof.
  induction ls as [|l pre IH] using rev_ind; [done|].
  rewrite dedup_snoc. case_decide.
  - by apply sublist_inserts_r.
  - by apply sublist_app.
Qed.

Lemma dedup_keys (ls : list Listing) (k : string) :
  k ∈ addr_key <$> _deduplicate_listings ls ↔ k ∈ addr_key <$> ls.
Proof.
  induction ls as [|l pre IH] using rev_ind; [done|].
  rewrite dedup_snoc. case_decide as Hk.
  - rewrite IH, fmap_app, elem_of_app. simpl. set_solver.
  - rewrite !fmap_app, !elem_of_app, IH. done.
Qed.

Lemma dedup_NoDup_keys (ls : list Listing) :
  NoDup (addr_key <$> _deduplicate_listings ls).
Proof.
  induction ls as [|l pre IH] using rev_ind; [constructor|].
  rewrite dedup_snoc. case_decide as Hk; [done|].
  rewrite fmap_app. apply NoDup_app. split; [done|]. split.
  - intros k Hin Hk'. apply Hk. simpl in Hk'.
    apply list_elem_of_singleton in Hk'. subst k. by apply dedup_keys.
  - simpl. apply NoDup_singleton.
Qed.

Lemma dedup_fixed (ls : list Listing) :
  NoDup (addr_key <$> ls) → _deduplicate_listings ls = ls.
Proof.
  induction ls as [|l pre IH] using rev_ind; [done|].
  rewrite fmap_app. intros [Hpre [Hdisj _]]%NoDup_app.
  rewrite dedup_snoc. case_decide as Hk.
  - exfalso. apply (Hdisj _ Hk). simpl. set_solver.
  - by rewrite IH.
Qed.

(** Stated for any key function: the listings of the output with key [k]
    are the first listing of the input with key [k], if there is one. *)
Definition keeps_first_by (key : Listing → string) (ls : list Listing) : Prop :=
  ∀ k : string,
    filter (λ x, key x = k) (_deduplicate_listings ls)
    = take 1 (filter (λ x, key x = k) ls).

Lemma dedup_keeps_first (ls : list Listing) : keeps_first_by addr_key ls.
Proof.
  intros k. induction ls as [|l pre IH] using rev_ind; [done|].
  rewrite dedup_snoc, filter_app.
  destruct (decide (addr_key l = k)) as [Hlk|Hlk].
  - rewrite (filter_cons_True _ l) by done. rewrite filter_nil.
    case_decide as Hin.
    + rewrite IH.
      apply list_elem_of_fmap in Hin as (x & Hx & Hxin).
      assert (Hne : x ∈ filter (λ x, addr_key x = k) pre).
      { apply list_elem_of_filter. split; [congruence|done]. }
      destruct (filter (λ x, addr_key x = k) pre); [by inversion Hne|done].
    + rewrite filter_app, IH, (filter_cons_True _ l), filter_nil by done.
      assert (Hnil : filter (λ x, addr_key x = k) pre = []).
      { destruct (filter (λ x, addr_key x = k) pre) as [|x ?] eqn:Hf; [done|].
        exfalso. apply Hin.
        assert (Hx : x ∈ filter (λ x, addr_key x = k) pre) by (rewrite Hf; left).
        apply list_elem_of_filter in Hx as [Hxk Hxin].
        apply list_elem_of_fmap. exists x. split; [congruence|done]. }
      by rewrite Hnil.
  - rewrite (filter_cons_False _ l), filter_nil, app_nil_r by done.
    case_decide; [done|].
    by rewrite filter_app, (filter_cons_False _ l), filter_nil, app_nil_r.
Qed.

End Dedup.

(** ** Facts about the string primitives *)

Section PyStrFacts.
Import PyStr.
Variable P : ascii → Prop.

Lemma lstrip_Forall (s : list ascii) : Forall P s → Forall P (lstrip s).
Proof.
  induction 1 as [|c s Hc Hs IH]; simpl; [constructor|].
  destruct (isspace c); [exact IH | by constructor].
Qed.

Lemma strip_Forall (s : list ascii) : Forall P s → Forall P (strip s).
Proof.
  intros Hs. unfold strip, rstrip.
  apply Forall_rev, lstrip_Forall, Forall_rev, lstrip_Forall, Hs.
Qed.

Lemma replace_go_Forall (old new : list ascii) (k : nat) (s : list ascii) :
  Forall P new → Forall P s → Forall P (replace_go old new k s).
Proof.
  intros Hnew Hs. revert k.
  induction Hs as [|c s Hc Hs IH]; intros k; [constructor|].
  cbn [replace_go]. destruct k as [|k]; [|apply IH].
  destruct (startswith old (c :: s)).
  - apply Forall_app. split; [exact Hnew | apply IH].
  - constructor; [exact Hc | apply IH].
Qed.

Lemma replace_Forall (old new s : list ascii) :
  Forall P new → Forall P s → Forall P (replace old new s).
Proof. apply replace_go_Forall. Qed.

Lemma split_go_Forall (cur s : list ascii) :
  Forall P cur → Forall P s → Forall (Forall P) (split_go cur s).
Proof.
  intros Hcur Hs. revert cur Hcur.
  induction Hs as [|c s Hc Hs IH]; intros cur Hcur; simpl.
  - destruct cur; [constructor|].
    constructor; [by apply Forall_rev | constructor].
  - destruct (isspace c).
    + destruct cur.
      * apply IH. constructor.
      * constructor; [by apply Forall_rev | apply IH; constructor].
    + apply IH. by constructor.
Qed.

Lemma join_Forall (sep : list ascii) (ws : list (list ascii)) :
  Forall P sep → Forall (Forall P) ws → Forall P (join sep ws).
Proof.
  intros Hsep. induction 1 as [|w ws Hw Hws IH]; [constructor|].
  cbn [join]. destruct ws as [|w' ws']; [exact Hw|].
  apply Forall_app. split; [exact Hw|].
  apply Forall_app. split; [exact Hsep | exact IH].
Qed.

End PyStrFacts.

Section PyStrShape.
Import PyStr.

Lemma lower_char_not_upper (c : ascii) : is_upper (lower_char c) = false.
Proof. destruct c as [[] [] [] [] [] [] [] []]; reflexivity. Qed.

Lemma lower_no_upper (s : list ascii) :
  Forall (λ c, is_upper c = false) (lower s).
Proof.
  unfold lower. induction s; simpl; constructor;
    [apply lower_char_not_upper | assumption].
Qed.

(** Replacing a one-character string by the empty string deletes every
    occurrence of that character. *)
Lemma replace_char_removes (c0 : ascii) (s : list ascii) :
  Forall (λ c, c ≠ c0) (replace [c0] [] s).
Proof.
  unfold replace. induction s as [|c s IH]; [constructor|].
  cbn [replace_go startswith length Nat.sub].
  destruct (Ascii.eqb c0 c) eqn:E; simpl.
  - exact IH.
  - constructor; [|exact IH].
    intros ->. by rewrite Ascii.eqb_refl in E.
Qed.

(** A word, as [str.split()] produces them: non-empty and free of white
    space. *)
Definition is_word (w : list ascii) : Prop :=
  w ≠ [] ∧ Forall (λ c, isspace c = false) w.

Lemma split_go_words (cur s : list ascii) :
  Forall (λ c, isspace c = false) cur → Forall is_word (split_go cur s).
Proof.
  revert cur. induction s as [|c s IH]; intros cur Hcur; simpl.
  - destruct cur as [|d cur]; [constructor|].
    constructor; [|constructor]. split; [|by apply Forall_rev].
    simpl. by destruct (rev cur).
  - destruct (isspace c) eqn:E.
    + destruct cur as [|d cur]; [apply IH; constructor|].
      constructor; [|apply IH; constructor].
      split; [|by apply Forall_rev].
      simpl. by destruct (rev cur).
    + apply IH. by constructor.
Qed.

Lemma split_words (s : list ascii) : Forall is_word (split s).
Proof. apply split_go_words. constructor. Qed.

End PyStrShape.

(** ** Claims about the Candidate Collector *)

Section CollectorClaims.
Import PyStr ScraperOrchestrator.

(** Shape of a normalised address: lower-case, free of periods and commas,
    and made of white-space-free words separated by single spaces. *)
Definition normal_form (n : list ascii) : Prop :=
  Forall (λ c, is_upper c = false) n
  ∧ Forall (λ c, c ≠ "."%char) n
  ∧ Forall (λ c, c ≠ ","%char) n
  ∧ ∃ ws, Forall is_word ws ∧ n = join (chars " ") ws.

Lemma normalize_chars_normal_form (a : list ascii) :
  normal_form (_normalize_chars a).
Proof.
  unfold _normalize_chars. repeat split.
  - apply join_Forall; [by repeat constructor|].
    apply split_go_Forall; [constructor|].
    repeat (apply replace_Forall; [by repeat constructor|]).
    apply strip_Forall, lower_no_upper.
  - apply join_Forall; [by repeat constructor|].
    apply split_go_Forall; [constructor|].
    apply replace_Forall; [constructor|].
    apply (replace_char_removes "."%char).
  - apply join_Forall; [by repeat constructor|].
    apply split_go_Forall; [constructor|].
    apply (replace_char_removes ","%char).
  - eexists. split; [apply split_words | reflexivity].
Qed.

Lemma chars_str (l : list ascii) : chars (str l) = l.
Proof. apply list_ascii_of_string_of_list_ascii. Qed.

Lemma normalize_address_normal_form (a : string) :
  normal_form (chars (_normalize_address a)).
Proof.
  unfold _normalize_address. rewrite chars_str.
  apply normalize_chars_normal_form.
Qed.

(** The listing [l] with its address replaced. *)
Definition with_address (a : string) (l : Listing) : Listing :=
  {| id := id l; source := source l; url := url l; address := a;
     city := city l; state := state l; zip_code := zip_code l;
     price := price l; bedrooms := bedrooms l; bathrooms := bathrooms l;
     sqft := sqft l; property_type := property_type l;
     description := description l; images := images l;
     listing_date := listing_date l; days_on_market := days_on_market l |}.

(** The normalisation as the specification words it: as the code, except
    that every ASCII punctuation character is stripped, not only the period
    and the comma. *)
Definition is_punct (c : ascii) : bool :=
  (in_range 33 47 c || in_range 58 64 c
   || in_range 91 96 c || in_range 123 126 c)%bool.

Definition normalize_address_spec (a : string) : string :=
  let normalized := strip (lower (chars a)) in
  let normalized := replace (chars "street") (chars "st") normalized in
  let normalized := replace (chars "avenue") (chars "ave") normalized in
  let normalized := replace (chars "boulevard") (chars "blvd") normalized in
  let normalized := replace (chars "drive") (chars "dr") normalized in
  let normalized := replace (chars "road") (chars "rd") normalized in
  let normalized := filter (λ c, is_punct c = false) normalized in
  str (join (chars " ") (split normalized)).

Definition unit_4_hash : Listing :=
  {| id := "zillow_1"; source := zillow; url := "https://zillow.example/1";
     address := "500 W 2nd St #4"; city := "Austin"; state := "TX";
     zip_code := "78701"; price := 450000; bedrooms := 2; bathrooms := 2;
     sqft := 1100; property_type := "condo"; description := "";
     images := []; listing_date := None; days_on_market := None |}.

Definition unit_4_plain : Listing :=
  with_address "500 W 2nd St 4" unit_4_hash.

End CollectorClaims.

Import PyStr ScraperOrchestrator.

(** C3 as stated fails.  With all punctuation stripped, "500 W 2nd St #4"
    and "500 W 2nd St 4" have the same normalised address and only the first
    would be kept; [_normalize_address] keeps the "#", so
    [_deduplicate_listings] keeps both listings. *)
Lemma C3_counterexample :
  normalize_address_spec (address unit_4_hash)
    = normalize_address_spec (address unit_4_plain)
  ∧ _deduplicate_listings [unit_4_hash; unit_4_plain]
    = [unit_4_hash; unit_4_plain]
  ∧ ¬ keeps_first_by (λ l, normalize_address_spec (address l))
        [unit_4_hash; unit_4_plain].
Proof.
  assert (Hd : _deduplicate_listings [unit_4_hash; unit_4_plain]
               = [unit_4_hash; unit_4_plain]).
  { rewrite <- (dedup_fixed [unit_4_hash; unit_4_plain]) at 2; [done|].
    cbn [fmap list_fmap]. unfold addr_key.
    replace (_normalize_address (address unit_4_hash)) with "500 w 2nd st #4"
      by (vm_compute; reflexivity).
    replace (_normalize_address (address unit_4_plain)) with "500 w 2nd st 4"
      by (vm_compute; reflexivity).
    apply NoDup_cons. split; [|apply NoDup_singleton].
    intros Hin%list_elem_of_singleton. discriminate Hin. }
  split; [vm_compute; reflexivity|]. split; [exact Hd|].
  intros Hk. specialize (Hk "500 w 2nd st 4"). rewrite Hd in Hk.
  assert (E1 : normalize_address_spec (address unit_4_hash) = "500 w 2nd st 4")
    by (vm_compute; reflexivity).
  assert (E2 : normalize_address_spec (address unit_4_plain) = "500 w 2nd st 4")
    by (vm_compute; reflexivity).
  rewrite (filter_cons_True _ unit_4_hash) in Hk by exact E1.
  rewrite (filter_cons_True _ unit_4_plain) in Hk by exact E2.
  rewrite filter_nil in Hk. discriminate Hk.
Qed.

(** C3 (amended).  [_normalize_address] lower-cases, trims and collapses
    white space, deletes periods and commas (no other punctuation) and
    rewrites street, avenue, boulevard, drive and road to st, ave, blvd, dr
    and rd.  For every input list, the output of [_deduplicate_listings] is
    a sublist of the input in which, for every normalised address, exactly the
    first input listing with that normalised address survives; in
    particular "123 Main St" followed by "123 Main Street" yields the first
    listing alone. *)
Theorem C3_dedup_keeps_first_per_normalized_address :
  (∀ a : string, normal_form (chars (_normalize_address a)))
  ∧ _normalize_address "  10 Downing   Street " = "10 downing st"
  ∧ _normalize_address "5th Avenue" = "5th ave"
  ∧ _normalize_address "9 Sunset Boulevard" = "9 sunset blvd"
  ∧ _normalize_address "77 Ocean Drive" = "77 ocean dr"
  ∧ _normalize_address "3 Abbey Road" = "3 abbey rd"
  ∧ _normalize_address "500 W. 2nd St., #4-B" = "500 w 2nd st #4-b"
  ∧ (∀ ls : list Listing,
       _deduplicate_listings ls `sublist_of` ls
       ∧ NoDup (addr_key <$> _deduplicate_listings ls)
       ∧ keeps_first_by addr_key ls)
  ∧ (∀ l1 l2 : Listing,
       _deduplicate_listings
         [with_address "123 Main St" l1; with_address "123 Main Street" l2]
       = [with_address "123 Main St" l1]).
Proof.
  split; [exact normalize_address_normal_form|].
  do 6 (split; [vm_compute; reflexivity|]).
  split.
  - intros ls. split; [apply dedup_sublist|].
    split; [apply dedup_NoDup_keys | apply dedup_keeps_first].
  - intros l1 l2.
    change [with_address "123 Main St" l1; with_address "123 Main Street" l2]
      with ([with_address "123 Main St" l1] ++ [with_address "123 Main Street" l2]).
    rewrite dedup_snoc.
    assert (E : addr_key (with_address "123 Main Street" l2)
                = addr_key (with_address "123 Main St" l1))
      by (vm_compute; reflexivity).
    rewrite decide_True; [reflexivity|].
    rewrite E. cbn [fmap list_fmap]. apply list_elem_of_singleton. reflexivity.
Qed.

(** C10.  Deduplication is idempotent: run on a list it has produced, it
    returns that list unchanged; the same holds for the whole merge step when
    the list comes back from a scraper. *)
Theorem C10_dedup_idempotent :
  (∀ ls : list Listing,
     _deduplicate_listings (_deduplicate_listings ls) = _deduplicate_listings ls)
  ∧ (∀ results : list ScraperResult,
       search_all_platforms [Returned (search_all_platforms results)]
       = search_all_platforms results).
Proof.
  split.
  - intros ls. apply dedup_fixed, dedup_NoDup_keys.
  - intros results. unfold search_all_platforms. simpl.
    apply dedup_fixed, dedup_NoDup_keys.
Qed.

(** ** The trace of a run: what is written, in which order *)

Section TraceFacts.
Import Search.
Context {A : Type}.
Variable proj : SearchSession → A.
Variable written : Write → option A.
Variable Rel : relation A.
Hypothesis proj_write :
  ∀ w s, proj (apply_write w s) = default (proj s) (written w).
Hypothesis Rel_refl : ∀ a, Rel a a.

Lemma run_writes_proj_in (ws : list Write) (s x : SearchSession) :
  x ∈ run_writes s ws → proj x ∈ proj s :: omap written ws.
Proof.
  revert s. induction ws as [|w ws IH]; intros s; simpl.
  - intros ->%list_elem_of_singleton. left.
  - intros [->|Hx]%elem_of_cons; [left|].
    apply IH in Hx. rewrite proj_write in Hx.
    destruct (written w) as [v|]; simpl in Hx; [by right|].
    exact Hx.
Qed.

Lemma run_writes_sorted (ws : list Write) (s : SearchSession) :
  StronglySorted Rel (proj s :: omap written ws) →
  StronglySorted (λ a b, Rel (proj a) (proj b)) (run_writes s ws).
Proof.
  revert s. induction ws as [|w ws IH]; intros s Hs; simpl.
  - repeat constructor.
  - apply StronglySorted_cons in Hs as [Hall Hrest].
    assert (Hnext : StronglySorted Rel
                      (proj (apply_write w s) :: omap written ws)).
    { rewrite proj_write. simpl in *.
      destruct (written w) as [v|]; simpl; [exact Hrest|].
      by constructor. }
    constructor; [by apply IH|].
    apply Forall_forall. intros x Hx.
    apply run_writes_proj_in in Hx. rewrite proj_write in Hx.
    rewrite Forall_forall in Hall. simpl in *.
    destruct (written w) as [v|]; simpl in Hx.
    + by apply Hall.
    + apply elem_of_cons in Hx as [->|Hx]; [apply Rel_refl | by apply Hall].
Qed.

Lemma omap_take_prefix (k : nat) (ws : list Write) :
  ∃ m, omap written (take k ws) = take m (omap written ws).
Proof.
  revert k. induction ws as [|w ws IH]; intros k.
  - exists 0%nat. by destruct k.
  - destruct k as [|k]; [by exists 0%nat|].
    destruct (IH k) as [m Hm]. cbn [take omap list_omap].
    fold (omap written (take k ws)). fold (omap written ws).
    destruct (written w) as [v|].
    + exists (S m). cbn [take]. by rewrite Hm.
    + by exists m.
Qed.

End TraceFacts.

Section PipelineFacts.
Import ScraperOrchestrator Search.
Local Open Scope R_scope.
Local Arguments INR : simpl never.

Definition written_progress (w : Write) : option R :=
  match w with SetProgress p => Some p | _ => None end.

Definition written_status (w : Write) : option Status :=
  match w with SetStatus s => Some s | _ => None end.

Lemma progress_write (w : Write) (s : SearchSession) :
  progress (apply_write w s) = default (progress s) (written_progress w).
Proof. by destruct w. Qed.

Lemma status_write (w : Write) (s : SearchSession) :
  status (apply_write w s) = default (status s) (written_status w).
Proof. by destruct w. Qed.

(** Position of a status in the forward order of the pipeline. *)
Definition status_rank (s : Status) : nat :=
  match s with
  | pending => 0
  | scraping => 1
  | evaluating => 2
  | complete => 3
  | error => 4
  end.

(** A later status is either error, or not before the earlier one, which
    then is not error. *)
Definition status_forward (a b : Status) : Prop :=
  b = error ∨ (a ≠ error ∧ (status_rank a ≤ status_rank b)%nat).

Lemma status_forward_refl (a : Status) : status_forward a a.
Proof. destruct a; [right; split; [discriminate|lia]..|by left]. Qed.

Lemma frac_le (span : R) (a b n : nat) :
  (a ≤ b)%nat → (0 < n)%nat → 0 <= span →
  span * INR a / INR n <= span * INR b / INR n.
Proof.
  intros Hab Hn Hspan. unfold Rdiv.
  apply Rmult_le_compat_r.
  - left. apply Rinv_0_lt_compat. by apply lt_0_INR.
  - apply Rmult_le_compat_l; [exact Hspan|]. by apply le_INR.
Qed.

Lemma frac_full (span : R) (n : nat) :
  (0 < n)%nat → span * INR n / INR n = span.
Proof.
  intros Hn. field. apply not_0_INR. lia.
Qed.

Lemma frac_nonneg (span : R) (a n : nat) :
  (0 < n)%nat → 0 <= span → 0 <= span * INR a / INR n.
Proof.
  intros Hn Hspan.
  replace 0 with (span * INR 0 / INR n) at 1
    by (change (INR 0) with 0; unfold Rdiv; ring).
  apply frac_le; [lia|done..].
Qed.

(** The progress values a stage writes increase with the index and stay
    between the stage's base and its base plus span. *)
Lemma stage_loop_progress {X Y} (call : nat → X → option Y)
    (base span : R) (n i : nat) (xs : list X) :
  0 <= span → (i + length xs ≤ n)%nat →
  let pv := omap written_progress (stage_loop call base span n i xs).2 in
  StronglySorted Rle pv
  ∧ Forall (λ v, base + span * INR (i + 1) / INR n <= v <= base + span) pv.
Proof.
  intros Hspan. revert i.
  induction xs as [|x xs IH]; intros i Hlen; simpl.
  - split; constructor.
  - simpl in Hlen.
    destruct (IH (S i)) as [Hsorted Hbounds]; [lia|].
    assert (Hmono : span * INR (i + 1) / INR n
                    <= span * INR (S i + 1) / INR n)
      by (apply frac_le; [lia|lia|done]).
    assert (Htop : span * INR (i + 1) / INR n <= span).
    { rewrite <- (frac_full span n) at 2 by lia.
      apply frac_le; [lia|lia|done]. }
    revert Hsorted Hbounds Hmono Htop.
    generalize (span * INR (i + 1) / INR n).
    generalize (span * INR (S i + 1) / INR n).
    intros hi lo Hsorted Hbounds Hmono Htop.
    assert (Hweak : Forall (λ v, base + lo <= v <= base + span)
              (omap written_progress
                 (stage_loop call base span n (S i) xs).2)).
    { eapply Forall_impl; [exact Hbounds|]. cbn beta. intros v [Hv1 Hv2]. lra. }
    destruct (call i x) as [y|]; simpl.
    + split.
      * constructor; [exact Hsorted|].
        eapply Forall_impl; [exact Hweak|]. cbn beta. intros v [Hv _]. lra.
      * constructor; [lra | exact Hweak].
    + split; [exact Hsorted | exact Hweak].
Qed.

Lemma stage_loop_range {X Y} (call : nat → X → option Y)
    (base span : R) (xs : list X) :
  0 <= span →
  let pv := omap written_progress
              (stage_loop call base span (length xs) 0 xs).2 in
  StronglySorted Rle pv ∧ Forall (λ v, base <= v <= base + span) pv.
Proof.
  intros Hspan pv.
  destruct (stage_loop_progress call base span (length xs) 0 xs Hspan)
    as [Hs Hb]; [lia|].
  split; [exact Hs|]. fold pv in Hb.
  destruct xs as [|x xs]; [constructor|]. clearbody pv.
  pose proof (frac_nonneg span (0 + 1) (length (x :: xs))) as Hf.
  cbn [length] in *. specialize (Hf ltac:(lia) Hspan).
  revert Hb Hf. generalize (span * INR (0 + 1) / INR (S (length xs))).
  intros lo Hb Hf.
  eapply Forall_impl; [exact Hb|]. cbn beta. intros v [Hv1 Hv2]. lra.
Qed.

(** A stage writes nothing but progress. *)
Lemma stage_loop_no_status {X Y} (call : nat → X → option Y)
    (base span : R) (n i : nat) (xs : list X) :
  omap written_status (stage_loop call base span n i xs).2 = [].
Proof.
  revert i. induction xs as [|x xs IH]; intros i; simpl; [done|].
  destruct (call i x); simpl; apply IH.
Qed.

End PipelineFacts.

Section ProgressOrder.
Import ScraperOrchestrator Search.
Local Open Scope R_scope.

(** A sorted list of values between two bounds. *)
Definition between (lo hi : R) (l : list R) : Prop :=
  StronglySorted Rle l ∧ Forall (λ v, lo <= v <= hi) l.

Lemma between_app (a b c : R) (l1 l2 : list R) :
  between a b l1 → between b c l2 → a <= b → b <= c →
  between a c (l1 ++ l2).
Proof.
  intros [Hs1 Hb1] [Hs2 Hb2] Hab Hbc. split.
  - apply StronglySorted_app_2; [|done..].
    intros x1 x2 Hx1 Hx2.
    rewrite Forall_forall in Hb1, Hb2.
    specialize (Hb1 _ Hx1). specialize (Hb2 _ Hx2). cbn beta in *. lra.
  - apply Forall_app. split.
    + eapply Forall_impl; [exact Hb1|]. cbn beta. intros; lra.
    + eapply Forall_impl; [exact Hb2|]. cbn beta. intros; lra.
Qed.

Lemma between_single (a b v : R) : a <= v <= b → between a b [v].
Proof.
  intros Hv. split.
  - apply SSorted_cons; [apply SSorted_nil | apply Forall_nil_2].
  - apply Forall_cons_2; [exact Hv | apply Forall_nil_2].
Qed.

Lemma between_take (a b : R) (m : nat) (l : list R) :
  between a b l → between a b (take m l).
Proof.
  intros [Hs Hb]. split; [|by apply Forall_take].
  rewrite <- (take_drop m l) in Hs. by apply StronglySorted_app_1_l in Hs.
Qed.

Lemma pipeline_progress_between (chat_sessions : gmap string ChatSession)
    (c : Collaborators) (chat_id : string) :
  between 0 100
    (0 :: omap written_progress (pipeline_writes chat_sessions c chat_id)).
Proof.
  unfold pipeline_writes.
  destruct (chat_sessions !! chat_id) as [cs|];
    [|apply between_single; lra].
  destruct (preferences cs) as [prefs|]; [|apply between_single; lra].
  cbn zeta. rewrite !omap_app. cbn [omap list_omap written_progress app].
  set (st := stages c prefs).
  pose proof (stage_loop_range (evaluate_call c prefs) 50 20
                (st_listings st) ltac:(lra)) as HE.
  pose proof (stage_loop_range (argue_call c prefs) 70 15
                (st_evaluated st).1 ltac:(lra)) as HA.
  pose proof (stage_loop_range (compile_call c prefs) 85 10
                (st_argued st).1 ltac:(lra)) as HF.
  cbn zeta in HE, HA, HF.
  change (stage_loop (evaluate_call c prefs) 50 20 (length (st_listings st)) 0
            (st_listings st)) with (st_evaluated st) in HE.
  change (stage_loop (argue_call c prefs) 70 15 (length (st_evaluated st).1) 0
            (st_evaluated st).1) with (st_argued st) in HA.
  change (stage_loop (compile_call c prefs) 85 10 (length (st_argued st).1) 0
            (st_argued st).1) with (st_final st) in HF.
  replace (50 + 20) with 70 in HE by lra.
  replace (70 + 15) with 85 in HA by lra.
  replace (85 + 10) with 95 in HF by lra.
  apply (between_app 0 0 100 [0]); [apply between_single; lra| |lra|lra].
  apply (between_app 0 20 100 [20]); [apply between_single; lra| |lra|lra].
  apply (between_app 20 50 100 [50]); [apply between_single; lra| |lra|lra].
  apply (between_app 50 70 100); [exact HE| |lra|lra].
  apply (between_app 70 70 100 [70]); [apply between_single; lra| |lra|lra].
  apply (between_app 70 85 100); [exact HA| |lra|lra].
  apply (between_app 85 85 100 [85]); [apply between_single; lra| |lra|lra].
  apply (between_app 85 95 100); [exact HF| |lra|lra].
  apply between_single; lra.
Qed.

Lemma pipeline_status_forward (chat_sessions : gmap string ChatSession)
    (c : Collaborators) (chat_id : string) :
  StronglySorted status_forward
    (pending :: omap written_status (pipeline_writes chat_sessions c chat_id)).
Proof.
  assert (Herr : StronglySorted status_forward [pending; error]).
  { repeat apply SSorted_cons; try apply SSorted_nil;
      repeat (apply Forall_cons_2 || apply Forall_nil_2). by left. }
  unfold pipeline_writes.
  destruct (chat_sessions !! chat_id) as [cs|]; [|exact Herr].
  destruct (preferences cs) as [prefs|]; [|exact Herr].
  cbn zeta. rewrite !omap_app.
  unfold stages; cbn [st_evaluated st_argued st_final st_listings].
  rewrite !stage_loop_no_status.
  cbn [omap list_omap written_status app].
  repeat apply SSorted_cons; try apply SSorted_nil;
    repeat (apply Forall_cons_2 || apply Forall_nil_2);
    right; (split; [discriminate | simpl; lia]).
Qed.

End ProgressOrder.

Section RunOrder.
Import ScraperOrchestrator Search.
Local Open Scope R_scope.

Lemma run_progress_between (chat_sessions : gmap string ChatSession)
    (c : Collaborators) (chat_id : string) (escaped : option (nat * string)) :
  between 0 100
    (0 :: omap written_progress
            (run_search_pipeline chat_sessions c chat_id escaped)).
Proof.
  pose proof (pipeline_progress_between chat_sessions c chat_id) as Hb.
  unfold run_search_pipeline.
  destruct escaped as [[k msg]|]; [|exact Hb].
  case_decide; [|exact Hb].
  rewrite omap_app. cbn [omap list_omap written_progress]. rewrite app_nil_r.
  destruct (omap_take_prefix written_progress k
              (pipeline_writes chat_sessions c chat_id)) as [m ->].
  by apply (between_take 0 100 (S m)) in Hb.
Qed.

Lemma run_status_forward (chat_sessions : gmap string ChatSession)
    (c : Collaborators) (chat_id : string) (escaped : option (nat * string)) :
  StronglySorted status_forward
    (pending :: omap written_status
                  (run_search_pipeline chat_sessions c chat_id escaped)).
Proof.
  pose proof (pipeline_status_forward chat_sessions c chat_id) as Hs.
  unfold run_search_pipeline.
  destruct escaped as [[k msg]|]; [|exact Hs].
  case_decide; [|exact Hs].
  rewrite omap_app. cbn [omap list_omap written_status].
  destruct (omap_take_prefix written_status k
              (pipeline_writes chat_sessions c chat_id)) as [m ->].
  rewrite app_comm_cons. apply StronglySorted_app_2.
  - intros x1 x2 _ ->%list_elem_of_singleton. by left.
  - rewrite <- (take_drop (S m)) in Hs. by apply StronglySorted_app_1_l in Hs.
  - apply SSorted_cons; [apply SSorted_nil | apply Forall_nil_2].
Qed.

End RunOrder.

Import Search.

(** C5.  Along the states a session goes through in one pipeline run,
    whatever the collaborators do and wherever an exception escapes, every
    progress value lies in [0,100], progress never decreases, and the status
    only moves forward through pending, scraping, evaluating, complete, or
    jumps to error, from which it never comes back. *)
Theorem C5_progress_and_status_monotone
    (chat_sessions : gmap string ChatSession) (c : Collaborators)
    (chat_id : string) (escaped : option (nat * string)) :
  let tr := session_trace chat_sessions c chat_id escaped in
  Forall (λ s, (0 <= progress s <= 100)%R) tr
  ∧ StronglySorted (λ a b, (progress a <= progress b)%R) tr
  ∧ StronglySorted (λ a b, status_forward (status a) (status b)) tr.
Proof.
  intros tr. subst tr. unfold session_trace.
  pose proof (run_progress_between chat_sessions c chat_id escaped) as [Hs Hb].
  pose proof (run_status_forward chat_sessions c chat_id escaped) as Hst.
  split; [|split].
  - apply Forall_forall. intros s Hin.
    apply (run_writes_proj_in progress written_progress progress_write) in Hin.
    rewrite Forall_forall in Hb. by apply Hb.
  - apply (run_writes_sorted progress written_progress Rle progress_write);
      [intros; apply Rle_refl | exact Hs].
  - apply (run_writes_sorted status written_status status_forward status_write);
      [apply status_forward_refl | exact Hst].
Qed.

(** ** What the session holds while a run is in progress, and at its end *)

Section RunShape.
Import ScraperOrchestrator Search.

Lemma run_writes_app (s x : SearchSession) (ws1 ws2 : list Write) :
  x ∈ run_writes s (ws1 ++ ws2) ↔
  x ∈ run_writes s ws1 ∨ x ∈ run_writes (final_state s ws1) ws2.
Proof.
  revert s. induction ws1 as [|w ws1 IH]; intros s; simpl.
  - split; [by right|]. intros [->%list_elem_of_singleton|H]; [|done].
    destruct ws2; left.
  - rewrite !elem_of_cons, IH. unfold final_state. simpl. tauto.
Qed.

Lemma run_writes_prefix (s : SearchSession) (ws1 ws2 : list Write) :
  final_state s ws1 ∈ run_writes s (ws1 ++ ws2).
Proof.
  apply run_writes_app. right. destruct ws2; left.
Qed.

Definition in_progress (st : Status) : bool :=
  match st with
  | pending | scraping | evaluating => true
  | complete | error => false
  end.

(** Writes that leave the stored collections alone. *)
Definition quiet (w : Write) : Prop :=
  match w with
  | SetStatus _ | SetMessage _ | SetProgress _ => True
  | _ => False
  end.

(** Writes that do not put the session back in progress. *)
Definition settled (w : Write) : Prop :=
  match w with
  | SetStatus st => in_progress st = false
  | _ => True
  end.

(** The end of a run: nothing, or a write of complete or error followed by
    writes that never set an earlier status. *)
Definition closing (ws : list Write) : Prop :=
  match ws with
  | [] => True
  | SetStatus st :: rest => in_progress st = false ∧ Forall settled rest
  | _ => False
  end.

Lemma quiet_keeps_collections (s x : SearchSession) (ws : list Write) :
  Forall quiet ws → x ∈ run_writes s ws →
  listings x = listings s ∧ evaluated_listings x = evaluated_listings s.
Proof.
  intros Hq. revert s. induction Hq as [|w ws Hw Hq IH]; intros s; simpl.
  - by intros ->%list_elem_of_singleton.
  - intros [->|Hx]%elem_of_cons; [done|].
    apply IH in Hx as [-> ->]. by destruct w.
Qed.

Lemma quiet_final_collections (s : SearchSession) (ws : list Write) :
  Forall quiet ws →
  listings (final_state s ws) = listings s
  ∧ evaluated_listings (final_state s ws) = evaluated_listings s.
Proof.
  intros Hq. revert s. unfold final_state.
  induction Hq as [|w ws Hw Hq IH]; intros s; simpl; [done|].
  destruct (IH (apply_write w s)) as [-> ->]. by destruct w.
Qed.

Lemma settled_stays (s x : SearchSession) (ws : list Write) :
  Forall settled ws → in_progress (status s) = false →
  x ∈ run_writes s ws → in_progress (status x) = false.
Proof.
  intros Hq. revert s. induction Hq as [|w ws Hw Hq IH]; intros s Hs; simpl.
  - by intros ->%list_elem_of_singleton.
  - intros [->|Hx]%elem_of_cons; [done|].
    apply (IH (apply_write w s)); [|done]. by destruct w.
Qed.

(** While the status is pending, scraping or evaluating, the stored
    collections are those the session started with. *)
Lemma in_progress_collections (s x : SearchSession) (ws1 ws2 : list Write) :
  Forall quiet ws1 → closing ws2 →
  x ∈ run_writes s (ws1 ++ ws2) → in_progress (status x) = true →
  listings x = listings s ∧ evaluated_listings x = evaluated_listings s.
Proof.
  intros Hq Hc [Hx|Hx]%run_writes_app Hp.
  - by apply (quiet_keeps_collections s x ws1).
  - destruct (quiet_final_collections s ws1 Hq) as [Hl He].
    destruct ws2 as [|w rest]; simpl in Hx.
    + apply list_elem_of_singleton in Hx as ->. done.
    + apply elem_of_cons in Hx as [->|Hx]; [done|].
      destruct w; try done. destruct Hc as [Hst Hrest].
      apply (settled_stays _ x rest Hrest) in Hx; [congruence|done].
Qed.

Lemma stage_loop_quiet {X Y} (call : nat → X → option Y)
    (base span : R) (n i : nat) (xs : list X) :
  Forall quiet (stage_loop call base span n i xs).2.
Proof.
  revert i. induction xs as [|x xs IH]; intros i; simpl; [constructor|].
  destruct (call i x); simpl; [constructor; [exact I|]|]; apply IH.
Qed.

Lemma closing_take_error (k : nat) (msg : string) (ws : list Write) :
  closing ws → Forall settled ws →
  closing (take k ws ++ [SetStatus error; SetMessage msg]).
Proof.
  intros Hc Hs. destruct k as [|k]; [by repeat constructor|].
  destruct ws as [|w rest]; [by repeat constructor|].
  destruct w; try done. destruct Hc as [Hst Hrest]. simpl. split; [done|].
  apply Forall_app. split; [by apply Forall_take | by repeat constructor].
Qed.

(** Every run is a sequence of quiet writes followed by a closing one. *)
Lemma run_shape (chat_sessions : gmap string ChatSession) (c : Collaborators)
    (chat_id : string) (escaped : option (nat * string)) :
  ∃ ws1 ws2,
    run_search_pipeline chat_sessions c chat_id escaped = ws1 ++ ws2
    ∧ Forall quiet ws1 ∧ closing ws2.
Proof.
  assert (Hnormal : ∃ ws1 ws2,
            pipeline_writes chat_sessions c chat_id = ws1 ++ ws2
            ∧ Forall quiet ws1 ∧ closing ws2 ∧ Forall settled ws2).
  { unfold pipeline_writes.
    destruct (chat_sessions !! chat_id) as [cs|];
      [|exists []; eexists; split; [reflexivity|]; by repeat constructor].
    destruct (preferences cs) as [prefs|];
      [|exists []; eexists; split; [reflexivity|]; by repeat constructor].
    cbn zeta. rewrite !app_assoc.
    eexists _, _. split; [reflexivity|]. split; [|by repeat constructor].
    repeat (apply Forall_app; split); try apply stage_loop_quiet;
      by repeat constructor. }
  destruct Hnormal as (ws1 & ws2 & Heq & Hq & Hc & Hs).
  unfold run_search_pipeline.
  destruct escaped as [[k msg]|]; [|by exists ws1, ws2].
  case_decide; [|by exists ws1, ws2].
  rewrite Heq, take_app, <- app_assoc.
  exists (take k ws1), (take (k - length ws1) ws2 ++ [SetStatus error; SetMessage msg]).
  split; [done|]. split; [by apply Forall_take | by apply closing_take_error].
Qed.

End RunShape.

(** ** The stable descending sort *)

Section SortedDesc.
Import Search.
Context {A : Type}.
Variable key : A → R.

Lemma insert_desc_perm (x : A) (l : list A) : insert_desc key x l ≡ₚ x :: l.
Proof.
  induction l as [|y l IH]; simpl; [done|].
  destruct (Rlt_dec (key x) (key y)); [|done].
  rewrite IH. apply perm_swap.
Qed.

Lemma sorted_desc_perm (l : list A) : sorted_desc key l ≡ₚ l.
Proof.
  induction l as [|x l IH]; simpl; [done|].
  rewrite insert_desc_perm. by rewrite IH.
Qed.

Lemma sorted_desc_length (l : list A) : length (sorted_desc key l) = length l.
Proof. by rewrite sorted_desc_perm. Qed.

(** Descending order of the keys. *)
Definition key_ge (a b : A) : Prop := (key b <= key a)%R.

Lemma insert_desc_sorted (x : A) (l : list A) :
  StronglySorted key_ge l → StronglySorted key_ge (insert_desc key x l).
Proof.
  induction 1 as [|y l Hl IH Hy]; simpl.
  - apply SSorted_cons; [apply SSorted_nil | apply Forall_nil_2].
  - destruct (Rlt_dec (key x) (key y)) as [Hlt|Hge].
    + apply SSorted_cons; [exact IH|].
      rewrite insert_desc_perm. apply Forall_cons_2; [|exact Hy].
      unfold key_ge. lra.
    + apply SSorted_cons; [by apply SSorted_cons|].
      apply Forall_cons_2; [unfold key_ge; lra|].
      eapply Forall_impl; [exact Hy|]. unfold key_ge. intros z Hz. lra.
Qed.

Lemma sorted_desc_sorted (l : list A) :
  StronglySorted key_ge (sorted_desc key l).
Proof.
  induction l as [|x l IH]; simpl; [apply SSorted_nil|].
  by apply insert_desc_sorted.
Qed.

(** Stability: elements with equal keys keep their relative order. *)
Lemma insert_desc_stable (v : R) (x : A) (l : list A) :
  filter (λ a, key a = v) (insert_desc key x l)
  = filter (λ a, key a = v) (x :: l).
Proof.
  induction l as [|y l IH]; simpl; [done|].
  destruct (Rlt_dec (key x) (key y)) as [Hlt|Hge]; [|done].
  rewrite (filter_cons _ y), IH, !(filter_cons _ x), (filter_cons _ y).
  destruct (decide (key x = v)) as [Hx|Hx]; [|done].
  destruct (decide (key y = v)) as [Hy|Hy]; [|done].
  exfalso. lra.
Qed.

Lemma sorted_desc_stable (v : R) (l : list A) :
  filter (λ a, key a = v) (sorted_desc key l) = filter (λ a, key a = v) l.
Proof.
  induction l as [|x l IH]; simpl; [done|].
  by rewrite insert_desc_stable, !filter_cons, IH.
Qed.

End SortedDesc.

(** ** Counting what a stage keeps *)

Section StageCount.
Import Search.
Context {X Y : Type}.
Variable call : nat → X → option Y.
Variables base span : R.
Variable n : nat.

Lemma stage_loop_length_le (i : nat) (xs : list X) :
  (length (stage_loop call base span n i xs).1 <= length xs)%nat.
Proof.
  revert i. induction xs as [|x xs IH]; intros i; simpl; [done|].
  specialize (IH (S i)). destruct (call i x); simpl; lia.
Qed.

Lemma stage_loop_all_fail (i : nat) (xs : list X) :
  (∀ j x, xs !! j = Some x → call (i + j) x = None) →
  (stage_loop call base span n i xs).1 = [].
Proof.
  revert i. induction xs as [|x xs IH]; intros i Hfail; simpl; [done|].
  rewrite <- (Nat.add_0_r i) at 1. rewrite (Hfail 0 x) by done.
  apply IH. intros j y Hj.
  replace (S i + j) with (i + S j) by lia. by apply Hfail.
Qed.

Lemma stage_loop_all_ok (i : nat) (xs : list X) :
  (∀ j x, xs !! j = Some x → is_Some (call (i + j) x)) →
  length (stage_loop call base span n i xs).1 = length xs.
Proof.
  revert i. induction xs as [|x xs IH]; intros i Hok; simpl; [done|].
  destruct (Hok 0 x eq_refl) as [y Hy]. rewrite Nat.add_0_r in Hy.
  rewrite Hy. simpl. f_equal. apply IH. intros j z Hj.
  replace (S i + j) with (i + S j) by lia. by apply Hok.
Qed.

Lemma stage_loop_one_fail (i k : nat) (xs : list X) :
  (k < length xs)%nat →
  (∀ j x, xs !! j = Some x → (call (i + j) x = None ↔ j = k)) →
  S (length (stage_loop call base span n i xs).1) = length xs.
Proof.
  revert i k. induction xs as [|x xs IH]; intros i k Hk Hone; simpl in *; [lia|].
  pose proof (Hone 0 x eq_refl) as H0. rewrite Nat.add_0_r in H0.
  destruct k as [|k].
  - rewrite (proj2 H0 eq_refl). f_equal. apply stage_loop_all_ok.
    intros j z Hj. replace (S i + j) with (i + S j) by lia.
    destruct (call (i + S j) z) eqn:E; [done|].
    by apply (Hone (S j) z Hj) in E.
  - destruct (call i x) as [y|] eqn:E;
      [|destruct H0 as [H0 _]; by specialize (H0 eq_refl)].
    simpl. f_equal. apply (IH (S i) k); [lia|].
    intros j z Hj. replace (S i + j) with (i + S j) by lia.
    rewrite (Hone (S j) z Hj). lia.
Qed.

End StageCount.

Section RunEnd.
Import ScraperOrchestrator Search.

Lemma last_run_writes (s : SearchSession) (ws : list Write) :
  last (run_writes s ws) = Some (final_state s ws).
Proof.
  revert s. induction ws as [|w ws IH]; intros s; [done|].
  cbn [run_writes]. rewrite last_cons, IH. done.
Qed.

(** The state a run ends in when the preferences are resolved and nothing
    escapes the per-listing handlers. *)
Lemma completed_final_state (chat_sessions : gmap string ChatSession)
    (c : Collaborators) (chat_id : string) (cs : ChatSession)
    (prefs : UserPreferences) :
  chat_sessions !! chat_id = Some cs → preferences cs = Some prefs →
  let st := stages c prefs in
  final_state (start_search chat_id)
    (run_search_pipeline chat_sessions c chat_id None)
  = {| status := complete; chat_session_id := chat_id;
       message := "Analysis complete"; progress := 100;
       listings := st_listings st;
       evaluated_listings := Some (st_evaluated st).1;
       argued_listings := Some (st_argued st).1;
       final_reports := Some (sorted_desc final_score (st_final st).1) |}.
Proof.
  intros Hcs Hprefs st. unfold run_search_pipeline, pipeline_writes.
  rewrite Hcs, Hprefs. cbn zeta. fold st.
  unfold final_state. rewrite !foldl_app.
  assert (Hquiet : ∀ ws s, Forall quiet ws →
            chat_session_id (foldl (λ st w, apply_write w st) s ws)
            = chat_session_id s).
  { intros ws. induction ws as [|w ws IH]; intros s Hq; [done|].
    apply Forall_cons in Hq as [Hw Hq]. simpl. rewrite IH by done.
    by destruct w. }
  cbn [foldl apply_write status chat_session_id message progress listings
       evaluated_listings argued_listings final_reports].
  f_equal.
  rewrite !Hquiet; [done|apply stage_loop_quiet..].
Qed.

End RunEnd.

(** ** Fixtures: one chat session with preferences, five distinct listings *)

Module Fixtures.
Import ScraperOrchestrator Search.

Definition prefs0 : UserPreferences :=
  {| price_min := Some 300000%Z; price_max := Some 600000%Z;
     bedrooms_min := Some 2%Z; bedrooms_max := None;
     bathrooms_min := None; bathrooms_max := None;
     sqft_min := None; sqft_max := None; location := Some "Austin";
     property_types := None; must_have_features := None;
     deal_breakers := None; lifestyle_priorities := None |}.

Definition chat0 : ChatSession :=
  {| session_id := "chat-1"; messages := [];
     preferences := Some prefs0; preferences_complete := true |}.

Definition chats0 : gmap string ChatSession := {[ "chat-1" := chat0 ]}.

Definition house (i a : string) : Listing :=
  {| id := i; source := zillow; url := ""; address := a; city := "Austin";
     state := "TX"; zip_code := "78701"; price := 450000; bedrooms := 3;
     bathrooms := 2; sqft := 1800; property_type := "house";
     description := ""; images := []; listing_date := None;
     days_on_market := None |}.

Definition five : list Listing :=
  [house "z1" "1 Oak St"; house "z2" "2 Oak St"; house "z3" "3 Oak St";
   house "z4" "4 Oak St"; house "z5" "5 Oak St"].

Definition eval0 (l : Listing) : EvaluationReport :=
  {| eval_listing_id := id l; preference_match_score := 7;
     crime_score := None; school_score := None; walkability_score := None;
     affordability_score := None; similar_evaluations := [];
     strengths := []; concerns := []; additional_notes := None |}.

Definition args0 (l : Listing) : ArgumentReport :=
  {| arg_listing_id := id l; pro_arguments := ["yard"];
     con_arguments := [] |}.

Definition report0 (l : Listing) (ev : EvaluationReport) (ar : ArgumentReport)
  : FinalReport :=
  {| listing := l; evaluation := ev; arguments := ar; final_score := 7;
     executive_summary := ""; recommendation := Consider |}.

(** The scrapers return the five listings (one scraper fails); the
    evaluator raises on the third listing; the other calls return. *)
Definition c0 : Collaborators :=
  {| scrapers := λ _, [Returned (take 3 five); Raised "timeout";
                       Returned (drop 3 five)];
     evaluate_listing := λ i l _,
       if Nat.eqb i 2 then None else Some (eval0 l);
     generate_arguments := λ _ l _ _, Some (args0 l);
     compile_report := λ _ l ev ar _, Some (report0 l ev ar) |}.

Lemma collected_five : search_all_platforms (scrapers c0 prefs0) = five.
Proof. vm_compute. reflexivity. Qed.

End Fixtures.

Import Search.

(** C2 as stated fails.  In the run of [Fixtures.c0] the collector returns
    five listings, yet the state in which the status has just become
    evaluating still holds the empty list [start_search] stored: its
    projection reports listings_found = 0. *)
Lemma C2_counterexample :
  ¬ (∀ s : SearchSession,
       s ∈ session_trace Fixtures.chats0 Fixtures.c0 "chat-1" None →
       status s = evaluating →
       listings_found (get_search_status s)
       = length (search_all_platforms
                   (scrapers Fixtures.c0 Fixtures.prefs0))).
Proof.
  intros H.
  set (early := [SetStatus scraping;
                 SetMessage "Searching real estate platforms...";
                 SetProgress 20; SetStatus evaluating]).
  assert (Hws : ∃ rest,
            run_search_pipeline Fixtures.chats0 Fixtures.c0 "chat-1" None
            = early ++ rest).
  { unfold run_search_pipeline, pipeline_writes, Fixtures.chats0.
    rewrite lookup_singleton_eq. cbn [preferences Fixtures.chat0].
    cbn zeta. eexists. subst early. cbn [app]. reflexivity. }
  destruct Hws as [rest Hws].
  specialize (H (final_state (start_search "chat-1") early)).
  rewrite Fixtures.collected_five in H.
  assert (Hlen : length Fixtures.five = 5%nat) by reflexivity.
  rewrite Hlen in H.
  assert (H05 : 0%nat = 5%nat); [|discriminate H05].
  apply H; [|reflexivity].
  unfold session_trace. rewrite Hws. apply run_writes_prefix.
Qed.

(** C2 (amended).  The session stores the collector's result only when the
    run completes.  A get-status read taken while the status is pending,
    scraping or evaluating reports listings_found = 0 and
    listings_evaluated = 0; the read after a completed run reports the number
    of deduplicated listings the collector returned and the number of
    evaluated listings.  The projection depends on the stored status,
    progress, message, listings and evaluated listings only. *)
Theorem C2_status_counts_only_on_completion
    (chat_sessions : gmap string ChatSession) (c : Collaborators)
    (chat_id : string) :
  (∀ (escaped : option (nat * string)) (s : SearchSession),
     s ∈ session_trace chat_sessions c chat_id escaped →
     in_progress (status s) = true →
     listings_found (get_search_status s) = 0
     ∧ listings_evaluated (get_search_status s) = 0)
  ∧ (∀ (cs : ChatSession) (prefs : UserPreferences),
       chat_sessions !! chat_id = Some cs → preferences cs = Some prefs →
       ∃ s, last (session_trace chat_sessions c chat_id None) = Some s
            ∧ status s = complete
            ∧ listings_found (get_search_status s)
              = length (search_all_platforms (scrapers c prefs))
            ∧ listings_evaluated (get_search_status s)
              = length (st_evaluated (stages c prefs)).1)
  ∧ (∀ s s' : SearchSession,
       status s = status s' → progress s = progress s' →
       message s = message s' → listings s = listings s' →
       evaluated_listings s = evaluated_listings s' →
       get_search_status s = get_search_status s').
Proof.
  split; [|split].
  - intros escaped s Hin Hp. unfold session_trace in Hin.
    destruct (run_shape chat_sessions c chat_id escaped)
      as (ws1 & ws2 & Heq & Hq & Hc).
    rewrite Heq in Hin.
    destruct (in_progress_collections _ _ _ _ Hq Hc Hin Hp) as [Hl He].
    unfold get_search_status. cbn [listings_found listings_evaluated].
    by rewrite Hl, He.
  - intros cs prefs Hcs Hprefs. eexists. split.
    + unfold session_trace. apply last_run_writes.
    + by rewrite (completed_final_state _ _ _ _ _ Hcs Hprefs).
  - intros s s' Hst Hpr Hm Hl He. unfold get_search_status. congruence.
Qed.

(** C4.  With the preferences resolved and nothing escaping the per-listing
    handlers, the run ends in status complete whatever the scrapers and the
    enrichment calls do, and each stage keeps at most what it received.  When
    five listings enter the evaluating stage and exactly one evaluator call
    raises, all other calls returning, there are exactly four final reports.
    When every scraper fails, or every call of a stage raises, the
    collections from that stage on are empty and the status is still
    complete. *)
Theorem C4_item_failures_never_prevent_completion
    (chat_sessions : gmap string ChatSession) (c : Collaborators)
    (chat_id : string) (cs : ChatSession) (prefs : UserPreferences)
    (Hcs : chat_sessions !! chat_id = Some cs)
    (Hprefs : preferences cs = Some prefs) :
  ∃ (s : SearchSession) (evs : list EvaluatedListing)
    (ars : list ArguedListing) (frs : list FinalReport),
    last (session_trace chat_sessions c chat_id None) = Some s
    ∧ status s = complete
    ∧ listings s = search_all_platforms (scrapers c prefs)
    ∧ evaluated_listings s = Some evs
    ∧ argued_listings s = Some ars
    ∧ final_reports s = Some frs
    ∧ (length frs <= length ars <= length evs)%nat
    ∧ (length evs <= length (listings s))%nat
    ∧ (length (listings s) = 5 →
       ∀ k, (k < 5)%nat →
       (∀ i l, listings s !! i = Some l →
               (evaluate_listing c i l prefs = None ↔ i = k)) →
       (∀ i l ev, is_Some (generate_arguments c i l ev prefs)) →
       (∀ i l ev ar, is_Some (compile_report c i l ev ar prefs)) →
       length frs = 4)
    ∧ (Forall (λ r, ∃ msg, r = Raised msg) (scrapers c prefs) →
       listings s = [] ∧ evs = [] ∧ ars = [] ∧ frs = [])
    ∧ ((∀ i l, evaluate_listing c i l prefs = None) →
       evs = [] ∧ ars = [] ∧ frs = [])
    ∧ ((∀ i l ev, generate_arguments c i l ev prefs = None) →
       ars = [] ∧ frs = [])
    ∧ ((∀ i l ev ar, compile_report c i l ev ar prefs = None) → frs = []).
Proof.
  set (st := stages c prefs).
  exists (final_state (start_search chat_id)
            (run_search_pipeline chat_sessions c chat_id None)),
    (st_evaluated st).1, (st_argued st).1,
    (sorted_desc final_score (st_final st).1).
  split; [apply last_run_writes|].
  rewrite (completed_final_state _ _ _ _ _ Hcs Hprefs). fold st.
  cbn [status listings evaluated_listings argued_listings final_reports].
  do 5 (split; [reflexivity|]).
  rewrite sorted_desc_length.
  assert (HlenF : (length (st_final st).1 <= length (st_argued st).1)%nat)
    by apply stage_loop_length_le.
  assert (HlenA : (length (st_argued st).1 <= length (st_evaluated st).1)%nat)
    by apply stage_loop_length_le.
  assert (HlenE : (length (st_evaluated st).1 <= length (st_listings st))%nat)
    by apply stage_loop_length_le.
  assert (HEnil : (st_evaluated st).1 = [] →
                  (st_argued st).1 = [] ∧ (st_final st).1 = []).
  { intros HE. destruct (st_argued st).1 eqn:EA;
      [|rewrite HE in HlenA; simpl in HlenA; lia].
    split; [done|].
    destruct (st_final st).1 eqn:EF; [done|simpl in HlenF; lia]. }
  assert (HAnil : (st_argued st).1 = [] → (st_final st).1 = []).
  { intros HA. destruct (st_final st).1 eqn:EF; [done|].
    rewrite HA in HlenF. simpl in HlenF. lia. }
  split; [lia|]. split; [exact HlenE|].
  split; [|split; [|split; [|split]]].
  - intros H5 k Hk Hone Hargs Hcomp.
    assert (HE : S (length (st_evaluated st).1) = length (st_listings st)).
    { apply (stage_loop_one_fail _ _ _ _ 0 k); [by rewrite H5|].
      intros j l Hj. cbn [Nat.add]. unfold evaluate_call.
      specialize (Hone j l Hj).
      destruct (evaluate_listing c j l prefs);
        [|split; [intros _; by apply Hone | done]].
      split; [done|]. intros ->.
      destruct Hone as [_ Hone]. by specialize (Hone eq_refl). }
    assert (HA : length (st_argued st).1 = length (st_evaluated st).1).
    { apply stage_loop_all_ok. intros j e _. unfold argue_call.
      destruct (Hargs (0 + j)%nat (el_listing e) (el_evaluation e)) as [a ->].
      done. }
    assert (HF : length (st_final st).1 = length (st_argued st).1).
    { apply stage_loop_all_ok. intros j a _. unfold compile_call.
      apply Hcomp. }
    lia.
  - intros Hfail.
    assert (Hl : st_listings st = []).
    { unfold st, stages. cbn [st_listings]. unfold search_all_platforms.
      assert (Hall : ∀ acc, foldl combine_step acc (scrapers c prefs) = acc).
      { induction Hfail as [|r rs [msg ->] _ IH]; intros acc; [done|].
        simpl. apply IH. }
      by rewrite Hall. }
    split; [exact Hl|].
    assert (HE : (st_evaluated st).1 = []).
    { destruct (st_evaluated st).1 eqn:E; [done|].
      rewrite Hl in HlenE. simpl in HlenE. lia. }
    destruct (HEnil HE) as [-> ->]. done.
  - intros Hfail.
    assert (HE : (st_evaluated st).1 = []).
    { apply stage_loop_all_fail. intros j l _. unfold evaluate_call.
      by rewrite Hfail. }
    destruct (HEnil HE) as [-> ->]. done.
  - intros Hfail.
    assert (HA : (st_argued st).1 = []).
    { apply stage_loop_all_fail. intros j e _. unfold argue_call.
      by rewrite Hfail. }
    rewrite (HAnil HA). done.
  - intros Hfail.
    assert (HF : (st_final st).1 = []).
    { apply stage_loop_all_fail. intros j a _. unfold compile_call.
      by rewrite Hfail. }
    by rewrite HF.
Qed.

(** The scenario of C4 on [Fixtures.c0]: five listings, the evaluator
    raising on the third one, four final reports. *)
Lemma C4_witness :
  ∃ (s : SearchSession) (frs : list FinalReport),
    last (session_trace Fixtures.chats0 Fixtures.c0 "chat-1" None) = Some s
    ∧ status s = complete
    ∧ final_reports s = Some frs
    ∧ length frs = 4.
Proof.
  destruct (C4_item_failures_never_prevent_completion
              Fixtures.chats0 Fixtures.c0 "chat-1" Fixtures.chat0
              Fixtures.prefs0 (lookup_singleton_eq _ _) eq_refl)
    as (s & evs & ars & frs & Hlast & Hst & Hl & He & Ha & Hf & _ & _ & H5 & _).
  exists s, frs. split; [exact Hlast|]. split; [exact Hst|].
  split; [exact Hf|].
  apply (H5 ltac:(rewrite Hl, Fixtures.collected_five; reflexivity) 2).
  - lia.
  - intros i l _. simpl. destruct (Nat.eqb_spec i 2) as [->|Hne].
    + split; reflexivity.
    + split; [discriminate | intros ->; contradiction].
  - intros i l ev. eexists. reflexivity.
  - intros i l ev ar. eexists. reflexivity.
Defined.

(** ** Personalised score *)

Section PersonalizedScore.
Import RecommendationService.
Local Open Scope R_scope.

Lemma np_sum_perm (l1 l2 : list R) : l1 ≡ₚ l2 → Np.sum l1 = Np.sum l2.
Proof.
  induction 1 as [|x l1 l2 _ IH|x y l|l1 l2 l3 _ IH1 _ IH2]; simpl.
  - reflexivity.
  - by rewrite IH.
  - lra.
  - by rewrite IH1.
Qed.

Lemma np_sum_cons (x : R) (l : list R) : Np.sum (x :: l) = x + Np.sum l.
Proof. reflexivity. Qed.

Lemma weighted_sum_empty (ws : gmap string R) : weighted_sum ∅ ws = 0.
Proof. unfold weighted_sum. by rewrite map_fold_empty. Qed.

Lemma weighted_sum_insert (k : string) (v : R) (fs ws : gmap string R) :
  fs !! k = None →
  weighted_sum (<[k := v]> fs) ws
  = match ws !! k with
    | Some w => weighted_sum fs ws + v * w
    | None => weighted_sum fs ws
    end.
Proof.
  intros Hk. unfold weighted_sum. rewrite map_fold_insert_L; [done| |done].
  intros j1 j2 z1 z2 y _ _ _.
  destruct (ws !! j1), (ws !! j2); lra.
Qed.

(** The sum of [weight[f] * value[f]] over the features that have a
    weight. *)
Definition weighted_total (fs ws : gmap string R) : R :=
  Np.sum (map_to_list (map_zip_with Rmult ws fs)).*2.

Lemma weighted_sum_total (fs ws : gmap string R) :
  weighted_sum fs ws = weighted_total fs ws.
Proof.
  unfold weighted_total.
  induction fs as [|k v fs Hk IH] using map_ind.
  - rewrite weighted_sum_empty, map_zip_with_empty_r. by rewrite map_to_list_empty.
  - rewrite weighted_sum_insert by done. rewrite IH.
    destruct (ws !! k) as [w|] eqn:Hw.
    + assert (Hz : map_zip_with Rmult ws (<[k := v]> fs)
                   = <[k := w * v]> (map_zip_with Rmult ws fs)).
      { apply map_eq. intros j. rewrite map_lookup_zip_with.
        destruct (decide (j = k)) as [->|Hne].
        - rewrite !lookup_insert_eq, Hw. done.
        - rewrite !lookup_insert_ne by done. by rewrite map_lookup_zip_with. }
      rewrite Hz.
      rewrite (np_sum_perm
                 (map_to_list (<[k := w * v]> (map_zip_with Rmult ws fs))).*2
                 (w * v :: (map_to_list (map_zip_with Rmult ws fs)).*2)).
      * rewrite np_sum_cons. ring.
      * rewrite map_to_list_insert; [done|].
        rewrite map_lookup_zip_with, Hk. by destruct (ws !! k).
    + assert (Hz : map_zip_with Rmult ws (<[k := v]> fs)
                   = map_zip_with Rmult ws fs).
      { apply map_eq. intros j. rewrite !map_lookup_zip_with.
        destruct (decide (j = k)) as [->|Hne].
        - rewrite lookup_insert_eq, Hw, Hk. done.
        - by rewrite lookup_insert_ne. }
      by rewrite Hz.
Qed.

Definition clamp (lo hi x : R) : R := Rmax lo (Rmin hi x).

Lemma clamp_cases (lo hi x : R) :
  lo <= hi →
  (x <= lo ∧ clamp lo hi x = lo)
  ∨ (lo <= x <= hi ∧ clamp lo hi x = x)
  ∨ (hi <= x ∧ clamp lo hi x = hi).
Proof.
  intros H. unfold clamp.
  destruct (Rle_dec x hi) as [Hx|Hx].
  - rewrite (Rmin_right hi x) by exact Hx.
    destruct (Rle_dec lo x) as [Hl|Hl].
    + right. left. split; [lra|]. by apply Rmax_right.
    + left. split; [lra|]. apply Rmax_left. lra.
  - right. right. split; [lra|].
    rewrite (Rmin_left hi x) by lra. by apply Rmax_right.
Qed.

Lemma clamp_bounds (lo hi x : R) : lo <= hi → lo <= clamp lo hi x <= hi.
Proof.
  intros H. destruct (clamp_cases lo hi x H) as [[? ->]|[[? ->]|[? ->]]]; lra.
Qed.

Lemma clamp_id (lo hi x : R) : lo <= x <= hi → clamp lo hi x = x.
Proof.
  intros H.
  destruct (clamp_cases lo hi x) as [[? ->]|[[? ->]|[? ->]]]; lra.
Qed.

Lemma clamp_above (lo hi x : R) : lo <= hi → hi <= x → clamp lo hi x = hi.
Proof.
  intros H Hx.
  destruct (clamp_cases lo hi x H) as [[? ->]|[[? ->]|[? ->]]]; lra.
Qed.

(** The score as the specification words it: the learned adjustment is
    clamped to [0,10] before it is blended with the base score. *)
Definition personalized_score_spec (fs ws : gmap string R) : R :=
  clamp 0 10
    (0.7 * default 5 (fs !! "final_score")
     + 0.3 * clamp 0 10 (5 + weighted_total fs ws)).

Lemma extract_features_final_score (l : Listing) (r : FinalReport) :
  _extract_features l r !! "final_score" = Some (final_score r).
Proof. reflexivity. Qed.

End PersonalizedScore.

Import RecommendationService.

(** A report scored 2 whose preference match of 10 carries weight 1. *)
Definition features_low_base : gmap string R :=
  <["preference_match" := 10%R]> (<["final_score" := 2%R]> ∅).

Definition weights_match_only : gmap string R := {[ "preference_match" := 1%R ]}.

Lemma weighted_sum_low_base :
  weighted_sum features_low_base weights_match_only = 10%R.
Proof.
  unfold features_low_base, weights_match_only.
  rewrite weighted_sum_insert by done.
  rewrite lookup_singleton_eq.
  rewrite weighted_sum_insert by done.
  rewrite lookup_singleton_ne by done.
  rewrite weighted_sum_empty. lra.
Qed.

(** C1 as stated fails.  With base score 2 and adjustment 5 + 10 the code
    returns 0.7 * 2 + 0.3 * 15 = 5.9; clamping the adjustment to 10 first
    would give 0.7 * 2 + 0.3 * 10 = 4.4. *)
Lemma C1_counterexample :
  _calculate_personalized_score features_low_base weights_match_only = 5.9%R
  ∧ personalized_score_spec features_low_base weights_match_only = 4.4%R
  ∧ _calculate_personalized_score features_low_base weights_match_only
    ≠ personalized_score_spec features_low_base weights_match_only.
Proof.
  assert (Hbase : features_low_base !! "final_score" = Some 2%R) by done.
  assert (Hcode : _calculate_personalized_score features_low_base
                    weights_match_only = 5.9%R).
  { unfold _calculate_personalized_score.
    rewrite Hbase, weighted_sum_low_base.
    cbn [default from_option Datatypes.id].
    change (Rmax 0 (Rmin 10 ?x)) with (clamp 0 10 x).
    rewrite clamp_id; lra. }
  assert (Hspec : personalized_score_spec features_low_base
                    weights_match_only = 4.4%R).
  { unfold personalized_score_spec.
    rewrite <- weighted_sum_total, Hbase, weighted_sum_low_base.
    cbn [default from_option Datatypes.id].
    rewrite (clamp_above 0 10 (5 + 10)) by lra.
    rewrite clamp_id; lra. }
  split; [exact Hcode|]. split; [exact Hspec|].
  rewrite Hcode, Hspec. lra.
Qed.

(** C1 (amended).  For every feature map and weight map the personalized
    score equals clamp(0.7 * final_score + 0.3 * (5 + Σ weight[f] * value[f]), 0, 10),
    the sum ranging over the features that have a weight and final_score
    defaulting to 5 when the feature is missing: only the blended value is
    clamped, the learned adjustment is not.  The score lies in [0,10], it is
    the score of the specification whenever 5 + Σ lies in [0,10], and for a
    report the base score is the report's final_score. *)
Theorem C1_personalized_score_clamps_once (fs ws : gmap string R) :
  let base_score := default 5%R (fs !! "final_score") in
  let total := weighted_total fs ws in
  _calculate_personalized_score fs ws
    = clamp 0 10 (0.7 * base_score + 0.3 * (5 + total))%R
  ∧ (0 <= _calculate_personalized_score fs ws <= 10)%R
  ∧ ((0 <= 5 + total <= 10)%R →
     _calculate_personalized_score fs ws = personalized_score_spec fs ws)
  ∧ (∀ report : FinalReport,
       _calculate_personalized_score
         (_extract_features (listing report) report) ws
       = clamp 0 10
           (0.7 * final_score report
            + 0.3 * (5 + weighted_total
                           (_extract_features (listing report) report) ws))%R).
Proof.
  intros base_score total.
  assert (Heq : ∀ fs', _calculate_personalized_score fs' ws
            = clamp 0 10 (0.7 * default 5 (fs' !! "final_score")
                          + 0.3 * (5 + weighted_total fs' ws))%R).
  { intros fs'. unfold _calculate_personalized_score.
    by rewrite weighted_sum_total. }
  split; [apply Heq|]. split; [|split].
  - rewrite Heq. apply clamp_bounds. lra.
  - intros Hin. rewrite Heq. unfold personalized_score_spec.
    fold total. by rewrite (clamp_id 0 10 (5 + total)).
  - intros report. rewrite Heq. by rewrite extract_features_final_score.
Qed.

(** ** Ranking and the next listing *)

Section Ranking.
Import Search RecommendationService.

Lemma ranked_perm (session_id : string) (reports : list FinalReport)
    (st : Stores) :
  get_ranked_listings session_id reports st ≡ₚ reports.
Proof.
  unfold get_ranked_listings.
  destruct (_get_preference_weights session_id st) as [ws|];
    [|apply sorted_desc_perm].
  case_decide; [apply sorted_desc_perm|].
  cbn zeta. rewrite sorted_desc_perm.
  rewrite map_map. cbn [snd]. by rewrite map_id.
Qed.

Lemma ranked_without_weights (session_id : string)
    (reports : list FinalReport) (st : Stores) :
  preference_weights_collection st !! session_id = None →
  get_ranked_listings session_id reports st
  = sorted_desc final_score reports.
Proof.
  intros Hnone. unfold get_ranked_listings, _get_preference_weights.
  by rewrite Hnone.
Qed.

End Ranking.

(** C9.  For every state of the stores, every list of available reports
    and every list of seen ids: a report returned by [get_next_listing] is
    one of the available reports and its listing id is not among the seen
    ids; and the result is [None] if and only if the listing id of every
    available report is among the seen ids. *)
Theorem C9_next_listing_is_unseen (st : Stores) (session_id : string)
    (available_listings : list FinalReport) (seen_listing_ids : list string) :
  (∀ r : FinalReport,
     get_next_listing session_id available_listings seen_listing_ids st
       = Some r →
     r ∈ available_listings ∧ id (listing r) ∉ seen_listing_ids)
  ∧ (get_next_listing session_id available_listings seen_listing_ids st = None
     ↔ ∀ r : FinalReport,
         r ∈ available_listings → id (listing r) ∈ seen_listing_ids).
Proof.
  unfold get_next_listing. cbn zeta.
  set (unseen := filter (λ r, id (listing r) ∉ seen_listing_ids)
                   available_listings).
  assert (Hunseen : ∀ r, r ∈ unseen ↔
            ((id (listing r) ∉ seen_listing_ids) ∧ r ∈ available_listings)).
  { intros r. unfold unseen. by rewrite list_elem_of_filter. }
  destruct unseen as [|u unseen'] eqn:Hu.
  - split; [discriminate|]. split; [|reflexivity].
    intros _ r Hr.
    destruct (decide (id (listing r) ∈ seen_listing_ids)) as [|Hn]; [done|].
    exfalso. assert (Hin : r ∈ []) by (by apply Hunseen). by inversion Hin.
  - pose proof (ranked_perm session_id (u :: unseen') st) as Hperm.
    split.
    + intros r Hr. apply head_Some_elem_of in Hr.
      rewrite Hperm in Hr. apply Hunseen in Hr. tauto.
    + split.
      * intros Hnone. exfalso.
        destruct (get_ranked_listings session_id (u :: unseen') st) eqn:E;
          [|discriminate].
        by apply Permutation_nil_cons in Hperm.
      * intros Hall. exfalso.
        assert (Hin : u ∈ u :: unseen') by left.
        apply Hunseen in Hin as [Hn Hav]. apply Hn. by apply Hall.
Qed.

(** ** The feedback store over a history of calls *)

Section FeedbackHistory.
Import RecommendationService.

(** One call of [record_feedback]. *)
Definition FeedbackCall : Type := FeedbackRequest * Listing * FinalReport.

Definition call_session (c : FeedbackCall) : string := fb_session_id c.1.1.
Definition call_listing (c : FeedbackCall) : string := fb_listing_id c.1.1.

Definition record_call (st : Stores) (c : FeedbackCall) : Stores :=
  (record_feedback c.1.1 c.1.2 c.2 st).1.

(** The stores after a sequence of calls on the empty collections. *)
Definition replay (calls : list FeedbackCall) : Stores :=
  foldl record_call empty_stores calls.

(** The distinct listing ids a session has recorded feedback for. *)
Definition recorded_listings (session_id : string) (calls : list FeedbackCall)
  : list string :=
  remove_dups
    (call_listing <$> filter (λ c, call_session c = session_id) calls).

Lemma replay_snoc (calls : list FeedbackCall) (c : FeedbackCall) :
  replay (calls ++ [c]) = record_call (replay calls) c.
Proof. unfold replay. by rewrite foldl_app. Qed.

Lemma update_weights_feedback (session_id : string) (st st' : Stores) :
  _update_preference_weights session_id st = Some st' →
  feedback_collection st' = feedback_collection st.
Proof.
  unfold _update_preference_weights. cbn zeta.
  case_decide; [by intros [= <-]|].
  destruct (_calculate_feature_weights _ _); [|done]. by intros [= <-].
Qed.

Lemma update_weights_cases (session_id : string) (st st' : Stores) :
  _update_preference_weights session_id st = Some st' →
  preference_weights_collection st' = preference_weights_collection st
  ∨ ((2 <= length (get_where_session session_id (feedback_collection st)))%nat
     ∧ ∃ doc, preference_weights_collection st'
              = <[session_id := doc]> (preference_weights_collection st)).
Proof.
  unfold _update_preference_weights. cbn zeta.
  case_decide as Hlen; [intros [= <-]; by left|].
  destruct (_calculate_feature_weights _ _); [|done]. intros [= <-].
  right. split; [lia|]. by eexists.
Qed.

Lemma record_call_feedback (st : Stores) (c : FeedbackCall) :
  feedback_collection (record_call st c)
  = <[feedback_id (call_session c) (call_listing c) :=
        (feedback_document c.1.1 c.1.2 c.2, feedback_metadata c.1.1 c.1.2 c.2)]>
      (feedback_collection st).
Proof.
  unfold record_call, record_feedback. cbn zeta.
  destruct (_update_preference_weights _ _) as [st2|] eqn:E; [|done].
  cbn [fst]. by rewrite (update_weights_feedback _ _ _ E).
Qed.

Lemma record_call_weights (st : Stores) (c : FeedbackCall) :
  preference_weights_collection (record_call st c)
    = preference_weights_collection st
  ∨ ((2 <= length (get_where_session (call_session c)
                     (feedback_collection (record_call st c))))%nat
     ∧ ∃ doc, preference_weights_collection (record_call st c)
              = <[call_session c := doc]> (preference_weights_collection st)).
Proof.
  rewrite record_call_feedback.
  unfold record_call, record_feedback. cbn zeta.
  destruct (_update_preference_weights _ _) as [st2|] eqn:E; [|by left].
  apply update_weights_cases in E as [E|E]; [by left | by right].
Qed.

(** Every stored entry was written by a call of the history, under the id
    made of that call's session and listing ids. *)
Definition entry_of (calls : list FeedbackCall) (k : string)
    (e : FeedbackDocument * FeedbackMetadata) : Prop :=
  ∃ c, c ∈ calls
       ∧ k = feedback_id (call_session c) (call_listing c)
       ∧ e = (feedback_document c.1.1 c.1.2 c.2,
              feedback_metadata c.1.1 c.1.2 c.2).

Lemma replay_entries (calls : list FeedbackCall) (k : string)
    (e : FeedbackDocument * FeedbackMetadata) :
  feedback_collection (replay calls) !! k = Some e → entry_of calls k e.
Proof.
  revert k e. induction calls as [|c calls IH] using rev_ind; intros k e.
  - unfold replay. simpl. by rewrite lookup_empty.
  - rewrite replay_snoc, record_call_feedback.
    destruct (decide (feedback_id (call_session c) (call_listing c) = k))
      as [<-|Hne].
    + rewrite lookup_insert_eq. intros [= <-]. exists c.
      split; [apply elem_of_app; right; left | done].
    + rewrite lookup_insert_ne by done. intros He.
      destruct (IH _ _ He) as (c' & Hin & Hk & Hc').
      exists c'. split; [apply elem_of_app; by left | done].
Qed.

Lemma feedback_id_inj (s l1 l2 : string) :
  feedback_id s l1 = feedback_id s l2 → l1 = l2.
Proof.
  unfold feedback_id. intros H.
  apply (inj (String.app s)) in H. by apply (inj (String.app "_")) in H.
Qed.

Lemma two_in_remove_dups (l : list string) (a b : string) :
  a ≠ b → a ∈ l → b ∈ l → (2 <= length (remove_dups l))%nat.
Proof.
  intros Hab Ha Hb.
  assert (Hsub : [a; b] ⊆+ remove_dups l).
  { apply NoDup_submseteq.
    - apply NoDup_cons. split; [|apply NoDup_singleton].
      by intros ->%list_elem_of_singleton.
    - intros x [->|[->|Hx]%elem_of_cons]%elem_of_cons;
        [by apply elem_of_remove_dups..|by inversion Hx]. }
  by apply submseteq_length in Hsub.
Qed.

(** Two stored events of a session stem from two distinct listings. *)
Lemma two_events_two_listings (calls : list FeedbackCall) (sid : string) :
  (2 <= length (get_where_session sid
                  (feedback_collection (replay calls))))%nat →
  (2 <= length (recorded_listings sid calls))%nat.
Proof.
  intros Hlen. unfold get_where_session in Hlen.
  set (m := feedback_collection (replay calls)) in *.
  set (L := filter (λ e, meta_session_id e.2.2 = sid) (map_to_list m)) in *.
  assert (Hnd : NoDup L) by apply NoDup_filter, NoDup_map_to_list.
  destruct L as [|[k1 e1] [|[k2 e2] L']] eqn:HL; simpl in Hlen; [lia..|].
  assert (Hin : ∀ k e, (k, e) ∈ L → meta_session_id e.2 = sid ∧ m !! k = Some e).
  { intros k e. unfold L. rewrite list_elem_of_filter, elem_of_map_to_list.
    done. }
  rewrite HL in Hin.
  destruct (Hin k1 e1 ltac:(left)) as [Hs1 Hm1].
  destruct (Hin k2 e2 ltac:(right; left)) as [Hs2 Hm2].
  destruct (replay_entries _ _ _ Hm1) as (c1 & Hc1 & Hk1 & He1).
  destruct (replay_entries _ _ _ Hm2) as (c2 & Hc2 & Hk2 & He2).
  subst e1 e2. cbn [snd feedback_metadata meta_session_id] in Hs1, Hs2.
  fold (call_session c1) in Hs1. fold (call_session c2) in Hs2.
  apply (two_in_remove_dups _ (call_listing c1) (call_listing c2)).
  - intros Heq. apply NoDup_cons in Hnd as [Hnotin _]. apply Hnotin.
    rewrite Hk1, Hk2, Hs1, Hs2, Heq in *.
    assert (c1eq : feedback_document c1.1.1 c1.1.2 c1.2 = feedback_document c2.1.1 c2.1.2 c2.2
                   ∧ feedback_metadata c1.1.1 c1.1.2 c1.2 = feedback_metadata c2.1.1 c2.1.2 c2.2).
    { rewrite Hm1 in Hm2. split; congruence. }
    destruct c1eq as [-> ->]. left.
  - apply list_elem_of_fmap. exists c1. split; [done|].
    by apply list_elem_of_filter.
  - apply list_elem_of_fmap. exists c2. split; [done|].
    by apply list_elem_of_filter.
Qed.

(** Weights exist only for sessions with two distinct recorded listings. *)
Lemma replay_weights (calls : list FeedbackCall) (sid : string) :
  is_Some (preference_weights_collection (replay calls) !! sid) →
  (2 <= length (recorded_listings sid calls))%nat.
Proof.
  induction calls as [|c calls IH] using rev_ind.
  - unfold replay. simpl. rewrite lookup_empty. by intros [? ?].
  - assert (Hmono : (length (recorded_listings sid calls)
                     <= length (recorded_listings sid (calls ++ [c])))%nat).
    { apply submseteq_length, NoDup_submseteq; [apply NoDup_remove_dups|].
      intros x. unfold recorded_listings.
      rewrite !elem_of_remove_dups, filter_app, fmap_app, elem_of_app. tauto. }
    pose proof (two_events_two_listings (calls ++ [c]) (call_session c)) as H2.
    rewrite replay_snoc in *.
    destruct (record_call_weights (replay calls) c) as [->|[Hlen [doc ->]]].
    + intros H. apply IH in H. lia.
    + destruct (decide (call_session c = sid)) as [<-|Hne].
      * intros _. by apply H2.
      * rewrite lookup_insert_ne by done. intros H. apply IH in H. lia.
Qed.

End FeedbackHistory.

Section PairEvents.
Import RecommendationService.

(** The stored events of one (session, listing) pair. *)
Definition pair_events (session_id listing_id : string) (st : Stores)
  : list (string * (FeedbackDocument * FeedbackMetadata)) :=
  filter (λ e, meta_session_id e.2.2 = session_id
               ∧ meta_listing_id e.2.2 = listing_id)
    (map_to_list (feedback_collection st)).

Lemma NoDup_all_equal {T} (a : T) (l : list T) :
  NoDup l → (∀ x, x ∈ l → x = a) → l = [] ∨ l = [a].
Proof.
  intros Hnd Hall. destruct l as [|x [|y l]]; [by left| |].
  - right. f_equal. apply Hall. left.
  - exfalso. apply NoDup_cons in Hnd as [Hx _]. apply Hx.
    rewrite (Hall x) by left. rewrite (Hall y) by (right; left). left.
Qed.

(** A filter that can only hold at one key selects at most the entry
    stored under that key. *)
Lemma filter_by_key {V} (m : gmap string V) (P : string * V → Prop)
    `{!∀ x, Decision (P x)} (k0 : string) :
  (∀ k v, m !! k = Some v → P (k, v) → k = k0) →
  filter P (map_to_list m)
  = match m !! k0 with
    | Some v => if decide (P (k0, v)) then [(k0, v)] else []
    | None => []
    end.
Proof.
  intros Hkey.
  assert (Hnd : NoDup (filter P (map_to_list m)))
    by apply NoDup_filter, NoDup_map_to_list.
  assert (Hin : ∀ x, x ∈ filter P (map_to_list m) ↔ (P x ∧ m !! x.1 = Some x.2)).
  { intros [k v]. by rewrite list_elem_of_filter, elem_of_map_to_list. }
  destruct (m !! k0) as [v|] eqn:Hm.
  - assert (Hall : ∀ x, x ∈ filter P (map_to_list m) → x = (k0, v)).
    { intros [k w] [HP Hk]%Hin. simpl in Hk.
      assert (k = k0) as -> by (by eapply Hkey). congruence. }
    destruct (NoDup_all_equal _ _ Hnd Hall) as [Hl|Hl]; rewrite Hl;
      case_decide as HP; try done.
    + exfalso. assert (Hmem : (k0, v) ∈ filter P (map_to_list m))
        by (by apply Hin).
      rewrite Hl in Hmem. by inversion Hmem.
    + exfalso. apply HP.
      assert (Hmem : (k0, v) ∈ filter P (map_to_list m))
        by (rewrite Hl; left).
      by apply Hin in Hmem as [? _].
  - assert (Hall : ∀ x, x ∉ filter P (map_to_list m)).
    { intros [k w] [HP Hk]%Hin. simpl in Hk.
      assert (k = k0) as -> by (by eapply Hkey). congruence. }
    destruct (filter P (map_to_list m)) as [|x l]; [done|].
    exfalso. apply (Hall x). left.
Qed.

Lemma pair_events_key (calls : list FeedbackCall) (sid lid k : string)
    (e : FeedbackDocument * FeedbackMetadata) :
  feedback_collection (replay calls) !! k = Some e →
  meta_session_id e.2 = sid ∧ meta_listing_id e.2 = lid →
  k = feedback_id sid lid.
Proof.
  intros Hk [Hs Hl].
  destruct (replay_entries _ _ _ Hk) as (c & _ & -> & ->).
  simpl in Hs, Hl. unfold call_session, call_listing. by rewrite Hs, Hl.
Qed.

Lemma pair_events_replay (calls : list FeedbackCall) (sid lid : string) :
  pair_events sid lid (replay calls)
  = match feedback_collection (replay calls) !! feedback_id sid lid with
    | Some e =>
        if decide (meta_session_id e.2 = sid ∧ meta_listing_id e.2 = lid)
        then [(feedback_id sid lid, e)] else []
    | None => []
    end.
Proof.
  unfold pair_events.
  rewrite (filter_by_key _ _ (feedback_id sid lid)); [done|].
  intros k v. apply pair_events_key.
Qed.

End PairEvents.

(** The request [record_feedback] receives. *)
Definition feedback_request (session_id listing_id : string) (a : Action)
  : FeedbackRequest :=
  {| fb_listing_id := listing_id; action := a; fb_session_id := session_id |}.

(** C6.  After any sequence of [record_feedback] calls the feedback store
    holds at most one event per (session id, listing id) pair; recording
    feedback for a pair leaves exactly the event of that call for the pair,
    whatever was stored before; a like followed by a dislike for the same
    listing in the same session leaves exactly one event for the pair, with
    action dislike. *)
Theorem C6_one_event_per_pair_last_write_wins (calls : list FeedbackCall) :
  (∀ sid lid : string,
     (length (pair_events sid lid (replay calls)) <= 1)%nat)
  ∧ (∀ c : FeedbackCall,
       pair_events (call_session c) (call_listing c) (replay (calls ++ [c]))
       = [(feedback_id (call_session c) (call_listing c),
           (feedback_document c.1.1 c.1.2 c.2,
            feedback_metadata c.1.1 c.1.2 c.2))])
  ∧ (∀ (sid lid : string) (l1 l2 : Listing) (r1 r2 : FinalReport),
       (λ e, meta_action e.2.2)
         <$> pair_events sid lid
               (replay (calls ++ [(feedback_request sid lid like, l1, r1);
                                  (feedback_request sid lid dislike, l2, r2)]))
       = [dislike]).
Proof.
  assert (Hlast : ∀ (cs : list FeedbackCall) (c : FeedbackCall),
            pair_events (call_session c) (call_listing c) (replay (cs ++ [c]))
            = [(feedback_id (call_session c) (call_listing c),
                (feedback_document c.1.1 c.1.2 c.2,
                 feedback_metadata c.1.1 c.1.2 c.2))]).
  { intros cs c. rewrite pair_events_replay.
    rewrite replay_snoc, record_call_feedback, lookup_insert_eq.
    by rewrite decide_True. }
  split; [|split].
  - intros sid lid. rewrite pair_events_replay.
    destruct (_ !! _); [case_decide|]; simpl; lia.
  - apply Hlast.
  - intros sid lid l1 l2 r1 r2.
    change [(feedback_request sid lid like, l1, r1);
            (feedback_request sid lid dislike, l2, r2)]
      with ([(feedback_request sid lid like, l1, r1)]
            ++ [(feedback_request sid lid dislike, l2, r2)]).
    rewrite app_assoc.
    pose proof (Hlast (calls ++ [(feedback_request sid lid like, l1, r1)])
                  (feedback_request sid lid dislike, l2, r2)) as H.
    apply (f_equal (fmap (λ e, meta_action e.2.2))) in H. exact H.
Qed.

(** C8.  After any history of [record_feedback] calls in which the session
    has recorded feedback for fewer than two listings, no weights are stored
    for the session, and [get_ranked_listings] returns the input reports
    sorted by final_score in descending order, reports with equal scores
    keeping their input order. *)
Theorem C8_no_weights_fallback_ranking (calls : list FeedbackCall)
    (session_id : string) (reports : list FinalReport)
    (Hfew : (length (recorded_listings session_id calls) < 2)%nat) :
  let st := replay calls in
  let ranked := get_ranked_listings session_id reports st in
  preference_weights_collection st !! session_id = None
  ∧ _get_preference_weights session_id st = None
  ∧ ranked = sorted_desc final_score reports
  ∧ ranked ≡ₚ reports
  ∧ StronglySorted (λ a b, (final_score b <= final_score a)%R) ranked
  ∧ ∀ v : R, filter (λ r, final_score r = v) ranked
             = filter (λ r, final_score r = v) reports.
Proof.
  intros st ranked.
  assert (Hnone : preference_weights_collection st !! session_id = None).
  { destruct (preference_weights_collection st !! session_id) eqn:E; [|done].
    assert (Hsome : is_Some (preference_weights_collection (replay calls)
                               !! session_id)) by (by eexists).
    apply replay_weights in Hsome. lia. }
  assert (Hranked : ranked = sorted_desc final_score reports)
    by (by apply ranked_without_weights).
  split; [exact Hnone|].
  split; [unfold _get_preference_weights; by rewrite Hnone|].
  split; [exact Hranked|]. rewrite Hranked.
  split; [apply sorted_desc_perm|].
  split; [apply (sorted_desc_sorted final_score)|].
  intros v. apply sorted_desc_stable.
Qed.

(** Two reports with equal scores, and a session that has rated one
    listing. *)
Definition report_first : FinalReport :=
  Fixtures.report0 (Fixtures.house "z1" "1 Oak St")
    (Fixtures.eval0 (Fixtures.house "z1" "1 Oak St"))
    (Fixtures.args0 (Fixtures.house "z1" "1 Oak St")).

Definition report_second : FinalReport :=
  Fixtures.report0 (Fixtures.house "z2" "2 Oak St")
    (Fixtures.eval0 (Fixtures.house "z2" "2 Oak St"))
    (Fixtures.args0 (Fixtures.house "z2" "2 Oak St")).

Definition one_like : list FeedbackCall :=
  [(feedback_request "s-1" "z1" like, Fixtures.house "z1" "1 Oak St",
    report_first)].

(** C8 on a session with a single like: no weights, and two reports with
    equal scores come back in their input order. *)
Lemma C8_witness :
  preference_weights_collection (replay one_like) !! "s-1" = None
  ∧ get_ranked_listings "s-1" [report_first; report_second] (replay one_like)
    = [report_first; report_second].
Proof.
  assert (Hfew : (length (recorded_listings "s-1" one_like) < 2)%nat).
  { vm_compute. lia. }
  destruct (C8_no_weights_fallback_ranking one_like "s-1"
              [report_first; report_second] Hfew)
    as (Hnone & _ & Hranked & _).
  split; [exact Hnone|]. rewrite Hranked.
  unfold sorted_desc. cbn [foldr insert_desc].
  destruct (Rlt_dec (final_score report_first) (final_score report_second))
    as [Hlt|_]; [|reflexivity].
  exfalso. cbn in Hlt. lra.
Defined.

(** ** Pearson correlation *)

Section Pearson.
Import RecommendationService.
Local Open Scope R_scope.

(** The sum of the squared deviations from the mean. *)
Definition sq_dev (xs : list R) : R := Np.sum (map (λ d, d * d) (Np.dev xs)).

(** The Pearson correlation of two samples, as textbooks define it:
    undefined when one of the samples has no variation. *)
Definition pearson (xs ys : list R) : option R :=
  if decide (sq_dev xs = 0 ∨ sq_dev ys = 0) then None
  else Some (Np.dot (Np.dev xs) (Np.dev ys)
             / (sqrt (sq_dev xs) * sqrt (sq_dev ys))).

(** The weight of a feature as the specification words it. *)
Definition pearson_weight (xs ys : list R) : R :=
  if decide (sq_dev xs = 0) then 0
  else match pearson xs ys with Some r => r | None => 0 end.

Lemma sum_squares_nonneg (ds : list R) : 0 <= Np.sum (map (λ d, d * d) ds).
Proof.
  induction ds as [|d ds IH]; simpl; [lra|].
  pose proof (Rle_0_sqr d) as Hd. unfold Rsqr in Hd. lra.
Qed.

Lemma sq_dev_nonneg (xs : list R) : 0 <= sq_dev xs.
Proof. apply sum_squares_nonneg. Qed.

Lemma dot_self (ds : list R) : Np.dot ds ds = Np.sum (map (λ d, d * d) ds).
Proof. unfold Np.dot. by rewrite zip_with_diag. Qed.

Lemma dev_length (xs : list R) : length (Np.dev xs) = length xs.
Proof. unfold Np.dev. by rewrite length_map. Qed.

Lemma std_zero_iff (xs : list R) :
  xs ≠ [] → Np.std xs = 0 ↔ sq_dev xs = 0.
Proof.
  intros Hne. unfold Np.std, Np.mean. rewrite length_map, dev_length.
  fold (sq_dev xs).
  assert (Hn : 0 < INR (length xs)).
  { apply lt_0_INR. destruct xs; [done|simpl; lia]. }
  pose proof (sq_dev_nonneg xs) as Hs.
  split.
  - intros H0. apply sqrt_eq_0 in H0.
    + unfold Rdiv in H0. apply Rmult_integral in H0 as [H0|H0]; [done|].
      exfalso. apply Rinv_neq_0_compat in H0; [done|lra].
    + apply Rmult_le_pos; [done|]. left. by apply Rinv_0_lt_compat.
  - intros ->. unfold Rdiv. rewrite Rmult_0_l. apply sqrt_0.
Qed.

Lemma sum_constant (c : R) (xs : list R) :
  Forall (λ x, x = c) xs → Np.sum xs = INR (length xs) * c.
Proof.
  induction 1 as [|x xs -> _ IH]; [simpl; lra|].
  rewrite np_sum_cons, IH. cbn [length]. rewrite S_INR. lra.
Qed.

(** A sample whose values are all equal has no variation. *)
Lemma sq_dev_constant (c : R) (xs : list R) :
  Forall (λ x, x = c) xs → sq_dev xs = 0.
Proof.
  intros Hc. destruct xs as [|x xs]; [reflexivity|].
  assert (Hmean : Np.mean (x :: xs) = c).
  { unfold Np.mean. rewrite (sum_constant c) by done. field.
    apply not_0_INR. simpl. lia. }
  unfold sq_dev, Np.dev. rewrite Hmean. rewrite map_map.
  clear Hmean. induction Hc as [|y ys -> _ IH]; [reflexivity|].
  cbn [map]. rewrite np_sum_cons, IH. lra.
Qed.

(** numpy's coefficient is the textbook one. *)
Lemma corrcoef_pearson (xs ys : list R) :
  (2 <= length xs)%nat → length ys = length xs →
  Np.corrcoef xs ys = pearson xs ys.
Proof.
  intros Hn Hlen. unfold Np.corrcoef, pearson, Np.cov.
  rewrite decide_False by lia. rewrite Hlen, !dot_self.
  fold (sq_dev xs) (sq_dev ys).
  assert (Hpos : 0 < INR (length xs) - 1).
  { apply le_INR in Hn. simpl in Hn. lra. }
  set (n1 := INR (length xs) - 1) in *.
  pose proof (sq_dev_nonneg xs) as Hx. pose proof (sq_dev_nonneg ys) as Hy.
  assert (Hz : ∀ s, s / n1 = 0 ↔ s = 0).
  { intros s. split; [|intros ->; unfold Rdiv; ring].
    intros H0. unfold Rdiv in H0.
    apply Rmult_integral in H0 as [H0|H0]; [done|].
    exfalso. apply Rinv_neq_0_compat in H0; [done|lra]. }
  destruct (decide (sq_dev xs = 0 ∨ sq_dev ys = 0)) as [Hd|Hd].
  - rewrite decide_True; [done|]. by rewrite !Hz.
  - rewrite decide_False by (by rewrite !Hz). f_equal.
    rewrite !sqrt_div_alt by done.
    assert (Hs : sqrt n1 * sqrt n1 = n1) by (apply sqrt_sqrt; lra).
    assert (Hs0 : 0 < sqrt n1) by (by apply sqrt_lt_R0).
    assert (Ha : 0 < sqrt (sq_dev xs)) by (apply sqrt_lt_R0; lra).
    assert (Hb : 0 < sqrt (sq_dev ys)) by (apply sqrt_lt_R0; lra).
    revert Hs Hs0 Ha Hb.
    generalize (sqrt n1) (sqrt (sq_dev xs)) (sqrt (sq_dev ys))
               (Np.dot (Np.dev xs) (Np.dev ys)).
    intros s a b d Hs Hs0 Ha Hb. rewrite <- Hs. field. lra.
Qed.

(** The weight the code computes is the weight of the specification. *)
Lemma correlation_weight_pearson (xs ys : list R) :
  (2 <= length xs)%nat → length ys = length xs →
  correlation_weight xs ys = pearson_weight xs ys.
Proof.
  intros Hn Hlen. unfold correlation_weight, pearson_weight.
  assert (Hne : xs ≠ []) by (intros ->; simpl in Hn; lia).
  rewrite corrcoef_pearson by done.
  destruct (decide (sq_dev xs = 0)) as [H0|H0].
  - rewrite decide_True; [done|]. by apply std_zero_iff.
  - rewrite decide_False; [done|]. by rewrite std_zero_iff.
Qed.

(** A constant feature weighs 0, and so does every feature when all the
    labels agree (the correlation is then undefined). *)
Lemma pearson_weight_degenerate (xs ys : list R) (c : R) :
  (Forall (λ x, x = c) xs → pearson_weight xs ys = 0)
  ∧ (Forall (λ y, y = c) ys → pearson_weight xs ys = 0).
Proof.
  unfold pearson_weight, pearson. split; intros Hc.
  - by rewrite decide_True by (by apply (sq_dev_constant c)).
  - case_decide; [done|].
    by rewrite decide_True by (right; by apply (sq_dev_constant c)).
Qed.

End Pearson.

(** ** The learned weights *)

Section LearnedWeights.
Import RecommendationService.
Local Open Scope R_scope.

(** The seventeen feature names, in the order of [_extract_features]. *)
Definition feature_names : list string :=
  ["price"; "bedrooms"; "bathrooms"; "sqft"; "days_on_market";
   "preference_match"; "crime_score"; "school_score"; "walkability_score";
   "affordability_score"; "final_score"; "pro_count"; "con_count";
   "argument_balance"; "is_house"; "is_condo"; "is_townhouse"].

Lemma extract_features_dom (l : Listing) (r : FinalReport) :
  dom (_extract_features l r) = list_to_set feature_names.
Proof. unfold _extract_features. cbn zeta. by rewrite dom_list_to_map_L. Qed.

(** The loop that fills the weight dictionary. *)
Lemma fold_weights (g : nat → R) (names : list string) :
  NoDup names →
  let W := foldl (λ (weights : gmap string R) '(i, feature_name),
                    <[feature_name := g i]> weights)
             ∅ (imap (λ i n, (i, n)) names) in
  dom W = list_to_set names
  ∧ ∀ i n, names !! i = Some n → W !! n = Some (g i).
Proof.
  induction names as [|x names IH] using rev_ind; intros Hnd W.
  - split; [subst W; simpl; set_solver|]. intros i n Hi. done.
  - apply NoDup_app in Hnd as (Hnd & Hx & _).
    destruct (IH Hnd) as [Hdom Hlook]. clear IH.
    subst W. rewrite imap_app, foldl_app. cbn [imap foldl].
    rewrite Nat.add_0_r. split.
    + rewrite dom_insert_L, Hdom, list_to_set_app_L. simpl. set_solver.
    + intros i n Hi.
      destruct (decide (i < length names)%nat) as [Hlt|Hge].
      * rewrite lookup_app_l in Hi by done.
        rewrite lookup_insert_ne; [by apply Hlook|].
        intros <-. apply (Hx x); [|left]. by eapply list_elem_of_lookup_2.
      * rewrite lookup_app_r in Hi by lia.
        destruct (i - length names)%nat eqn:E; [|by destruct n0].
        injection Hi as <-. replace i with (length names) by lia.
        by rewrite lookup_insert_eq.
Qed.

(** The matrix exists when every vector has every name, and its columns
    hold the values of the features across the vectors. *)
Lemma feature_matrix_columns (names : list string)
    (fvs : list (gmap string R)) :
  (∀ fv n, fv ∈ fvs → n ∈ names → is_Some (fv !! n)) →
  ∃ X, feature_matrix names fvs = Some X
       ∧ ∀ i n, names !! i = Some n →
                Forall2 (λ fv x, fv !! n = Some x) fvs (column X i).
Proof.
  unfold feature_matrix. induction fvs as [|fv fvs IH]; intros Hall.
  - exists []. split; [done|]. intros. constructor.
  - destruct IH as (X & HX & Hcols).
    { intros fv' n Hfv Hn. apply Hall; [by right|done]. }
    assert (Hrow : is_Some (mapM (λ fname, fv !! fname) names)).
    { apply mapM_is_Some, Forall_forall. intros n Hn. apply Hall; [left|done]. }
    destruct Hrow as [row Hrow].
    exists (row :: X). split.
    + apply mapM_Some. constructor; [exact Hrow | by apply mapM_Some].
    + intros i n Hi. cbn [column map]. constructor; [|by apply Hcols].
      apply mapM_Some in Hrow.
      destruct (Forall2_lookup_l _ _ _ _ _ Hrow Hi) as (v & Hv & Hfv).
      by rewrite (nth_lookup_Some _ _ _ _ Hv).
Qed.

Lemma Forall2_functional {A B} (P : A → B → Prop) (l : list A) (k k' : list B) :
  (∀ a b b', P a b → P a b' → b = b') →
  Forall2 P l k → Forall2 P l k' → k = k'.
Proof.
  intros Hfun H. revert k'. induction H as [|a b l k Hab _ IH]; intros k' H'.
  - by inversion H'.
  - inversion H' as [|? b' ? k'' Hab' Hk'']; subst.
    f_equal; [by eapply Hfun | by apply IH].
Qed.

(** What [_calculate_feature_weights] returns for vectors over the same
    names: one weight per name, the Pearson weight of the feature's values
    against the labels. *)
Lemma calculate_feature_weights_spec (fv0 : gmap string R)
    (rest : list (gmap string R)) (labels : list R) :
  (∀ fv, fv ∈ fv0 :: rest → dom fv = dom fv0) →
  (2 <= length (fv0 :: rest))%nat →
  length labels = length (fv0 :: rest) →
  ∃ W, _calculate_feature_weights (fv0 :: rest) labels = Some W
       ∧ dom W = dom fv0
       ∧ ∀ f, f ∈ dom fv0 →
           ∃ xs, Forall2 (λ fv x, fv !! f = Some x) (fv0 :: rest) xs
                 ∧ W !! f = Some (pearson_weight xs labels).
Proof.
  intros Hdom Hn Hlen.
  set (names := (map_to_list fv0).*1).
  assert (Hnames : ∀ n, n ∈ names ↔ n ∈ dom fv0).
  { intros n. unfold names. rewrite elem_of_dom, list_elem_of_fmap. split.
    - intros ([k v] & -> & Hkv). apply elem_of_map_to_list in Hkv. by eexists.
    - intros [v Hv]. exists (n, v). split; [done|].
      by apply elem_of_map_to_list. }
  destruct (feature_matrix_columns names (fv0 :: rest)) as (X & HX & Hcols).
  { intros fv n Hfv Hn'. apply elem_of_dom. rewrite (Hdom fv Hfv).
    by apply Hnames. }
  unfold _calculate_feature_weights. fold names. rewrite HX.
  destruct (fold_weights (λ i, correlation_weight (column X i) labels) names)
    as [HWdom HWlook]; [apply NoDup_fst_map_to_list|].
  eexists. split; [reflexivity|]. split.
  - rewrite HWdom. apply set_eq. intros n.
    rewrite elem_of_list_to_set. apply Hnames.
  - intros f Hf. apply Hnames in Hf.
    apply list_elem_of_lookup_1 in Hf as [i Hi].
    exists (column X i). split; [by apply Hcols|].
    rewrite (HWlook i f Hi). f_equal.
    pose proof (Forall2_length _ _ _ (Hcols i f Hi)) as Hcl.
    apply correlation_weight_pearson; [by rewrite <- Hcl | congruence].
Qed.

End LearnedWeights.

Section WeightUpdate.
Import RecommendationService.
Local Open Scope R_scope.

(** The labels of a list of stored events. *)
Definition event_labels
    (events : list (string * (FeedbackDocument * FeedbackMetadata)))
  : list R :=
  map (λ e, label (meta_action e.2.2)) events.

(** The values of a feature across stored events. *)
Definition feature_values (f : string)
    (events : list (string * (FeedbackDocument * FeedbackMetadata)))
    (xs : list R) : Prop :=
  Forall2 (λ e x, features e.2.1 !! f = Some x) events xs.

Lemma update_weights_spec (sid : string) (st : Stores) :
  let events := get_where_session sid (feedback_collection st) in
  (2 <= length events)%nat →
  (∀ e, e ∈ events → dom (features e.2.1) = list_to_set feature_names) →
  ∃ W,
    _update_preference_weights sid st
    = Some {| feedback_collection := feedback_collection st;
              preference_weights_collection :=
                <[sid := {| w_session_id := sid; weights := W;
                            sample_size := length events |}]>
                  (preference_weights_collection st) |}
    ∧ dom W = list_to_set feature_names
    ∧ ∀ f, f ∈ feature_names →
        ∃ xs, feature_values f events xs
              ∧ W !! f = Some (pearson_weight xs (event_labels events)).
Proof.
  intros events Hn Hdom.
  unfold _update_preference_weights. cbn zeta. fold events.
  rewrite decide_False by lia.
  destruct events as [|e0 events'] eqn:He; [simpl in Hn; lia|].
  rewrite <- He in *.
  set (fvs := map (λ e, features e.2.1) events).
  set (labels := map (λ e, label (meta_action e.2.2)) events).
  assert (Hfvs : fvs = features e0.2.1 :: map (λ e, features e.2.1) events')
    by (subst fvs; by rewrite He).
  destruct (calculate_feature_weights_spec (features e0.2.1)
              (map (λ e, features e.2.1) events') labels)
    as (W & HW & HWdom & HWf).
  - rewrite <- Hfvs. intros fv Hfv. subst fvs.
    apply list_elem_of_fmap in Hfv as (e & -> & Hein).
    rewrite (Hdom e Hein). symmetry. apply Hdom. rewrite He. left.
  - rewrite <- Hfvs. subst fvs. by rewrite length_map.
  - rewrite <- Hfvs. subst fvs labels. by rewrite !length_map.
  - rewrite <- Hfvs in HW, HWf. exists W. rewrite HW.
    split; [subst labels; by rewrite length_map|].
    assert (Hd0 : dom (features e0.2.1) = list_to_set feature_names).
    { apply Hdom. rewrite He. left. }
    split; [by rewrite HWdom|].
    intros f Hf. destruct (HWf f) as (xs & Hxs & HWl).
    { rewrite Hd0. by apply elem_of_list_to_set. }
    exists xs. split; [|exact HWl].
    unfold feature_values. subst fvs. by apply Forall2_fmap_l in Hxs.
Qed.


End WeightUpdate.


(** Two samples: the deviations and the weight. *)

Section TwoEvents.
Import RecommendationService.
Local Open Scope R_scope.

Lemma sq_dev_two (x1 x2 : R) : sq_dev [x1; x2] = (x1 - x2) * (x1 - x2) / 2.
Proof.
  unfold sq_dev, Np.dev, Np.mean, Np.sum. cbn [map length foldr INR]. field.
Qed.

Lemma dot_dev_two (x1 x2 y1 y2 : R) :
  Np.dot (Np.dev [x1; x2]) (Np.dev [y1; y2]) = (x1 - x2) * (y1 - y2) / 2.
Proof.
  unfold Np.dot, Np.dev, Np.mean, Np.sum.
  cbn [map length foldr INR zip_with]. field.
Qed.

Lemma pearson_weight_two (x1 x2 s : R) :
  x1 ≠ x2 → s * s = 1 →
  pearson_weight [x1; x2] [s; - s] = if Rlt_dec x2 x1 then s else - s.
Proof.
  intros Hx Hs. unfold pearson_weight, pearson.
  rewrite dot_dev_two, !sq_dev_two.
  assert (Hd : 0 < (x1 - x2) * (x1 - x2)) by nra.
  assert (Hy : (s - - s) * (s - - s) / 2 = 2) by nra.
  rewrite Hy.
  rewrite decide_False by lra. rewrite decide_False by lra.
  rewrite <- sqrt_mult by lra.
  replace ((x1 - x2) * (x1 - x2) / 2 * 2) with (Rsqr (x1 - x2))
    by (unfold Rsqr; field).
  rewrite sqrt_Rsqr_abs.
  destruct (Rlt_dec x2 x1) as [Hlt|Hge].
  - rewrite Rabs_right by lra. field. lra.
  - rewrite Rabs_left by lra. field. lra.
Qed.

End TwoEvents.

Lemma two_entries_events (sid : string)
    (m : gmap string (FeedbackDocument * FeedbackMetadata))
    (k1 k2 : string) (e1 e2 : FeedbackDocument * FeedbackMetadata) :
  k1 ≠ k2 → m !! k1 = Some e1 → m !! k2 = Some e2 →
  meta_session_id e1.2 = sid → meta_session_id e2.2 = sid →
  (2 <= length (get_where_session sid m))%nat.
Proof.
  intros Hne H1 H2 Hs1 Hs2.
  assert (Hsub : [(k1, e1); (k2, e2)] ⊆+ get_where_session sid m).
  { apply NoDup_submseteq.
    - apply NoDup_cons. split; [|apply NoDup_singleton].
      intros Hin%list_elem_of_singleton. congruence.
    - intros x Hx. unfold get_where_session. apply list_elem_of_filter.
      apply elem_of_cons in Hx as [->|Hx];
        [|apply list_elem_of_singleton in Hx as ->];
        (split; [done | by apply elem_of_map_to_list]). }
  by apply submseteq_length in Hsub.
Qed.








Lemma scored_features :
  "final_score" ∈ feature_names ∧ "price" ∈ feature_names.
Proof. split; apply (bool_decide_unpack _); by vm_compute. Qed.


(** * Further properties of the code *)

(** ** The descending sort: fixed points and keys *)

Section SortedDescMore.
Import Search.
Context {A : Type}.

Lemma insert_desc_head (key : A → R) (x : A) (l : list A) :
  Forall (λ y, (key y <= key x)%R) l → insert_desc key x l = x :: l.
Proof.
  destruct l as [|y l]; [done|]. intros [Hy _]%Forall_cons. simpl.
  destruct (Rlt_dec (key x) (key y)); [lra|done].
Qed.

(** A list in descending order is left as it is. *)
Lemma sorted_desc_fixed (key : A → R) (l : list A) :
  StronglySorted (key_ge key) l → sorted_desc key l = l.
Proof.
  unfold sorted_desc. induction 1 as [|x l _ IH Hx]; [done|].
  cbn [foldr]. rewrite IH. by apply insert_desc_head.
Qed.

Lemma sorted_desc_idem (key : A → R) (l : list A) :
  sorted_desc key (sorted_desc key l) = sorted_desc key l.
Proof. apply sorted_desc_fixed, sorted_desc_sorted. Qed.

(** Two keys that compare the elements alike sort them alike. *)
Lemma insert_desc_ext (k1 k2 : A → R) (x : A) (l : list A) :
  (∀ y, y ∈ l → (k1 x < k1 y)%R ↔ (k2 x < k2 y)%R) →
  insert_desc k1 x l = insert_desc k2 x l.
Proof.
  induction l as [|y l IH]; intros H; [done|]. simpl.
  pose proof (H y ltac:(left)) as Hy.
  destruct (Rlt_dec (k1 x) (k1 y)), (Rlt_dec (k2 x) (k2 y)); try tauto.
  f_equal. apply IH. intros z Hz. apply H. by right.
Qed.

Lemma sorted_desc_ext (k1 k2 : A → R) (l : list A) :
  (∀ x y, x ∈ l → y ∈ l → (k1 x < k1 y)%R ↔ (k2 x < k2 y)%R) →
  sorted_desc k1 l = sorted_desc k2 l.
Proof.
  unfold sorted_desc. induction l as [|x l IH]; intros H; [done|].
  cbn [foldr]. rewrite IH by (intros; apply H; by right).
  apply insert_desc_ext. intros y Hy. apply H; [left|right].
  fold (sorted_desc k2 l) in Hy. by rewrite sorted_desc_perm in Hy.
Qed.

(** Sorting the pairs (key, element) on the key and dropping the key is
    sorting the elements on the key. *)
Lemma insert_desc_decorated (key : A → R) (x : A) (l : list A) :
  insert_desc fst (key x, x) (map (λ a, (key a, a)) l)
  = map (λ a, (key a, a)) (insert_desc key x l).
Proof.
  induction l as [|y l IH]; [done|]. cbn [map insert_desc fst].
  destruct (Rlt_dec (key x) (key y)); [|done]. cbn [map]. by rewrite IH.
Qed.

Lemma sorted_desc_decorated (key : A → R) (l : list A) :
  map snd (sorted_desc fst (map (λ a, (key a, a)) l)) = sorted_desc key l.
Proof.
  assert (H : sorted_desc fst (map (λ a, (key a, a)) l)
              = map (λ a, (key a, a)) (sorted_desc key l)).
  { unfold sorted_desc. induction l as [|x l IH]; [done|].
    cbn [map foldr]. rewrite IH. apply insert_desc_decorated. }
  rewrite H, map_map. cbn [snd]. apply map_id.
Qed.

End SortedDescMore.

(** ** Ranking with learned weights *)

Section RankingOrder.
Import Search RecommendationService.
Local Open Scope R_scope.

(** The personalised score of a report under a weight map. *)
Definition report_score (ws : gmap string R) (report : FinalReport) : R :=
  _calculate_personalized_score
    (_extract_features (listing report) report) ws.

Lemma ranked_with_weights (session_id : string) (reports : list FinalReport)
    (st : Stores) (ws : gmap string R) :
  _get_preference_weights session_id st = Some ws → ws ≠ ∅ →
  get_ranked_listings session_id reports st
  = sorted_desc (report_score ws) reports.
Proof.
  intros Hws Hne. unfold get_ranked_listings. rewrite Hws.
  rewrite decide_False by done. cbn zeta.
  apply (sorted_desc_decorated (report_score ws)).
Qed.

Lemma ranked_base (session_id : string) (reports : list FinalReport)
    (st : Stores) :
  (_get_preference_weights session_id st = None
   ∨ _get_preference_weights session_id st = Some ∅) →
  get_ranked_listings session_id reports st
  = sorted_desc final_score reports.
Proof.
  unfold get_ranked_listings. intros [->| ->]; [done|].
  by rewrite decide_True.
Qed.

Lemma weighted_sum_zero (fs ws : gmap string R) :
  (∀ f w, ws !! f = Some w → w = 0) → weighted_sum fs ws = 0.
Proof.
  intros Hz. induction fs as [|k v fs Hk IH] using map_ind.
  - apply weighted_sum_empty.
  - rewrite weighted_sum_insert by done. rewrite IH.
    destruct (ws !! k) as [w|] eqn:Hw; [|done].
    rewrite (Hz k w Hw). lra.
Qed.

(** With all weights zero, the personalised score of a report whose final
    score lies in [0,10] is 0.7 * final_score + 1.5. *)
Lemma report_score_zero_weights (ws : gmap string R) (report : FinalReport) :
  (∀ f w, ws !! f = Some w → w = 0) →
  0 <= final_score report <= 10 →
  report_score ws report = 0.7 * final_score report + 1.5.
Proof.
  intros Hz Hfs. unfold report_score, _calculate_personalized_score.
  rewrite extract_features_final_score, weighted_sum_zero by done.
  cbn [default from_option Datatypes.id].
  change (Rmax 0 (Rmin 10 ?x)) with (clamp 0 10 x).
  rewrite clamp_id; lra.
Qed.

End RankingOrder.

(** X1.  With learned weights, [get_ranked_listings] returns the reports in
    descending order of their personalised score, reports with equal
    scores in their input order; without weights (none stored, or an empty
    map) the order is by final score.  In both cases nothing is dropped or
    duplicated, and ranking a ranked list again changes nothing. *)
Theorem ranked_listings_sorted_stable (session_id : string)
    (reports : list FinalReport) (st : Stores) :
  let ranked := get_ranked_listings session_id reports st in
  ranked ≡ₚ reports
  ∧ get_ranked_listings session_id ranked st = ranked
  ∧ (∀ ws : gmap string R,
       _get_preference_weights session_id st = Some ws → ws ≠ ∅ →
       StronglySorted (key_ge (report_score ws)) ranked
       ∧ ∀ v : R, filter (λ r, report_score ws r = v) ranked
                  = filter (λ r, report_score ws r = v) reports)
  ∧ ((_get_preference_weights session_id st = None
      ∨ _get_preference_weights session_id st = Some ∅) →
     StronglySorted (key_ge final_score) ranked
     ∧ ∀ v : R, filter (λ r, final_score r = v) ranked
                = filter (λ r, final_score r = v) reports).
Proof.
  intros ranked. split; [apply ranked_perm|]. split; [|split].
  - unfold ranked.
    destruct (_get_preference_weights session_id st) as [ws|] eqn:Hws.
    + destruct (decide (ws = ∅)) as [->|Hne].
      * rewrite !(ranked_base session_id _ st) by (by right).
        apply sorted_desc_idem.
      * rewrite !(ranked_with_weights session_id _ st ws) by done.
        apply sorted_desc_idem.
    + rewrite !(ranked_base session_id _ st) by (by left).
      apply sorted_desc_idem.
  - intros ws Hws Hne. unfold ranked.
    rewrite (ranked_with_weights session_id _ st ws) by done.
    split; [apply sorted_desc_sorted | intros v; apply sorted_desc_stable].
  - intros Hnone. unfold ranked. rewrite ranked_base by done.
    split; [apply sorted_desc_sorted | intros v; apply sorted_desc_stable].
Qed.

(** ** Recording feedback on a store whose documents carry all features *)

Section RecordFeedback.
Import RecommendationService.
Local Open Scope R_scope.

(** Every stored document carries the seventeen features. *)
Definition features_complete (st : Stores) : Prop :=
  ∀ k e, feedback_collection st !! k = Some e →
         dom (features e.1) = list_to_set feature_names.

Lemma features_complete_empty : features_complete empty_stores.
Proof. intros k e. unfold empty_stores. simpl. by rewrite lookup_empty. Qed.

(** The store [record_feedback] hands to the weight update. *)
Definition upserted (feedback : FeedbackRequest) (l : Listing)
    (final_report : FinalReport) (st : Stores) : Stores :=
  {| feedback_collection :=
       <[feedback_id (fb_session_id feedback) (fb_listing_id feedback) :=
           (feedback_document feedback l final_report,
            feedback_metadata feedback l final_report)]>
         (feedback_collection st);
     preference_weights_collection := preference_weights_collection st |}.

Lemma upserted_complete (feedback : FeedbackRequest) (l : Listing)
    (final_report : FinalReport) (st : Stores) :
  features_complete st →
  features_complete (upserted feedback l final_report st).
Proof.
  intros Hc k e. cbn [upserted feedback_collection].
  destruct (decide (feedback_id (fb_session_id feedback)
                      (fb_listing_id feedback) = k)) as [<-|Hne].
  - rewrite lookup_insert_eq. intros [= <-]. apply extract_features_dom.
  - rewrite lookup_insert_ne by done. apply Hc.
Qed.

(** What one call of [record_feedback] does on such a store: it returns,
    the event is upserted, and the weights of the session are either left
    alone (fewer than two events) or rebuilt from the session's events. *)
Lemma record_feedback_complete (feedback : FeedbackRequest) (l : Listing)
    (final_report : FinalReport) (st : Stores) :
  features_complete st →
  let st1 := upserted feedback l final_report st in
  let sid := fb_session_id feedback in
  let events := get_where_session sid (feedback_collection st1) in
  let result := record_feedback feedback l final_report st in
  result.2 = true
  ∧ feedback_collection result.1 = feedback_collection st1
  ∧ features_complete result.1
  ∧ (((length events < 2)%nat
      ∧ preference_weights_collection result.1
        = preference_weights_collection st)
     ∨ ((2 <= length events)%nat
        ∧ ∃ W, preference_weights_collection result.1
               = <[sid := {| w_session_id := sid; weights := W;
                             sample_size := length events |}]>
                   (preference_weights_collection st)
               ∧ dom W = list_to_set feature_names
               ∧ ∀ f, f ∈ feature_names →
                   ∃ xs, feature_values f events xs
                         ∧ W !! f
                           = Some (pearson_weight xs (event_labels events)))).
Proof.
  intros Hc st1 sid events result.
  pose proof (upserted_complete feedback l final_report st Hc) as Hc1.
  fold st1 in Hc1.
  assert (Hres : result = match _update_preference_weights sid st1 with
                          | Some st2 => (st2, true)
                          | None => (st1, false)
                          end) by reflexivity.
  destruct (decide (length events < 2)%nat) as [Hlt|Hge].
  - assert (Hup : _update_preference_weights sid st1 = Some st1).
    { unfold _update_preference_weights. cbn zeta. fold events.
      by rewrite decide_True. }
    rewrite Hup in Hres. rewrite Hres. cbn [fst snd].
    split; [done|]. split; [done|]. split; [done|]. left. by split.
  - destruct (update_weights_spec sid st1) as (W & HW & HWdom & HWf).
    { fold events. lia. }
    { intros e He. unfold get_where_session in He.
      apply list_elem_of_filter in He as [_ He]. destruct e as [k v].
      apply elem_of_map_to_list in He. by apply (Hc1 k v). }
    fold events in HW, HWf. rewrite HW in Hres. rewrite Hres. cbn [fst snd].
    split; [done|]. split; [done|]. split; [exact Hc1|].
    right. split; [lia|]. exists W. by split.
Qed.

(** The stores reached from the empty collections by any sequence of
    calls carry all features. *)
Lemma replay_complete (calls : list FeedbackCall) :
  features_complete (replay calls).
Proof.
  intros k e Hk. destruct (replay_entries _ _ _ Hk) as (c & _ & _ & ->).
  apply extract_features_dom.
Qed.

(** The weights stored for a session whose calls all carry the same
    action are zero. *)
Lemma replay_one_sided (calls : list FeedbackCall) (sid : string)
    (a : Action) :
  (∀ c, c ∈ calls → call_session c = sid → action c.1.1 = a) →
  ∀ doc, preference_weights_collection (replay calls) !! sid = Some doc →
         dom (weights doc) = list_to_set feature_names
         ∧ ∀ f w, weights doc !! f = Some w → w = 0.
Proof.
  induction calls as [|c calls IH] using rev_ind; intros Hact doc.
  - unfold replay. simpl. by rewrite lookup_empty.
  - assert (Hact' : ∀ c', c' ∈ calls → call_session c' = sid
                          → action c'.1.1 = a).
    { intros c' Hin. apply Hact, elem_of_app. by left. }
    specialize (IH Hact').
    pose proof (replay_snoc calls c) as Hsnoc. unfold record_call in Hsnoc.
    destruct (record_feedback_complete c.1.1 c.1.2 c.2 (replay calls)
                (replay_complete calls))
      as (_ & Hfb & _ & [[_ Hsame]|[_ (W & HW & HWdom & HWf)]]);
      rewrite <- Hsnoc in *.
    + rewrite Hsame. apply IH.
    + rewrite HW.
      destruct (decide (fb_session_id c.1.1 = sid)) as [Hsid|Hne];
        [|rewrite lookup_insert_ne by done; apply IH].
      rewrite Hsid. rewrite lookup_insert_eq. intros [= <-].
      cbn [weights]. split; [exact HWdom|]. intros f w Hw.
      assert (Hf : f ∈ feature_names).
      { apply (elem_of_list_to_set (C := gset string)). rewrite <- HWdom.
        apply elem_of_dom. by eexists. }
      destruct (HWf f Hf) as (xs & _ & Hwf). rewrite Hwf in Hw.
      injection Hw as <-.
      apply (pearson_weight_degenerate xs _ (label a)).
      unfold event_labels. apply Forall_fmap, Forall_forall.
      intros [k e] He. cbn [compose snd]. f_equal.
      unfold get_where_session in He.
      apply list_elem_of_filter in He as [Hs He]. cbn [snd] in Hs.
      apply elem_of_map_to_list in He.
      change (feedback_collection (upserted c.1.1 c.1.2 c.2 (replay calls))
              !! k = Some e) in He.
      rewrite <- Hfb in He.
      destruct (replay_entries _ _ _ He) as (c' & Hin & _ & ->).
      cbn [snd feedback_metadata meta_action meta_session_id] in *.
      apply Hact; [done|]. unfold call_session. congruence.
Qed.

End RecordFeedback.

(** X2.  A session whose feedback is one-sided (every call of the session
    carries the same action) learns nothing: on the stores reached from the
    empty collections, a weight document stored for the session holds the
    seventeen features and every weight in it is zero, and reports whose
    final scores lie in [0,10] are ranked exactly as without learning, by
    final score with ties in input order. *)
Theorem one_sided_feedback_keeps_base_ranking (calls : list FeedbackCall)
    (session_id : string) (a : Action) (reports : list FinalReport)
    (Hact : ∀ c, c ∈ calls → call_session c = session_id → action c.1.1 = a)
    (Hscores : ∀ r, r ∈ reports → (0 <= final_score r <= 10)%R) :
  (∀ doc, preference_weights_collection (replay calls) !! session_id
          = Some doc →
          dom (weights doc) = list_to_set feature_names
          ∧ ∀ f, f ∈ feature_names → weights doc !! f = Some 0%R)
  ∧ (∀ W, _get_preference_weights session_id (replay calls) = Some W →
          ∀ f w, W !! f = Some w → w = 0%R)
  ∧ get_ranked_listings session_id reports (replay calls)
    = sorted_desc final_score reports.
Proof.
  assert (Hzero : ∀ doc,
            preference_weights_collection (replay calls) !! session_id
            = Some doc →
            dom (weights doc) = list_to_set feature_names
            ∧ ∀ f w, weights doc !! f = Some w → w = 0%R)
    by (intros doc; by apply (replay_one_sided calls session_id a)).
  split; [|split].
  - intros doc Hdoc. destruct (Hzero doc Hdoc) as [Hdom Hz].
    split; [exact Hdom|]. intros f Hf.
    assert (Hin : f ∈ dom (weights doc))
      by (rewrite Hdom; by apply elem_of_list_to_set).
    apply elem_of_dom in Hin as [w Hw]. by rewrite Hw, (Hz f w Hw).
  - intros W HW. unfold _get_preference_weights in HW.
    destruct (preference_weights_collection (replay calls) !! session_id)
      as [doc|] eqn:Hdoc; [|done].
    injection HW as <-. by apply (Hzero doc).
  - destruct (_get_preference_weights session_id (replay calls))
      as [ws|] eqn:Hws; [|apply ranked_base; by left].
    destruct (decide (ws = ∅)) as [->|Hne]; [apply ranked_base; by right|].
    rewrite (ranked_with_weights _ _ _ ws) by done.
    unfold _get_preference_weights in Hws.
    destruct (preference_weights_collection (replay calls) !! session_id)
      as [doc|] eqn:Hdoc; [|done].
    injection Hws as <-.
    destruct (Hzero doc eq_refl) as [_ Hz].
    apply sorted_desc_ext. intros x y Hx Hy.
    rewrite !report_score_zero_weights by auto. split; lra.
Qed.

(** Two likes for two listings: the weights stored for the session are the
    seventeen zeros, so the weighted branch of the ranking is taken, and
    the ranking is still by final score. *)
Definition then_like : FeedbackCall :=
  (feedback_request "s-1" "z2" like, Fixtures.house "z2" "2 Oak St",
   report_second).

Lemma two_likes_weights :
  is_Some (preference_weights_collection (replay (one_like ++ [then_like]))
           !! "s-1").
Proof.
  destruct (record_feedback_complete then_like.1.1 then_like.1.2
              then_like.2 (replay one_like) (replay_complete one_like))
    as (_ & _ & _ & [[Hlt _]|[_ (W & HW & _)]]).
  - exfalso. revert Hlt. apply Nat.le_ngt.
    unfold upserted, one_like. cbn [feedback_collection].
    change [?x] with ([] ++ [x]).
    rewrite replay_snoc, record_call_feedback.
    eapply (two_entries_events _ _ (feedback_id "s-1" "z1")
              (feedback_id "s-1" "z2")).
    + discriminate.
    + rewrite lookup_insert_ne by discriminate. apply lookup_insert_eq.
    + apply lookup_insert_eq.
    + reflexivity.
    + reflexivity.
  - rewrite replay_snoc. unfold record_call.
    rewrite HW. rewrite lookup_insert_eq. by eexists.
Qed.

Lemma one_sided_feedback_witness :
  (∃ doc, preference_weights_collection (replay (one_like ++ [then_like]))
          !! "s-1" = Some doc
          ∧ dom (weights doc) = list_to_set feature_names
          ∧ weights doc !! "price" = Some 0%R
          ∧ weights doc !! "final_score" = Some 0%R
          ∧ weights doc ≠ ∅)
  ∧ get_ranked_listings "s-1" [report_first; report_second]
      (replay (one_like ++ [then_like]))
    = sorted_desc final_score [report_first; report_second].
Proof.
  assert (Hact : ∀ c, c ∈ one_like ++ [then_like] → call_session c = "s-1"
                      → action c.1.1 = like).
  { intros c Hc _. unfold one_like in Hc.
    apply elem_of_cons in Hc as [->|Hc]; [reflexivity|].
    apply list_elem_of_singleton in Hc as ->. reflexivity. }
  assert (Hscores : ∀ r, r ∈ [report_first; report_second]
                         → (0 <= final_score r <= 10)%R).
  { intros r Hr.
    apply elem_of_cons in Hr as [->|Hr];
      [|apply list_elem_of_singleton in Hr as ->]; cbn; lra. }
  destruct (one_sided_feedback_keeps_base_ranking (one_like ++ [then_like])
              "s-1" like [report_first; report_second] Hact Hscores)
    as (Hdoc & _ & Hranked).
  split; [|exact Hranked].
  destruct two_likes_weights as [doc Hsome].
  destruct (Hdoc doc Hsome) as [Hdom Hz].
  exists doc. split; [exact Hsome|]. split; [exact Hdom|].
  split; [apply Hz, scored_features|].
  split; [apply Hz, scored_features|].
  intros Hempty. rewrite Hempty in Hz.
  specialize (Hz "price" (proj2 scored_features)).
  by rewrite lookup_empty in Hz.
Defined.

(** ** The endpoints of api/search.py *)

Section Endpoints.
Import Search RecommendationService SearchApi.

Lemma completed_session_Return (msg session_id : string) (st : ApiState)
    (session : SearchSession) :
  search_sessions st !! session_id = Some session →
  status session = complete →
  completed_session msg session_id st = Return session.
Proof. unfold completed_session. by intros -> ->. Qed.

Lemma completed_session_400 (msg session_id : string) (st : ApiState)
    (session : SearchSession) :
  search_sessions st !! session_id = Some session →
  status session ≠ complete →
  completed_session msg session_id st = HTTPException 400 msg.
Proof.
  unfold completed_session. intros -> Hs. by destruct (status session).
Qed.

Lemma completed_session_404 (msg session_id : string) (st : ApiState) :
  search_sessions st !! session_id = None →
  completed_session msg session_id st
  = HTTPException 404 "Search session not found".
Proof. unfold completed_session. by intros ->. Qed.

Lemma find_report_Some (listing_id : string) (reports : list FinalReport)
    (report : FinalReport) :
  find_report listing_id reports = Some report →
  ∃ before after,
    reports = before ++ report :: after
    ∧ id (listing report) = listing_id
    ∧ Forall (λ r, id (listing r) ≠ listing_id) before.
Proof.
  induction reports as [|r rest IH]; [done|]. simpl.
  case_decide as Hid.
  - intros [= <-]. exists [], rest. by repeat split.
  - intros (before & after & -> & Hr & Hb)%IH.
    exists (r :: before), after. repeat split; [done|]. by constructor.
Qed.

Lemma find_report_None (listing_id : string) (reports : list FinalReport) :
  find_report listing_id reports = None
  ↔ Forall (λ r, id (listing r) ≠ listing_id) reports.
Proof.
  induction reports as [|r rest IH]; simpl; [by split; [constructor|]|].
  case_decide as Hid.
  - split; [done|]. by intros [? _]%Forall_cons.
  - rewrite IH, Forall_cons. tauto.
Qed.

Lemma mark_seen_same (session_id listing_id : string)
    (seen : gmap string (list string)) :
  mark_seen session_id listing_id seen !! session_id
  = Some (let l := default [] (seen !! session_id) in
          if decide (listing_id ∈ l) then l else l ++ [listing_id]).
Proof.
  unfold mark_seen. cbn zeta.
  destruct (seen !! session_id) as [l|] eqn:Hl.
  - rewrite Hl. cbn [default from_option Datatypes.id].
    case_decide; [done | by rewrite lookup_insert_eq].
  - rewrite lookup_insert_eq. cbn [default from_option Datatypes.id].
    rewrite decide_False by (by intros ?%elem_of_nil).
    by rewrite lookup_insert_eq.
Qed.

Lemma mark_seen_other (session_id listing_id other : string)
    (seen : gmap string (list string)) :
  other ≠ session_id →
  default [] (mark_seen session_id listing_id seen !! other)
  = default [] (seen !! other).
Proof.
  intros Hne. unfold mark_seen. cbn zeta.
  destruct (seen !! session_id) as [l|] eqn:Hl.
  - rewrite Hl. cbn [default from_option Datatypes.id].
    case_decide; [done | by rewrite lookup_insert_ne].
  - rewrite lookup_insert_eq. cbn [default from_option Datatypes.id].
    rewrite decide_False by (by intros ?%elem_of_nil).
    by rewrite !lookup_insert_ne.
Qed.

(** The ids a session has marked as seen. *)
Definition seen_of (session_id : string) (st : ApiState) : list string :=
  default [] (seen_listings st !! session_id).

(** The final reports of a session, as the feedback endpoints read them. *)
Definition reports_of (session_id : string) (st : ApiState)
  : list FinalReport :=
  match search_sessions st !! session_id with
  | Some session => default [] (final_reports session)
  | None => []
  end.

(** The reports of a session still unseen. *)
Definition unseen_of (session_id : string) (st : ApiState)
  : list FinalReport :=
  filter (λ r, id (listing r) ∉ seen_of session_id st)
         (reports_of session_id st).

End Endpoints.

Section EndpointErrors.
Import Search RecommendationService SearchApi.

(** X3.  The endpoints answer 404 for an unknown search session and, with the
    exception of the insights endpoint, 400 for a session whose status is
    not complete (pending, scraping, evaluating or error); a refused
    feedback leaves the stored state as it was.  The insights endpoint
    answers for every known session, whatever its status. *)
Theorem endpoints_refuse_incomplete_sessions (session_id : string)
    (st : ApiState) (request : FeedbackRequest) :
  (search_sessions st !! session_id = None →
   get_search_results session_id st
     = HTTPException 404 "Search session not found"
   ∧ get_evaluated_results session_id st
     = HTTPException 404 "Search session not found"
   ∧ get_final_results session_id st
     = HTTPException 404 "Search session not found"
   ∧ get_ranked_results session_id st
     = HTTPException 404 "Search session not found"
   ∧ get_next_listing session_id st
     = HTTPException 404 "Search session not found"
   ∧ get_learning_insights session_id st
     = HTTPException 404 "Search session not found"
   ∧ (fb_session_id request = session_id →
      submit_feedback request st
      = (st, HTTPException 404 "Search session not found")))
  ∧ (∀ session : SearchSession,
       search_sessions st !! session_id = Some session →
       get_learning_insights session_id st
       = Return (session_id,
                 Insights.get_learning_insights session_id (service st))
       ∧ (status session ≠ complete →
          get_search_results session_id st
            = HTTPException 400 "Search is not complete yet"
          ∧ get_evaluated_results session_id st
            = HTTPException 400 "Search is not complete yet"
          ∧ get_final_results session_id st
            = HTTPException 400 "Search is not complete yet"
          ∧ get_ranked_results session_id st
            = HTTPException 400 "Search not complete yet"
          ∧ get_next_listing session_id st
            = HTTPException 400 "Search not complete yet"
          ∧ (fb_session_id request = session_id →
             submit_feedback request st
             = (st, HTTPException 400 "Search not complete yet")))).
Proof.
  split.
  - intros Hnone.
    unfold get_search_results, get_evaluated_results, get_final_results,
      get_ranked_results, get_next_listing, get_learning_insights,
      submit_feedback.
    cbn zeta. rewrite !completed_session_404 by done. rewrite Hnone.
    repeat split. intros ->. by rewrite completed_session_404.
  - intros session Hsome. split.
    + unfold get_learning_insights. by rewrite Hsome.
    + intros Hstatus.
      unfold get_search_results, get_evaluated_results, get_final_results,
        get_ranked_results, get_next_listing, submit_feedback.
      cbn zeta. rewrite !(completed_session_400 _ _ _ session) by done.
      repeat split. intros ->.
      by rewrite (completed_session_400 _ _ _ session).
Qed.

(** X4.  Feedback for a listing that is not among the final reports of a
    complete session is answered 404 and changes nothing; otherwise the
    report used is the first one with the listing id. *)
Theorem submit_feedback_unknown_listing (request : FeedbackRequest)
    (st : ApiState) (session : SearchSession) :
  search_sessions st !! fb_session_id request = Some session →
  status session = complete →
  (Forall (λ r, id (listing r) ≠ fb_listing_id request)
          (default [] (final_reports session)) →
   submit_feedback request st
   = (st, HTTPException 404 "Listing not found in this session"))
  ∧ (∀ (before after : list FinalReport) (report : FinalReport),
       default [] (final_reports session) = before ++ report :: after →
       id (listing report) = fb_listing_id request →
       Forall (λ r, id (listing r) ≠ fb_listing_id request) before →
       feedback_collection (service (submit_feedback request st).1)
         !! feedback_id (fb_session_id request) (fb_listing_id request)
       = Some (feedback_document request (listing report) report,
               feedback_metadata request (listing report) report)).
Proof.
  intros Hsome Hstatus. unfold submit_feedback. cbn zeta.
  rewrite (completed_session_Return _ _ _ session) by done. split.
  - intros Hnone%find_report_None. by rewrite Hnone.
  - intros before after report Heq Hid Hbefore.
    assert (Hfind : find_report (fb_listing_id request)
                      (default [] (final_reports session)) = Some report).
    { rewrite Heq. clear Heq.
      induction before as [|b before IH]; simpl.
      - by rewrite decide_True.
      - apply Forall_cons in Hbefore as [Hb Hbefore].
        rewrite decide_False by done. by apply IH. }
    rewrite Hfind.
    assert (Hfb : feedback_collection
                    (record_feedback request (listing report) report
                       (service st)).1
                  = feedback_collection
                      (upserted request (listing report) report (service st))).
    { unfold record_feedback. cbn zeta.
      destruct (_update_preference_weights _ _) as [st2|] eqn:E; [|done].
      cbn [fst]. by rewrite (update_weights_feedback _ _ _ E). }
    destruct (record_feedback request (listing report) report (service st)).2;
      cbn [fst service]; rewrite Hfb; cbn [upserted feedback_collection];
      apply lookup_insert_eq.
Qed.

End EndpointErrors.

Section FeedbackFlow.
Import Search RecommendationService SearchApi.

Lemma get_where_session_elem (session_id : string)
    (coll : gmap string (FeedbackDocument * FeedbackMetadata))
    (k : string) (e : FeedbackDocument * FeedbackMetadata) :
  (k, e) ∈ get_where_session session_id coll
  ↔ meta_session_id e.2 = session_id ∧ coll !! k = Some e.
Proof.
  unfold get_where_session.
  by rewrite list_elem_of_filter, elem_of_map_to_list.
Qed.

(** Accepted feedback: the state after a call for a listing of a complete
    session, on a store whose documents carry all features. *)
Lemma submit_feedback_accepted (request : FeedbackRequest) (st : ApiState)
    (session : SearchSession) (report : FinalReport) :
  features_complete (service st) →
  search_sessions st !! fb_session_id request = Some session →
  status session = complete →
  find_report (fb_listing_id request) (default [] (final_reports session))
  = Some report →
  let recorded :=
    record_feedback request (listing report) report (service st) in
  submit_feedback request st
  = ({| search_sessions := search_sessions st;
        seen_listings :=
          mark_seen (fb_session_id request) (fb_listing_id request)
            (seen_listings st);
        service := recorded.1 |},
     Return (Insights.get_learning_insights (fb_session_id request)
               recorded.1)).
Proof.
  intros Hc Hsome Hstatus Hfind recorded.
  unfold submit_feedback. cbn zeta.
  rewrite (completed_session_Return _ _ _ session) by done.
  rewrite Hfind. fold recorded.
  destruct (record_feedback_complete request (listing report) report
              (service st) Hc) as (Hflag & _).
  fold recorded in Hflag. by rewrite Hflag.
Qed.

End FeedbackFlow.

(** ** Learning insights and the feedback history *)

Section InsightFacts.
Import RecommendationService Insights.
Local Open Scope R_scope.

Lemma count_actions (results : list (string * (FeedbackDocument * FeedbackMetadata))) :
  (count_action like results + count_action dislike results
   = length results)%nat.
Proof.
  unfold count_action. induction results as [|e rs IH]; [done|].
  rewrite !filter_cons. cbn [length].
  destruct (meta_action e.2.2) eqn:Ha.
  - rewrite decide_True by done. rewrite decide_False by done.
    cbn [length]. lia.
  - rewrite decide_False by done. rewrite decide_True by done.
    cbn [length]. lia.
Qed.

Lemma feature_order_names : feature_order = feature_names.
Proof. reflexivity. Qed.

Lemma feature_order_NoDup : NoDup feature_order.
Proof. apply (bool_decide_unpack _). vm_compute. exact I. Qed.

(** [items] lists every entry of the map once. *)
Lemma items_elem (ws : gmap string R) (kv : string * R) :
  kv ∈ items ws ↔ ws !! kv.1 = Some kv.2.
Proof.
  destruct kv as [k v]. unfold items. cbn [fst snd].
  rewrite elem_of_app, list_elem_of_omap, list_elem_of_filter,
    elem_of_map_to_list.
  cbn [fst]. split.
  - intros [(n & Hn & Heq)|[_ H]]; [|done].
    destruct (ws !! n) as [w|] eqn:Hw; [|done].
    cbn in Heq. by injection Heq as -> ->.
  - intros Hk. destruct (decide (k ∈ feature_order)) as [Hin|Hout].
    + left. exists k. split; [done|]. by rewrite Hk.
    + right. by split.
Qed.

Lemma omap_lookup_NoDup (ws : gmap string R) (names : list string) :
  NoDup names → NoDup (omap (λ n, pair n <$> ws !! n) names).
Proof.
  induction 1 as [|n names Hn _ IH]; [constructor|].
  change (NoDup match pair n <$> ws !! n with
                | Some y => y :: omap (λ n, pair n <$> ws !! n) names
                | None => omap (λ n, pair n <$> ws !! n) names
                end).
  destruct (ws !! n) as [w|]; [|exact IH].
  cbn [fmap option_fmap option_map].
  constructor; [|exact IH]. rewrite list_elem_of_omap.
  intros (m & Hm & Heq). destruct (ws !! m); [|done].
  cbn in Heq. injection Heq as -> _. done.
Qed.

Lemma items_NoDup (ws : gmap string R) : NoDup (items ws).
Proof.
  unfold items. apply NoDup_app. split; [|split].
  - apply omap_lookup_NoDup, feature_order_NoDup.
  - intros [k v]. rewrite list_elem_of_omap, list_elem_of_filter.
    intros (n & Hn & Heq) [Hout _]. destruct (ws !! n); [|done].
    cbn in Heq. injection Heq as -> _. done.
  - apply NoDup_filter, NoDup_map_to_list.
Qed.

Lemma items_perm (ws : gmap string R) : items ws ≡ₚ map_to_list ws.
Proof.
  apply NoDup_Permutation; [apply items_NoDup | apply NoDup_map_to_list|].
  intros [k v]. by rewrite items_elem, elem_of_map_to_list.
Qed.

End InsightFacts.

Section InsightTheorems.
Import RecommendationService Insights.
Local Open Scope R_scope.

Lemma describe_fst (kv : string * R) : (describe kv).1 = kv.1.
Proof. unfold describe. by destruct (Rlt_dec 0 kv.2). Qed.

Lemma insights_total_swipes (session_id : string) (st : Stores) :
  total_swipes (get_learning_insights session_id st)
  = length (get_where_session session_id (feedback_collection st)).
Proof.
  unfold get_learning_insights.
  pose proof (count_actions
                (get_where_session session_id (feedback_collection st)))
    as Hcount.
  by destruct (get_where_session session_id (feedback_collection st)).
Qed.


(** X6.  The learned preferences are the (at most five) features of largest
    absolute weight: each listed feature has a stored weight, is described
    as preferred higher exactly when its weight is positive (a zero weight
    reads "Prefers lower"), no feature is listed twice, and every feature
    left out weighs at most as much, in absolute value, as every feature
    listed. *)
Theorem learned_preferences_are_top_five (session_id : string)
    (st : Stores) :
  let insights := get_learning_insights session_id st in
  (length (learned_preferences insights) <= 5)%nat
  ∧ NoDup (learned_preferences insights).*1
  ∧ (∀ W, _get_preference_weights session_id st = Some W →
          get_where_session session_id (feedback_collection st) ≠ [] →
          length (learned_preferences insights) = (size W `min` 5)%nat)
  ∧ (∀ f text, (f, text) ∈ learned_preferences insights →
       ∃ W w,
         _get_preference_weights session_id st = Some W
         ∧ W !! f = Some w
         ∧ text = (if Rlt_dec 0 w then "Prefers higher " +:+ f
                   else "Prefers lower " +:+ f)
         ∧ ∀ g wg, W !! g = Some wg →
                   g ∉ (learned_preferences insights).*1 →
                   Rabs wg <= Rabs w).
Proof.
  intros insights. unfold insights, get_learning_insights.
  destruct (get_where_session session_id (feedback_collection st))
    as [|e events']; [cbn; repeat split; try done; try lia; try constructor|].
  { intros f text Hin. by apply elem_of_nil in Hin. }
  cbn [learned_preferences].
  destruct (_get_preference_weights session_id st) as [W|];
    [|cbn; repeat split; try done; try lia; try constructor].
  2: { intros f text Hin. by apply elem_of_nil in Hin. }
  destruct (decide (W = ∅)) as [->|Hne].
  { cbn. repeat split; try lia; try constructor.
    - intros W [= <-] _. by rewrite map_size_empty.
    - intros f text Hin. by apply elem_of_nil in Hin. }
  set (key := λ kv : string * R, Rabs kv.2).
  set (sorted := Search.sorted_desc key (items W)).
  assert (Hperm : sorted ≡ₚ map_to_list W).
  { unfold sorted. rewrite sorted_desc_perm. apply items_perm. }
  assert (Hfst : (describe <$> take 5 sorted).*1 = (take 5 sorted).*1).
  { rewrite <- list_fmap_compose. apply list_fmap_ext.
    intros _ kv _. apply describe_fst. }
  assert (Hnd : NoDup (take 5 sorted).*1).
  { apply (sublist_NoDup _ (sorted.*1)).
    - rewrite Hperm. apply NoDup_fst_map_to_list.
    - apply fmap_sublist, sublist_take. }
  split; [rewrite length_fmap, length_take; lia|].
  split; [by rewrite Hfst|]. split.
  - intros W' [= <-] _. rewrite length_fmap, length_take.
    rewrite Hperm, length_map_to_list. lia.
  - intros f text Hin. apply list_elem_of_fmap in Hin as (kv & Hd & Hkv).
    assert (Hsorted : kv ∈ sorted).
    { eapply elem_of_sublist; [exact Hkv | apply sublist_take]. }
    assert (HW : W !! kv.1 = Some kv.2).
    { rewrite Hperm in Hsorted. destruct kv.
      by apply elem_of_map_to_list in Hsorted. }
    assert (Hf : f = kv.1) by (by rewrite <- describe_fst, <- Hd).
    exists W, kv.2. split; [done|]. split; [by rewrite Hf|]. split.
    + unfold describe in Hd. rewrite Hf.
      destruct (Rlt_dec 0 kv.2); by injection Hd as _ ->.
    + intros g wg Hg Hout. rewrite Hfst in Hout.
      assert (Hgs : (g, wg) ∈ sorted).
      { rewrite Hperm. by apply elem_of_map_to_list. }
      rewrite <- (take_drop 5 sorted) in Hgs.
      apply elem_of_app in Hgs as [Hgs|Hgs].
      { exfalso. apply Hout. apply list_elem_of_fmap. by exists (g, wg). }
      pose proof (sorted_desc_sorted key (items W)) as Hss.
      fold sorted in Hss. rewrite <- (take_drop 5 sorted) in Hss.
      apply (StronglySorted_app_1_elem_of _ _ _ _ _ Hss Hkv Hgs).
Qed.

End InsightTheorems.

(** ** Feedback, seen listings and the next listing *)

Module ApiFixtures.
Import Search RecommendationService SearchApi.

(** A complete session with two reports, no listing seen, no feedback
    stored. *)
Definition session0 : SearchSession :=
  {| status := complete; chat_session_id := "chat-1";
     message := "Analysis complete"; progress := 100;
     listings := [Fixtures.house "z1" "1 Oak St";
                  Fixtures.house "z2" "2 Oak St"];
     evaluated_listings := Some []; argued_listings := Some [];
     final_reports := Some [report_first; report_second] |}.

Definition state0 : ApiState :=
  {| search_sessions := {[ "s-1" := session0 ]};
     seen_listings := ∅; service := empty_stores |}.

Lemma state0_session : search_sessions state0 !! "s-1" = Some session0.
Proof. apply lookup_singleton_eq. Qed.

End ApiFixtures.

Section FeedbackSeen.
Import Search RecommendationService SearchApi.

Lemma seen_of_marked (session_id listing_id : string) (st : ApiState)
    (sessions : gmap string SearchSession) (stores : Stores) :
  seen_of session_id
    {| search_sessions := sessions;
       seen_listings := mark_seen session_id listing_id (seen_listings st);
       service := stores |}
  = if decide (listing_id ∈ seen_of session_id st) then seen_of session_id st
    else seen_of session_id st ++ [listing_id].
Proof.
  unfold seen_of. cbn [seen_listings]. rewrite mark_seen_same. cbn zeta.
  by case_decide.
Qed.

(** X7.  Accepted feedback marks the listing as seen, once: the listing id is
    appended to the session's seen list unless it is there already, so the
    list stays free of duplicates; the seen lists of other sessions and the
    search sessions are untouched; the event is stored and counted by the
    insights returned; and the session's unseen reports are the former
    ones without those of the listing. *)
Theorem submit_feedback_marks_seen (request : FeedbackRequest)
    (st : ApiState) (session : SearchSession) (report : FinalReport)
    (Hcomplete : features_complete (service st))
    (Hsession : search_sessions st !! fb_session_id request = Some session)
    (Hstatus : status session = complete)
    (Hreport : report ∈ default [] (final_reports session))
    (Hid : id (listing report) = fb_listing_id request) :
  let sid := fb_session_id request in
  let lid := fb_listing_id request in
  let st' := (submit_feedback request st).1 in
  (∃ insights,
     (submit_feedback request st).2 = Return insights
     ∧ (1 <= Insights.total_swipes insights)%nat)
  ∧ search_sessions st' = search_sessions st
  ∧ lid ∈ seen_of sid st'
  ∧ seen_of sid st'
    = (if decide (lid ∈ seen_of sid st) then seen_of sid st
       else seen_of sid st ++ [lid])
  ∧ (NoDup (seen_of sid st) → NoDup (seen_of sid st'))
  ∧ (∀ other, other ≠ sid → seen_of other st' = seen_of other st)
  ∧ features_complete (service st')
  ∧ is_Some (feedback_collection (service st') !! feedback_id sid lid)
  ∧ unseen_of sid st'
    = filter (λ r, id (listing r) ≠ lid) (unseen_of sid st).
Proof.
  intros sid lid st'.
  destruct (find_report lid (default [] (final_reports session)))
    as [found|] eqn:Hfind.
  2: { apply find_report_None in Hfind.
       rewrite Forall_forall in Hfind. by destruct (Hfind report Hreport). }
  pose proof (submit_feedback_accepted request st session found
                Hcomplete Hsession Hstatus Hfind) as Hsub.
  cbn zeta in Hsub.
  destruct (record_feedback_complete request (listing found) found
              (service st) Hcomplete) as (_ & Hfb & Hc' & _).
  set (recorded := record_feedback request (listing found) found (service st))
    in *.
  unfold st'. rewrite Hsub. cbn [fst snd search_sessions service].
  fold sid lid.
  assert (Hseen : seen_of sid
                    {| search_sessions := search_sessions st;
                       seen_listings :=
                         mark_seen sid lid (seen_listings st);
                       service := recorded.1 |}
                  = if decide (lid ∈ seen_of sid st) then seen_of sid st
                    else seen_of sid st ++ [lid])
    by apply seen_of_marked.
  assert (Hstored : feedback_collection recorded.1 !! feedback_id sid lid
                    = Some (feedback_document request (listing found) found,
                            feedback_metadata request (listing found) found)).
  { rewrite Hfb. cbn [upserted feedback_collection]. apply lookup_insert_eq. }
  split; [|split; [done|]]; [|split; [|split; [exact Hseen|]]].
  - eexists. split; [reflexivity|].
    fold sid. rewrite (insights_total_swipes sid recorded.1).
    assert (Hin : (feedback_id sid lid,
                   (feedback_document request (listing found) found,
                    feedback_metadata request (listing found) found))
                  ∈ get_where_session sid (feedback_collection recorded.1)).
    { apply get_where_session_elem. by split. }
    destruct (get_where_session sid (feedback_collection recorded.1));
      [by apply elem_of_nil in Hin | cbn [length]; lia].
  - rewrite Hseen. case_decide; [done|].
    apply elem_of_app. right. by apply list_elem_of_singleton.
  - split; [|split; [|split; [exact Hc'|split; [by eexists|]]]].
    + rewrite Hseen. intros Hnd. case_decide as Hin; [done|].
      apply NoDup_app. split; [done|]. split; [|apply NoDup_singleton].
      intros x Hx ->%list_elem_of_singleton. done.
    + intros other Hne. unfold seen_of. cbn [seen_listings].
      by apply mark_seen_other.
    + unfold unseen_of, reports_of. cbn [search_sessions].
      rewrite Hseen. rewrite list_filter_filter. apply list_filter_iff.
      intros r. case_decide as Hin.
      * split; [|tauto]. intros Hr. split; [|done]. intros Heq.
        apply Hr. by rewrite Heq.
      * rewrite elem_of_app, list_elem_of_singleton. tauto.
Qed.

Lemma submit_feedback_marks_seen_witness :
  seen_of "s-1"
    (submit_feedback (feedback_request "s-1" "z2" like) ApiFixtures.state0).1
  = ["z2"]
  ∧ unseen_of "s-1"
      (submit_feedback (feedback_request "s-1" "z2" like)
         ApiFixtures.state0).1
    = [report_first].
Proof.
  destruct (submit_feedback_marks_seen (feedback_request "s-1" "z2" like)
              ApiFixtures.state0 ApiFixtures.session0 report_second
              features_complete_empty ApiFixtures.state0_session
              eq_refl ltac:(right; left) eq_refl)
    as (_ & _ & _ & Hseen & _ & _ & _ & _ & Hunseen).
  split; [etransitivity; [exact Hseen|] | etransitivity; [exact Hunseen|]];
    vm_compute; reflexivity.
Defined.

End FeedbackSeen.

Section NextListing.
Import Search RecommendationService SearchApi.

Lemma head_sorted_max {A} (key : A → R) (l : list A) (x : A) :
  StronglySorted (key_ge key) l → head l = Some x →
  ∀ y, y ∈ l → (key y <= key x)%R.
Proof.
  intros Hs Hhead y Hy. destruct l as [|a l]; [done|].
  injection Hhead as ->. apply StronglySorted_cons in Hs as [Hx _].
  apply elem_of_cons in Hy as [->|Hy]; [lra|].
  rewrite Forall_forall in Hx. by apply Hx.
Qed.

(** The service's [get_next_listing] returns the top of the ranking of
    the unseen reports. *)
Lemma service_next_listing (session_id : string)
    (available : list FinalReport) (seen : list string) (st : Stores) :
  RecommendationService.get_next_listing session_id available seen st
  = head (get_ranked_listings session_id
            (filter (λ r, id (listing r) ∉ seen) available) st).
Proof.
  unfold RecommendationService.get_next_listing. cbn zeta.
  destruct (filter _ available) as [|u unseen] eqn:Hu; [|done].
  pose proof (ranked_perm session_id [] st) as Hperm.
  apply Permutation_nil_r in Hperm. by rewrite Hperm.
Qed.

(** X8.  For a complete session the next-listing endpoint answers 404 when the
    session has no final reports at all; otherwise it reports all_seen
    exactly when every report's listing has been marked seen, and else
    returns an unseen report that ranks highest among the unseen ones: by
    personalised score when the session has learned weights, by final
    score when it has none. *)
Theorem next_listing_is_best_unseen (session_id : string) (st : ApiState)
    (session : SearchSession)
    (Hsession : search_sessions st !! session_id = Some session)
    (Hstatus : status session = complete) :
  (default [] (final_reports session) = [] →
   SearchApi.get_next_listing session_id st
   = HTTPException 404 "No listings available")
  ∧ (default [] (final_reports session) ≠ [] →
     ∃ resp,
       SearchApi.get_next_listing session_id st = Return resp
       ∧ (all_seen resp = true ↔ unseen_of session_id st = [])
       ∧ (next_listing resp = None ↔ unseen_of session_id st = [])
       ∧ ∀ r, next_listing resp = Some r →
           all_seen resp = false
           ∧ r ∈ unseen_of session_id st
           ∧ (∀ ws, _get_preference_weights session_id (service st) = Some ws →
                    ws ≠ ∅ →
                    ∀ r', r' ∈ unseen_of session_id st →
                          (report_score ws r' <= report_score ws r)%R)
           ∧ ((_get_preference_weights session_id (service st) = None
               ∨ _get_preference_weights session_id (service st) = Some ∅) →
              ∀ r', r' ∈ unseen_of session_id st →
                    (final_score r' <= final_score r)%R)).
Proof.
  unfold SearchApi.get_next_listing.
  rewrite (completed_session_Return _ _ _ session) by done.
  split; [by intros ->|]. intros Hne.
  assert (Hunseen : unseen_of session_id st
                    = filter (λ r, id (listing r)
                                   ∉ default [] (seen_listings st !! session_id))
                        (default [] (final_reports session))).
  { unfold unseen_of, reports_of, seen_of. by rewrite Hsession. }
  destruct (default [] (final_reports session)) as [|r0 rest] eqn:Hreports;
    [done|].
  rewrite service_next_listing, <- Hunseen.
  pose proof (ranked_perm session_id (unseen_of session_id st) (service st))
    as Hperm.
  assert (Hws : ∀ ws,
            _get_preference_weights session_id (service st) = Some ws →
            ws ≠ ∅ →
            StronglySorted (key_ge (report_score ws))
              (get_ranked_listings session_id (unseen_of session_id st)
                 (service st))).
  { intros ws Hw Hwne. rewrite (ranked_with_weights _ _ _ ws) by done.
    apply sorted_desc_sorted. }
  assert (Hbase :
            _get_preference_weights session_id (service st) = None
            ∨ _get_preference_weights session_id (service st) = Some ∅ →
            StronglySorted (key_ge final_score)
              (get_ranked_listings session_id (unseen_of session_id st)
                 (service st))).
  { intros Hnone. rewrite ranked_base by done. apply sorted_desc_sorted. }
  destruct (get_ranked_listings session_id (unseen_of session_id st)
              (service st)) as [|top ranked] eqn:Hr.
  - apply Permutation_nil_l in Hperm. cbn [head]. eexists.
    split; [reflexivity|]. cbn [all_seen next_listing].
    split; [by rewrite <- Hperm|]. split; [by rewrite <- Hperm|]. done.
  - cbn [head]. eexists. split; [reflexivity|].
    cbn [all_seen next_listing].
    assert (Hnonempty : unseen_of session_id st ≠ []).
    { intros Hnil. rewrite Hnil in Hperm.
      by apply Permutation_nil_r in Hperm. }
    split; [split; [done|by intros ?]|]. split; [split; [done|by intros ?]|].
    intros r [= <-]. split; [done|]. split; [|split].
    + rewrite <- Hperm. left.
    + intros ws Hw Hwne r' Hr'. pose proof (Hws ws Hw Hwne) as Hs.
      apply (head_sorted_max (report_score ws) (top :: ranked)); [done..|].
      by rewrite Hperm.
    + intros Hnone r' Hr'. pose proof (Hbase Hnone) as Hs.
      apply (head_sorted_max final_score (top :: ranked)); [done..|].
      by rewrite Hperm.
Qed.

Lemma next_listing_is_best_unseen_witness :
  ∃ resp,
    SearchApi.get_next_listing "s-1" ApiFixtures.state0 = Return resp
    ∧ is_Some (next_listing resp).
Proof.
  destruct (next_listing_is_best_unseen "s-1" ApiFixtures.state0
              ApiFixtures.session0 ApiFixtures.state0_session eq_refl)
    as [_ Hsome].
  destruct Hsome as (resp & Hresp & _ & Hnone & _); [discriminate|].
  exists resp. split; [exact Hresp|].
  destruct (next_listing resp); [by eexists|].
  exfalso. assert (Hnil : unseen_of "s-1" ApiFixtures.state0 = [])
    by (by apply Hnone).
  vm_compute in Hnil. discriminate Hnil.
Defined.

Lemma submit_feedback_unknown_listing_witness :
  submit_feedback (feedback_request "s-1" "z9" like) ApiFixtures.state0
  = (ApiFixtures.state0,
     HTTPException 404 "Listing not found in this session").
Proof.
  destruct (submit_feedback_unknown_listing
              (feedback_request "s-1" "z9" like) ApiFixtures.state0
              ApiFixtures.session0 ApiFixtures.state0_session eq_refl)
    as [H404 _].
  apply H404. repeat constructor; discriminate.
Defined.

End NextListing.

(** ** What a completed run serves *)

Section CompletedRun.
Import ScraperOrchestrator Search RecommendationService SearchApi.

(** X9.  After a run that completes, the result endpoints serve what the run
    produced: the deduplicated listings, the evaluated listings, and the
    final reports in descending order of final score, reports with equal
    scores in the order they were compiled, none dropped or repeated.
    The ranked-results endpoint returns a rearrangement of the final
    reports, and the final reports themselves as long as the session has no
    learned weights. *)
Theorem completed_run_is_served (chat_sessions : gmap string ChatSession)
    (c : Collaborators) (chat_id : string) (cs : ChatSession)
    (prefs : UserPreferences) (session_id : string) (st : ApiState)
    (Hcs : chat_sessions !! chat_id = Some cs)
    (Hprefs : preferences cs = Some prefs)
    (Hrun : search_sessions st !! session_id
            = last (session_trace chat_sessions c chat_id None)) :
  let produced := stages c prefs in
  get_search_results session_id st
  = Return (search_all_platforms (scrapers c prefs))
  ∧ get_evaluated_results session_id st = Return (st_evaluated produced).1
  ∧ ∃ reports,
      get_final_results session_id st = Return reports
      ∧ reports ≡ₚ (st_final produced).1
      ∧ StronglySorted (key_ge final_score) reports
      ∧ (∀ v : R, filter (λ r, final_score r = v) reports
                  = filter (λ r, final_score r = v) (st_final produced).1)
      ∧ (∃ ranked, get_ranked_results session_id st = Return ranked
                   ∧ ranked ≡ₚ reports)
      ∧ ((_get_preference_weights session_id (service st) = None
          ∨ _get_preference_weights session_id (service st) = Some ∅) →
         get_ranked_results session_id st = Return reports).
Proof.
  intros produced. unfold session_trace in Hrun.
  rewrite last_run_writes in Hrun.
  rewrite (completed_final_state _ _ _ _ _ Hcs Hprefs) in Hrun.
  cbn zeta in Hrun. fold produced in Hrun.
  unfold get_search_results, get_evaluated_results, get_final_results,
    get_ranked_results.
  rewrite !(completed_session_Return _ _ _ _ Hrun eq_refl).
  cbn [listings evaluated_listings final_reports default from_option
       Datatypes.id].
  split; [done|]. split; [done|].
  set (reports := sorted_desc final_score (st_final produced).1).
  assert (Hsorted : StronglySorted (key_ge final_score) reports)
    by apply sorted_desc_sorted.
  exists reports. split; [done|]. split; [apply sorted_desc_perm|].
  split; [done|]. split; [intros v; apply sorted_desc_stable|].
  destruct reports as [|r rest] eqn:Hreports.
  - split; [by exists []|done].
  - rewrite <- Hreports in *. split.
    + eexists. split; [reflexivity|]. apply ranked_perm.
    + intros Hnone. rewrite ranked_base by done.
      by rewrite sorted_desc_fixed.
Qed.

(** The run of the fixtures, stored under a session id. *)
Definition served_state : ApiState :=
  {| search_sessions :=
       {[ "s-1" := final_state (Search.start_search "chat-1")
                     (run_search_pipeline Fixtures.chats0 Fixtures.c0
                        "chat-1" None) ]};
     seen_listings := ∅; service := empty_stores |}.

Lemma completed_run_is_served_witness :
  get_search_results "s-1" served_state = Return Fixtures.five.
Proof.
  destruct (completed_run_is_served Fixtures.chats0 Fixtures.c0 "chat-1"
              Fixtures.chat0 Fixtures.prefs0 "s-1" served_state)
    as [Hres _].
  - apply lookup_singleton_eq.
  - reflexivity.
  - unfold session_trace. rewrite last_run_writes. apply lookup_singleton_eq.
  - rewrite Hres, Fixtures.collected_five. reflexivity.
Defined.

End CompletedRun.

(** ** The correlation weight: bounds and symmetries *)

Section CorrelationWeight.
Import RecommendationService.
Local Open Scope R_scope.

(** The quadratic t ↦ Σ (a_i t + b_i)², expanded. *)
Lemma dot_quadratic (a b : list R) (t : R) :
  length a = length b →
  0 <= Np.dot a a * (t * t) + 2 * Np.dot a b * t + Np.dot b b.
Proof.
  revert b. induction a as [|x a IH]; intros [|y b] Hlen; try done.
  - unfold Np.dot. simpl. lra.
  - injection Hlen as Hlen. specialize (IH b Hlen).
    unfold Np.dot in *. cbn [zip_with]. rewrite !np_sum_cons.
    pose proof (Rle_0_sqr (x * t + y)) as Hsq. unfold Rsqr in Hsq.
    revert IH.
    generalize (Np.sum (zip_with Rmult a a)) (Np.sum (zip_with Rmult a b))
               (Np.sum (zip_with Rmult b b)).
    intros A B C IH. nra.
Qed.

(** Cauchy-Schwarz. *)
Lemma dot_cauchy_schwarz (a b : list R) :
  length a = length b →
  Np.dot a b * Np.dot a b <= Np.dot a a * Np.dot b b.
Proof.
  intros Hlen. pose proof (dot_quadratic a b) as Hq.
  assert (HA : 0 <= Np.dot a a).
  { rewrite dot_self. apply sum_squares_nonneg. }
  assert (HC : 0 <= Np.dot b b).
  { rewrite dot_self. apply sum_squares_nonneg. }
  revert Hq HA HC.
  generalize (Np.dot a a) (Np.dot a b) (Np.dot b b). intros A B C Hq HA HC.
  destruct (Req_dec A 0) as [HA0|HA0].
  - subst A. destruct (Req_dec B 0) as [->|HB]; [lra|].
    exfalso. specialize (Hq (- (C + 1) / (2 * B)) Hlen).
    assert (Ht : 2 * B * (- (C + 1) / (2 * B)) = - (C + 1)) by (by field).
    lra.
  - specialize (Hq (- B / A) Hlen).
    assert (Ht : A * (- B / A * (- B / A)) + 2 * B * (- B / A) + C
                 = (A * C - B * B) / A) by (by field).
    rewrite Ht in Hq.
    assert (HApos : 0 < A) by lra.
    assert (H0 : 0 <= (A * C - B * B) / A * A).
    { apply Rmult_le_pos; lra. }
    unfold Rdiv in H0. rewrite Rmult_assoc, Rinv_l in H0 by lra. lra.
Qed.

Lemma pearson_weight_bounded (xs ys : list R) :
  length ys = length xs → -1 <= pearson_weight xs ys <= 1.
Proof.
  intros Hlen. unfold pearson_weight, pearson.
  destruct (decide (sq_dev xs = 0)) as [|Hx]; [lra|].
  destruct (decide (sq_dev xs = 0 ∨ sq_dev ys = 0)) as [|Hxy]; [lra|].
  assert (Hy : sq_dev ys ≠ 0) by tauto.
  pose proof (sq_dev_nonneg xs) as Hx0. pose proof (sq_dev_nonneg ys) as Hy0.
  pose proof (dot_cauchy_schwarz (Np.dev xs) (Np.dev ys)) as Hcs.
  rewrite !dot_self in Hcs. fold (sq_dev xs) (sq_dev ys) in Hcs.
  specialize (Hcs ltac:(by rewrite !dev_length)).
  assert (Ha : 0 < sqrt (sq_dev xs)) by (apply sqrt_lt_R0; lra).
  assert (Hb : 0 < sqrt (sq_dev ys)) by (apply sqrt_lt_R0; lra).
  assert (Hab : 0 < sqrt (sq_dev xs) * sqrt (sq_dev ys))
    by (by apply Rmult_lt_0_compat).
  assert (Hsq : (sqrt (sq_dev xs) * sqrt (sq_dev ys))
                * (sqrt (sq_dev xs) * sqrt (sq_dev ys))
                = sq_dev xs * sq_dev ys).
  { rewrite <- sqrt_mult by lra. apply sqrt_sqrt. nra. }
  revert Hcs Hab Hsq.
  generalize (Np.dot (Np.dev xs) (Np.dev ys))
             (sqrt (sq_dev xs) * sqrt (sq_dev ys)) (sq_dev xs * sq_dev ys).
  intros d s p Hcs Hs Hsq.
  assert (Hd : - s <= d <= s) by nra.
  split.
  - apply Rmult_le_reg_r with s; [done|].
    unfold Rdiv. rewrite Rmult_assoc, Rinv_l by lra. lra.
  - apply Rmult_le_reg_r with s; [done|].
    unfold Rdiv. rewrite Rmult_assoc, Rinv_l by lra. lra.
Qed.

Lemma sum_opp (l : list R) : Np.sum (map Ropp l) = - Np.sum l.
Proof.
  induction l as [|x l IH]; [simpl; lra|].
  cbn [map]. rewrite !np_sum_cons, IH. lra.
Qed.

Lemma dev_opp (ys : list R) : Np.dev (map Ropp ys) = map Ropp (Np.dev ys).
Proof.
  unfold Np.dev, Np.mean. rewrite sum_opp, length_map, !map_map.
  apply map_ext. intros y. unfold Rdiv. lra.
Qed.

Lemma dot_opp_r (a b : list R) : Np.dot a (map Ropp b) = - Np.dot a b.
Proof.
  unfold Np.dot. revert b. induction a as [|x a IH]; intros [|y b];
    try (simpl; lra).
  cbn [map zip_with]. rewrite !np_sum_cons, IH. lra.
Qed.

Lemma dot_opp_l (a b : list R) : Np.dot (map Ropp a) b = - Np.dot a b.
Proof.
  unfold Np.dot. revert b. induction a as [|x a IH]; intros [|y b];
    try (simpl; lra).
  cbn [map zip_with]. rewrite !np_sum_cons, IH. lra.
Qed.

Lemma cov_opp (xs ys : list R) :
  Np.cov xs (map Ropp ys) = - Np.cov xs ys
  ∧ Np.cov (map Ropp ys) (map Ropp ys) = Np.cov ys ys.
Proof.
  unfold Np.cov. rewrite !dev_opp, !dot_opp_r, dot_opp_l, length_map.
  split; unfold Rdiv; lra.
Qed.

End CorrelationWeight.

(** X10.  The weight of a feature lies between -1 and 1 whenever the feature
    column and the labels have the same length, as they do in
    [_calculate_feature_weights]. *)
Theorem correlation_weight_bounded (feature_values y : list R)
    (Hlen : length y = length feature_values) :
  (-1 <= correlation_weight feature_values y <= 1)%R.
Proof.
  destruct (decide (2 <= length feature_values)%nat) as [Hn|Hn].
  - rewrite correlation_weight_pearson by done.
    by apply pearson_weight_bounded.
  - unfold correlation_weight, Np.corrcoef.
    case_decide; [lra|]. rewrite decide_True by lia. lra.
Qed.

Lemma correlation_weight_bounded_witness :
  (-1 <= correlation_weight [1; 2; 4] [1; -1; 1] <= 1)%R.
Proof. apply correlation_weight_bounded. reflexivity. Defined.

(** X11.  Negating every label negates every weight: a session whose likes and
    dislikes are swapped learns the opposite weights. *)
Theorem correlation_weight_label_flip (feature_values y : list R) :
  correlation_weight feature_values (map Ropp y)
  = (- correlation_weight feature_values y)%R
  ∧ label like = (- label dislike)%R.
Proof.
  split; [|unfold label; lra].
  unfold correlation_weight, Np.corrcoef.
  destruct (cov_opp feature_values y) as [-> ->].
  case_decide; [lra|]. case_decide; [lra|]. case_decide; [lra|].
  unfold Rdiv. lra.
Qed.

(** X12.  With two events the weights are all-or-nothing: a feature on which
    the two listings agree, or two events with the same action, give
    weight 0; otherwise the weight is the label (+1 like, -1 dislike) of
    the event whose feature value is the larger one. *)
Theorem two_events_weight_is_a_sign (x1 x2 : R) (a1 a2 : Action) :
  correlation_weight [x1; x2] [label a1; label a2]
  = if decide (x1 = x2) then 0%R
    else if decide (a1 = a2) then 0%R
    else if Rlt_dec x2 x1 then label a1 else label a2.
Proof.
  rewrite correlation_weight_pearson by (cbn; lia).
  destruct (decide (x1 = x2)) as [->|Hx].
  { apply (proj1 (pearson_weight_degenerate _ _ x2)). by repeat constructor. }
  destruct (decide (a1 = a2)) as [->|Ha].
  { apply (proj2 (pearson_weight_degenerate _ _ (label a2))).
    by repeat constructor. }
  destruct a1, a2; try done; unfold label.
  - transitivity (pearson_weight [x1; x2] [1; - (1)]%R).
    { do 3 f_equal; lra. }
    rewrite (pearson_weight_two x1 x2 1%R) by (done || lra).
    destruct (Rlt_dec x2 x1); lra.
  - transitivity (pearson_weight [x1; x2] [-1; - (-1)]%R).
    { do 3 f_equal; lra. }
    rewrite (pearson_weight_two x1 x2 (-1)%R) by (done || lra).
    destruct (Rlt_dec x2 x1); lra.
Qed.

(** ** The feature vector *)

(** X13.  The features of a report: the argument balance is the pro count minus
    the con count; the three property-type flags are 0 or 1, at most one
    of them is 1, and they depend on the property type up to letter case
    only; and an optional score that is missing or equal to 0 is replaced
    by 5, as a missing or zero number of days on the market is by 30 (0.3
    after scaling). *)
Theorem extract_features_encoding (l : Listing) (final_report : FinalReport) :
  let fs := _extract_features l final_report in
  (∃ p c : R,
     fs !! "pro_count" = Some p ∧ fs !! "con_count" = Some c
     ∧ fs !! "argument_balance" = Some (p - c)%R)
  ∧ (∃ h c t : R,
       fs !! "is_house" = Some h ∧ fs !! "is_condo" = Some c
       ∧ fs !! "is_townhouse" = Some t
       ∧ (h = 0 ∨ h = 1)%R ∧ (c = 0 ∨ c = 1)%R ∧ (t = 0 ∨ t = 1)%R
       ∧ (h + c + t <= 1)%R
       ∧ ((h + c + t = 1)%R
          ↔ lower_str (property_type l) ∈ ["house"; "condo"; "townhouse"]))
  ∧ (∀ l' : Listing,
       lower_str (property_type l') = lower_str (property_type l) →
       ∀ f, f ∈ ["is_house"; "is_condo"; "is_townhouse"] →
            _extract_features l' final_report !! f = fs !! f)
  ∧ ((crime_score (evaluation final_report) = None
      ∨ crime_score (evaluation final_report) = Some 0%R) →
     fs !! "crime_score" = Some 5%R)
  ∧ ((school_score (evaluation final_report) = None
      ∨ school_score (evaluation final_report) = Some 0%R) →
     fs !! "school_score" = Some 5%R)
  ∧ ((walkability_score (evaluation final_report) = None
      ∨ walkability_score (evaluation final_report) = Some 0%R) →
     fs !! "walkability_score" = Some 5%R)
  ∧ ((affordability_score (evaluation final_report) = None
      ∨ affordability_score (evaluation final_report) = Some 0%R) →
     fs !! "affordability_score" = Some 5%R)
  ∧ ((days_on_market l = None ∨ days_on_market l = Some 0%Z) →
     fs !! "days_on_market" = Some (30 / 100)%R).
Proof.
  intros fs.
  assert (Hor : ∀ x, x = None ∨ x = Some 0%R → or_default x 5 = 5%R).
  { intros x [->| ->]; [done|]. unfold or_default. by rewrite decide_True. }
  split; [|split; [|split; [|repeat split]]].
  - eexists _, _. split; [reflexivity|]. split; [reflexivity|].
    change (fs !! "argument_balance")
      with (Some (IZR (Z.of_nat (length (pro_arguments (arguments final_report)))
                       - Z.of_nat (length (con_arguments
                                             (arguments final_report)))))).
    f_equal. rewrite minus_IZR, <- !INR_IZR_INZ. reflexivity.
  - eexists _, _, _. split; [reflexivity|]. split; [reflexivity|].
    split; [reflexivity|].
    generalize (lower_str (property_type l)). intros s.
    rewrite !elem_of_cons, elem_of_nil. unfold indicator. cbn [snd].
    destruct (decide (s = "house")) as [->|Hh].
    { rewrite bool_decide_eq_true_2 by done.
      rewrite !bool_decide_eq_false_2 by discriminate.
      repeat split; intros; try lra; auto. }
    rewrite (bool_decide_eq_false_2 (s = "house")) by done.
    destruct (decide (s = "condo")) as [->|Hc].
    { rewrite bool_decide_eq_true_2 by done.
      rewrite !bool_decide_eq_false_2 by discriminate.
      repeat split; intros; try lra; auto. }
    rewrite (bool_decide_eq_false_2 (s = "condo")) by done.
    destruct (decide (s = "townhouse")) as [->|Ht].
    { rewrite bool_decide_eq_true_2 by done.
      repeat split; intros; try lra; auto. }
    rewrite (bool_decide_eq_false_2 (s = "townhouse")) by done.
    repeat split; intros; try lra; try tauto; auto.
  - intros l' Heq f Hf.
    repeat (apply elem_of_cons in Hf as [->|Hf]);
      [| | |by apply elem_of_nil in Hf];
      unfold fs, _extract_features; cbn zeta;
      rewrite Heq; reflexivity.
  - intros H. change (fs !! "crime_score")
      with (Some (or_default (crime_score (evaluation final_report)) 5)).
    by rewrite Hor.
  - intros H. change (fs !! "school_score")
      with (Some (or_default (school_score (evaluation final_report)) 5)).
    by rewrite Hor.
  - intros H. change (fs !! "walkability_score")
      with (Some (or_default (walkability_score (evaluation final_report)) 5)).
    by rewrite Hor.
  - intros H. change (fs !! "affordability_score")
      with (Some (or_default (affordability_score (evaluation final_report)) 5)).
    by rewrite Hor.
  - intros H. change (fs !! "days_on_market")
      with (Some (IZR (or_default_Z (days_on_market l) 30) / 100)%R).
    destruct H as [->| ->]; reflexivity.
Qed.

(** ** The compilation agent's scores *)

Section CompilationScores.
Import CompilationAgent.
Local Open Scope R_scope.

Lemma py_sum_foldl (acc : R) (xs : list R) :
  foldl Rplus acc xs = acc + Np.sum xs.
Proof.
  revert acc. induction xs as [|x xs IH]; intros acc; simpl; [lra|].
  rewrite IH. lra.
Qed.

Lemma py_sum_sum (xs : list R) : py_sum xs = Np.sum xs.
Proof. unfold py_sum. rewrite py_sum_foldl. lra. Qed.

(** The mean of a non-empty list lies between any bounds of its
    elements. *)
Lemma mean_between (lo hi : R) (xs : list R) :
  xs ≠ [] → Forall (λ x, lo <= x <= hi) xs →
  lo <= Np.sum xs / INR (length xs) <= hi.
Proof.
  intros Hne Hall.
  assert (Hsum : INR (length xs) * lo <= Np.sum xs <= INR (length xs) * hi).
  { clear Hne. induction Hall as [|x xs Hx _ IH]; [simpl; lra|].
    rewrite np_sum_cons. cbn [length]. rewrite S_INR. lra. }
  assert (Hn : 0 < INR (length xs)).
  { apply lt_0_INR. destruct xs; [done|simpl; lia]. }
  revert Hsum Hn. generalize (INR (length xs)) (Np.sum xs). intros n s Hs Hn.
  split.
  - apply Rmult_le_reg_r with n; [done|].
    unfold Rdiv. rewrite Rmult_assoc, Rinv_l by lra. lra.
  - apply Rmult_le_reg_r with n; [done|].
    unfold Rdiv. rewrite Rmult_assoc, Rinv_l by lra. lra.
Qed.

(** The optional scores of an evaluation. *)
Definition optional_scores (evaluation : EvaluationReport) : list (option R) :=
  [crime_score evaluation; school_score evaluation;
   walkability_score evaluation; affordability_score evaluation].

(** An evaluation as the schema validates it: every score in [0,10]. *)
Definition valid_evaluation (evaluation : EvaluationReport) : Prop :=
  0 <= preference_match_score evaluation <= 10
  ∧ ∀ v, Some v ∈ optional_scores evaluation → 0 <= v <= 10.

Lemma additional_factors_between (evaluation : EvaluationReport) (lo hi : R) :
  lo <= 5 <= hi →
  (∀ v, Some v ∈ optional_scores evaluation → lo <= v <= hi) →
  lo <= _calculate_additional_factors_score evaluation <= hi.
Proof.
  intros H5 Hall. unfold _calculate_additional_factors_score. cbn zeta.
  fold (optional_scores evaluation).
  set (valid := omap (λ s, s) (optional_scores evaluation)).
  assert (Hvalid : Forall (λ x, lo <= x <= hi) valid).
  { apply Forall_forall. intros v Hv. apply Hall.
    apply list_elem_of_omap in Hv as (o & Ho & Heq). by subst o. }
  destruct valid as [|v valid'] eqn:Hv; [lra|].
  rewrite py_sum_sum. by apply mean_between.
Qed.

End CompilationScores.

(** An evaluation with a crime score of 0 and a school score of 8. *)
Definition eval_scored : EvaluationReport :=
  {| eval_listing_id := "z1"; preference_match_score := 9;
     crime_score := Some 0%R; school_score := Some 8%R;
     walkability_score := None; affordability_score := None;
     similar_evaluations := []; strengths := ["yard"; "light"; "quiet"];
     concerns := []; additional_notes := None |}.

(** X14.  The additional-factors score is the mean of the optional scores that
    are present, so it lies between any bounds of theirs; it is 5 when
    none is present; and a score of 0 counts as a score (the feature
    vector of the recommendation service replaces it by 5). *)
Theorem additional_factors_is_mean_of_present
    (ev : EvaluationReport) (lo hi : R)
    (Hscores : ∀ v, Some v ∈ optional_scores ev → (lo <= v <= hi)%R) :
  let present := omap (λ s, s) (optional_scores ev) in
  let score :=
    CompilationAgent._calculate_additional_factors_score ev in
  (present = [] → score = 5%R)
  ∧ (present ≠ [] →
     (score * INR (length present) = Np.sum present)%R
     ∧ (lo <= score <= hi)%R)
  ∧ (crime_score ev = Some 0%R →
     school_score ev = None →
     walkability_score ev = None →
     affordability_score ev = None →
     score = 0%R
     ∧ ∀ l r, evaluation r = ev →
              _extract_features l r !! "crime_score" = Some 5%R).
Proof.
  intros present score.
  unfold score, CompilationAgent._calculate_additional_factors_score.
  cbn zeta. fold (optional_scores ev). fold present.
  split; [by intros ->|]. split.
  - intros Hne.
    assert (Hvalid : Forall (λ x, (lo <= x <= hi)%R) present).
    { apply Forall_forall. intros v Hv. apply Hscores.
      apply list_elem_of_omap in Hv as (o & Ho & Heq). by subst o. }
    destruct present as [|v present'] eqn:Hp; [done|].
    rewrite py_sum_sum. split; [|by apply mean_between].
    unfold Rdiv. rewrite Rmult_assoc, Rinv_l; [lra|].
    apply not_0_INR. cbn. lia.
  - intros Hc Hs Hw Ha. unfold present, optional_scores.
    rewrite Hc, Hs, Hw, Ha. cbn. split.
    + unfold CompilationAgent.py_sum. cbn. lra.
    + intros l r Hr.
      change (_extract_features l r !! "crime_score")
        with (Some (or_default (crime_score (evaluation r)) 5)).
      rewrite Hr, Hc. unfold or_default. by rewrite decide_True.
Qed.

Lemma additional_factors_is_mean_of_present_witness :
  CompilationAgent._calculate_additional_factors_score eval_scored = 4%R.
Proof.
  destruct (additional_factors_is_mean_of_present eval_scored 0 10)
    as (_ & Hmean & _).
  - intros v Hv. unfold optional_scores, eval_scored in Hv. cbn in Hv.
    repeat (apply elem_of_cons in Hv as [Hv|Hv]; [try done|]);
      [injection Hv as ->; lra..|by apply elem_of_nil in Hv].
  - destruct Hmean as [Hmean _]; [discriminate|].
    change (length _) with 2%nat in Hmean.
    change (Np.sum _) with (0 + (8 + 0))%R in Hmean.
    cbn [INR] in Hmean. lra.
Defined.

(** X15.  The pro/con balance lies in [0,10] and reads the majority: it is 5
    exactly when there are as many pros as cons (none at all included),
    above 5 exactly when the pros outnumber the cons, 10 exactly when
    there are pros and no cons, and 0 exactly when there are cons and no
    pros. *)
Theorem procon_balance_reads_majority (arguments : ArgumentReport) :
  let balance := CompilationAgent._calculate_procon_balance arguments in
  let pros := length (pro_arguments arguments) in
  let cons := length (con_arguments arguments) in
  (0 <= balance <= 10)%R
  ∧ (balance = 5%R ↔ pros = cons)
  ∧ ((5 < balance)%R ↔ (cons < pros)%nat)
  ∧ (balance = 10%R ↔ (cons = 0 ∧ 0 < pros)%nat)
  ∧ (balance = 0%R ↔ (pros = 0 ∧ 0 < cons)%nat).
Proof.
  intros balance pros cons.
  unfold balance, CompilationAgent._calculate_procon_balance. cbn zeta.
  fold pros cons. case_decide as Hzero.
  { destruct Hzero as [-> ->]. repeat split; intros; try lra; lia. }
  assert (Hsum : (0 < pros + cons)%nat) by lia.
  pose proof (pos_INR pros) as Hp. pose proof (pos_INR cons) as Hc.
  assert (Hpc : (0 < INR pros + INR cons)%R).
  { rewrite <- plus_INR. by apply lt_0_INR. }
  assert (Hnat : ∀ a b : nat, (INR a < INR b)%R ↔ (a < b)%nat).
  { intros a b. split; [apply INR_lt | apply lt_INR]. }
  assert (Heq : ∀ a b : nat, INR a = INR b ↔ a = b).
  { intros a b. split; [apply INR_eq | by intros ->]. }
  rewrite <- Hnat, <- Heq.
  assert (H0 : ∀ n : nat, (n = 0)%nat ↔ INR n = 0%R).
  { intros n. rewrite <- (Heq n 0%nat). done. }
  assert (Hpos : ∀ n : nat, (0 < n)%nat ↔ (0 < INR n)%R).
  { intros n. rewrite <- (Hnat 0%nat n). done. }
  rewrite !H0, !Hpos, plus_INR.
  set (b := (INR pros / (INR pros + INR cons) * 10)%R).
  assert (Hb : (b * (INR pros + INR cons) = 10 * INR pros)%R).
  { unfold b. field. lra. }
  clearbody b. revert Hp Hc Hpc Hb.
  generalize (INR pros) (INR cons). intros P C Hp Hc Hpc Hb.
  repeat split; intros; nra.
Qed.

Section Fallback.
Import CompilationAgent.
Local Open Scope R_scope.

Lemma score_to_recommendation_cases (score : R) :
  (_score_to_recommendation score = StrongBuy ↔ 8 <= score)
  ∧ (_score_to_recommendation score = Consider ↔ 5 <= score < 8)
  ∧ (_score_to_recommendation score = Pass ↔ score < 5).
Proof.
  unfold _score_to_recommendation.
  destruct (Rle_dec 8 score), (Rle_dec 5 score);
    repeat split; intros; try done; try lra.
Qed.

Lemma clamp_score_range (x : PyFloat) : 0 <= clamp_score x <= 10.
Proof.
  destruct x; cbn [clamp_score]; try lra.
  change (Rmax 0 (Rmin 10 ?v)) with (clamp 0 10 v).
  apply clamp_bounds. lra.
Qed.

End Fallback.

(** X16.  The fallback compilation of a validated evaluation scores
    0.4 * preference match + 0.3 * additional factors + 1.5, a value
    between 1.5 and 8.5 that the clamp leaves alone, and recommends by the
    thresholds 8 and 5.  With no optional score present the score is
    0.4 * preference match + 3, at most 7: the fallback then never
    recommends Strong Buy, and recommends Pass exactly when the preference
    match is below 5. *)
Theorem fallback_compilation_score (format_1f format_float : R → string)
    (ev : EvaluationReport) (Hvalid : valid_evaluation ev) :
  let result :=
    CompilationAgent._fallback_compilation format_1f format_float ev in
  let score := result.1.1 in
  let additional := CompilationAgent._calculate_additional_factors_score ev in
  score = (0.4 * preference_match_score ev + 0.3 * additional + 1.5)%R
  ∧ (1.5 <= score <= 8.5)%R
  ∧ (result.2 = StrongBuy ↔ (8 <= score)%R)
  ∧ (result.2 = Consider ↔ (5 <= score < 8)%R)
  ∧ (result.2 = Pass ↔ (score < 5)%R)
  ∧ (omap (λ s, s) (optional_scores ev) = [] →
     score = (0.4 * preference_match_score ev + 3)%R
     ∧ result.2 ≠ StrongBuy
     ∧ (result.2 = Pass ↔ (preference_match_score ev < 5)%R)).
Proof.
  intros result score additional. destruct Hvalid as [Hpm Hopt].
  assert (Hadd : (0 <= additional <= 10)%R).
  { apply additional_factors_between; [lra|done]. }
  assert (Hscore : score
            = (0.4 * preference_match_score ev + 0.3 * additional + 1.5)%R).
  { unfold score, result, CompilationAgent._fallback_compilation.
    cbn [fst]. fold additional.
    change (Rmax 0 (Rmin 10 ?v)) with (clamp 0 10 v).
    rewrite clamp_id; lra. }
  assert (Hrec : result.2 = CompilationAgent._score_to_recommendation score)
    by reflexivity.
  destruct (score_to_recommendation_cases score) as (Hs & Hc & Hp).
  split; [exact Hscore|]. split; [lra|].
  rewrite Hrec. split; [exact Hs|]. split; [exact Hc|]. split; [exact Hp|].
  intros Hnone.
  assert (Hfive : additional = 5%R).
  { unfold additional, CompilationAgent._calculate_additional_factors_score.
    cbn zeta. fold (optional_scores ev). by rewrite Hnone. }
  split; [lra|]. split.
  - rewrite Hs. lra.
  - rewrite Hp. split; lra.
Qed.

Lemma fallback_compilation_score_witness :
  (CompilationAgent._fallback_compilation (λ _, "") (λ _, "")
     eval_scored).1.1 = 6.3%R.
Proof.
  assert (Hvalid : valid_evaluation eval_scored).
  { split; [cbn; lra|]. intros v Hv.
    unfold optional_scores, eval_scored in Hv. cbn in Hv.
    repeat (apply elem_of_cons in Hv as [Hv|Hv]; [try done|]);
      [injection Hv as ->; lra..|by apply elem_of_nil in Hv]. }
  destruct (fallback_compilation_score (λ _, "") (λ _, "") eval_scored Hvalid)
    as (Hscore & _).
  rewrite Hscore.
  change (preference_match_score eval_scored) with 9%R.
  change (CompilationAgent._calculate_additional_factors_score eval_scored)
    with ((0 + 0 + 8) / INR 2)%R.
  cbn [INR]. lra.
Defined.

(** X17.  Whatever the reply holds, [_parse_compilation_response] returns a
    score in [0,10].  A reply without a score scores 5, a score of NaN or
    +Infinity is turned into 10 and -Infinity into 0.  A recommendation
    that is one of the three accepted strings is kept whatever the score
    is, a missing one reads Consider whatever the score is, and any other
    one is replaced by the recommendation the score gives. *)
Theorem parse_compilation_response_score_in_range
    (format_1f format_float : R → string)
    (reply : option CompilationAgent.JsonReply) (ev : EvaluationReport) :
  let result :=
    CompilationAgent._parse_compilation_response format_1f format_float
      reply ev in
  (0 <= result.1.1 <= 10)%R
  ∧ (∀ r : CompilationAgent.JsonReply, reply = Some r →
       (CompilationAgent.reply_final_score r = None → result.1.1 = 5%R)
       ∧ (CompilationAgent.reply_final_score r
            = Some CompilationAgent.NaN → result.1.1 = 10%R)
       ∧ (CompilationAgent.reply_final_score r
            = Some CompilationAgent.PosInf → result.1.1 = 10%R)
       ∧ (CompilationAgent.reply_final_score r
            = Some CompilationAgent.NegInf → result.1.1 = 0%R)
       ∧ (∀ v, CompilationAgent.reply_final_score r
                 = Some (CompilationAgent.Finite v) →
               (0 <= v <= 10)%R → result.1.1 = v)
       ∧ (CompilationAgent.reply_recommendation r = None →
          result.2 = Consider)
       ∧ (∀ s rec, CompilationAgent.reply_recommendation r = Some s →
                   CompilationAgent.recommendation_of s = Some rec →
                   result.2 = rec)
       ∧ (∀ s, CompilationAgent.reply_recommendation r = Some s →
               CompilationAgent.recommendation_of s = None →
               result.2
               = CompilationAgent._score_to_recommendation result.1.1)).
Proof.
  intros result. split.
  - unfold result, CompilationAgent._parse_compilation_response.
    destruct reply as [r|]; cbn [fst].
    + apply clamp_score_range.
    + unfold CompilationAgent._fallback_compilation. cbn [fst].
      change (Rmax 0 (Rmin 10 ?v)) with (clamp 0 10 v).
      apply clamp_bounds. lra.
  - intros r ->. unfold result, CompilationAgent._parse_compilation_response.
    cbn [fst snd].
    split; [|split; [|split; [|split; [|split; [|split; [|split]]]]]].
    + intros ->. cbn [default from_option Datatypes.id
                      CompilationAgent.clamp_score].
      change (Rmax 0 (Rmin 10 ?v)) with (clamp 0 10 v).
      rewrite clamp_id; lra.
    + by intros ->.
    + by intros ->.
    + by intros ->.
    + intros v -> Hv. cbn [default from_option Datatypes.id
                           CompilationAgent.clamp_score].
      change (Rmax 0 (Rmin 10 ?x)) with (clamp 0 10 x).
      by rewrite clamp_id.
    + by intros ->.
    + intros s rec -> Hrec. cbn [default from_option Datatypes.id].
      by rewrite Hrec.
    + intros s -> Hrec. cbn [default from_option Datatypes.id].
      by rewrite Hrec.
Qed.

(** ** The scrapers' number formats *)

Section NumberFormats.
Import PyStr BaseScraper.

Lemma chars_app (a b : string) : chars (a +:+ b) = chars a ++ chars b.
Proof.
  unfold chars. induction a as [|c a IH]; [done|].
  simpl. f_equal. exact IH.
Qed.

Lemma is_decimal_isdigit (c : ascii) : is_decimal c = true → isdigit c = true.
Proof. unfold isdigit, is_decimal. by intros ->. Qed.

Lemma digit_value_range (c : ascii) :
  is_decimal c = true → (0 <= digit_value c <= 9)%Z.
Proof.
  unfold is_decimal, in_range, digit_value.
  intros [H1 H2]%andb_prop. apply N.leb_le in H1, H2. lia.
Qed.

Lemma decimal_value_snoc (s : list ascii) (c : ascii) :
  decimal_value (s ++ [c]) = (10 * decimal_value s + digit_value c)%Z.
Proof. unfold decimal_value. by rewrite foldl_app. Qed.

Lemma decimal_value_app (a b : list ascii) :
  decimal_value (a ++ b)
  = (decimal_value a * 10 ^ Z.of_nat (length b) + decimal_value b)%Z.
Proof.
  induction b as [|c b IH] using rev_ind.
  - rewrite app_nil_r. cbn. lia.
  - rewrite app_assoc, !decimal_value_snoc, IH, length_app. cbn [length].
    rewrite Nat2Z.inj_add, Z.pow_add_r by lia. cbn. lia.
Qed.

Lemma decimal_value_nonneg (s : list ascii) :
  forallb is_decimal s = true → (0 <= decimal_value s)%Z.
Proof.
  induction s as [|c s IH] using rev_ind; [done|].
  rewrite forallb_app. intros [Hs Hc]%andb_prop. cbn in Hc.
  rewrite andb_true_r in Hc. rewrite decimal_value_snoc.
  pose proof (digit_value_range c Hc). specialize (IH Hs). lia.
Qed.

Lemma int_nonneg (limit : nat) (s : list ascii) (v : Z) :
  int limit s = Some v → (0 <= v)%Z.
Proof.
  unfold int. destruct s as [|c s]; [done|].
  destruct (forallb is_decimal (c :: s)) eqn:Hd; [|done].
  case_decide; [done|]. intros [= <-]. by apply decimal_value_nonneg.
Qed.

(** The integer the three integer formats return for the digit
    characters of the text. *)
Definition read_digits (limit : nat) (digits : list ascii) : Z :=
  match digits with
  | [] => 0%Z
  | _ => default 0%Z (int limit digits)
  end.

Lemma format_price_digits (limit : nat) (s : string) :
  _format_price limit s = read_digits limit (digits_of s).
Proof.
  unfold _format_price, read_digits. cbn zeta.
  destruct (digits_of s); [done|]. by destruct (int limit _).
Qed.

Lemma digits_of_app (a b : string) :
  digits_of (a +:+ b) = digits_of a ++ digits_of b.
Proof. unfold digits_of. by rewrite chars_app, List.filter_app. Qed.

Lemma search_number_cons (c : ascii) (s : list ascii) :
  search_number (c :: s)
  = if is_decimal c
    then match (span is_decimal (c :: s)).2 with
         | "."%char :: rest =>
             Some ((span is_decimal (c :: s)).1,
                   Some (span is_decimal rest).1)
         | _ => Some ((span is_decimal (c :: s)).1, None)
         end
    else search_number s.
Proof. reflexivity. Qed.

Lemma search_number_skip (pre s : list ascii) :
  Forall (λ c, is_decimal c = false) pre →
  search_number (pre ++ s) = search_number s.
Proof.
  intros Hpre. induction Hpre as [|c pre Hc _ IH]; [done|].
  cbn [app]. rewrite search_number_cons. by rewrite Hc.
Qed.

Lemma span_decimal (w rest : list ascii) :
  forallb is_decimal w = true →
  match rest with [] => True | c :: _ => is_decimal c = false end →
  span is_decimal (w ++ rest) = (w, rest).
Proof.
  intros Hw Hrest. induction w as [|c w IH].
  - destruct rest as [|c rest]; [done|]. cbn. by rewrite Hrest.
  - cbn in Hw. apply andb_prop in Hw as [Hc Hw].
    cbn [app span]. rewrite Hc, IH by done. done.
Qed.

Lemma float_nonneg (whole : list ascii) (fraction : option (list ascii)) :
  forallb is_decimal whole = true →
  (∀ f, fraction = Some f → forallb is_decimal f = true) →
  (0 <= float whole fraction)%R.
Proof.
  intros Hw Hf. unfold float.
  assert (H0 : (0 <= IZR (decimal_value whole))%R).
  { apply IZR_le. by apply decimal_value_nonneg. }
  destruct fraction as [f|]; [|lra].
  assert (H1 : (0 <= IZR (decimal_value f))%R).
  { apply IZR_le. apply decimal_value_nonneg. by apply Hf. }
  assert (H2 : (0 < 10 ^ length f)%R) by (apply pow_lt; lra).
  assert (H3 : (0 <= IZR (decimal_value f) / 10 ^ length f)%R).
  { apply Rmult_le_pos; [done|]. left. by apply Rinv_0_lt_compat. }
  lra.
Qed.

Lemma span_forall (p : ascii → bool) (s : list ascii) :
  forallb p (span p s).1 = true.
Proof.
  induction s as [|c s IH]; [done|]. cbn [span].
  destruct (p c) eqn:Hc; [|done]. cbn. by rewrite Hc, IH.
Qed.

Lemma search_number_decimal (s : list ascii)
    (m : list ascii * option (list ascii)) :
  search_number s = Some m →
  forallb is_decimal m.1 = true
  ∧ ∀ f, m.2 = Some f → forallb is_decimal f = true.
Proof.
  revert m. induction s as [|c s IH]; intros m; [done|].
  rewrite search_number_cons.
  destruct (is_decimal c) eqn:Hc; [|apply IH].
  pose proof (span_forall is_decimal (c :: s)) as Hw.
  set (whole := span is_decimal (c :: s)) in *. clearbody whole.
  assert (Hnone : Some (whole.1, None) = Some m
                  → forallb is_decimal m.1 = true
                    ∧ ∀ f, m.2 = Some f → forallb is_decimal f = true).
  { intros Hm. injection Hm as <-. split; [exact Hw|done]. }
  destruct whole.2 as [|d rest]; [exact Hnone|].
  destruct (decide (d = "."%char)) as [->|Hd].
  - pose proof (span_forall is_decimal rest) as Hf.
    set (fraction := span is_decimal rest) in *. clearbody fraction.
    intros Hm. injection Hm as <-. split; [exact Hw|].
    intros f Hfr. injection Hfr as <-. exact Hf.
  - destruct d as [[] [] [] [] [] [] [] []]; try exact Hnone. done.
Qed.

End NumberFormats.

Section FormatTheorems.
Import PyStr BaseScraper.

Lemma filter_isdigit_decimal (a : list ascii) :
  forallb is_decimal a = true → List.filter isdigit a = a.
Proof.
  induction a as [|c a IH]; [done|]. cbn [forallb List.filter].
  intros [Hc Ha]%andb_prop. rewrite (is_decimal_isdigit c Hc). by rewrite IH.
Qed.

Lemma filter_isdigit_none (sep : list ascii) :
  Forall (λ c, isdigit c = false) sep → List.filter isdigit sep = [].
Proof.
  induction 1 as [|c sep Hc _ IH]; [done|]. cbn [List.filter]. by rewrite Hc.
Qed.

Lemma read_digits_decimal (limit : nat) (digits : list ascii) :
  forallb is_decimal digits = true →
  (limit = 0 ∨ length digits <= limit)%nat →
  read_digits limit digits = decimal_value digits.
Proof.
  intros Hd Hlen. unfold read_digits, int.
  destruct digits as [|c digits]; [done|].
  rewrite Hd. rewrite decide_False by lia. done.
Qed.

(** The square-metre sign of a text such as "1,200 ft²". *)
Definition superscript_two : ascii := ascii_of_nat 178.

(** X18.  The three integer formats are one function: it reads the digit
    characters of the text as a single decimal number, so characters that
    are no digits are ignored wherever they stand and the digits of
    separate numbers run together ("2-3" reads 23); the result is never
    negative; and it is 0 when the text holds a superscript digit or more
    digits than the interpreter converts. *)
Theorem integer_formats_concatenate_digits (limit : nat) (s : string) :
  let digits := digits_of s in
  _format_bedrooms limit s = _format_price limit s
  ∧ _format_sqft limit s = _format_price limit s
  ∧ (0 <= _format_price limit s)%Z
  ∧ (∀ (a b : string) (c : ascii),
       isdigit c = false →
       _format_price limit (a +:+ String c b) = _format_price limit (a +:+ b))
  ∧ (forallb is_decimal digits = false → _format_price limit s = 0%Z)
  ∧ (limit ≠ 0%nat → (limit < length digits)%nat →
     _format_price limit s = 0%Z)
  ∧ (forallb is_decimal digits = true →
     (limit = 0 ∨ length digits <= limit)%nat →
     _format_price limit s = decimal_value digits)
  ∧ (∀ a sep b : list ascii,
       forallb is_decimal a = true → forallb is_decimal b = true →
       Forall (λ c, isdigit c = false) sep →
       (limit = 0 ∨ length a + length b <= limit)%nat →
       _format_bedrooms limit (str (a ++ sep ++ b))
       = (decimal_value a * 10 ^ Z.of_nat (length b) + decimal_value b)%Z)
  ∧ _format_price 4300 "$1,250,000" = 1250000%Z
  ∧ _format_bedrooms 4300 "2-3 bd" = 23%Z
  ∧ _format_sqft 4300 ("1,200 ft" +:+ String superscript_two "") = 0%Z.
Proof.
  intros digits.
  split; [reflexivity|]. split; [reflexivity|].
  split; [|split; [|split; [|split; [|split; [|split]]]]].
  - rewrite format_price_digits. unfold read_digits.
    destruct (digits_of s) as [|c ds]; [done|].
    destruct (int limit (c :: ds)) as [v|] eqn:Hv; [|done].
    by apply int_nonneg in Hv.
  - intros a b c Hc. rewrite !format_price_digits, !digits_of_app.
    do 2 f_equal. unfold digits_of. cbn [chars list_ascii_of_string].
    cbn [List.filter]. by rewrite Hc.
  - intros Hd. rewrite format_price_digits. fold digits.
    unfold read_digits, int. destruct digits as [|c ds]; [done|].
    by rewrite Hd.
  - intros H0 Hlen. rewrite format_price_digits. fold digits.
    unfold read_digits, int. destruct digits as [|c ds]; [done|].
    destruct (forallb is_decimal (c :: ds)); [|done].
    by rewrite decide_True.
  - intros Hd Hlen. rewrite format_price_digits. fold digits.
    by apply read_digits_decimal.
  - intros a sep b Ha Hb Hsep Hlen.
    change (_format_bedrooms limit ?x) with (_format_price limit x).
    rewrite format_price_digits. unfold digits_of.
    rewrite chars_str, !List.filter_app.
    rewrite (filter_isdigit_decimal a Ha), (filter_isdigit_decimal b Hb),
      (filter_isdigit_none sep Hsep).
    cbn [app]. rewrite read_digits_decimal.
    + apply decimal_value_app.
    + rewrite forallb_app. by rewrite Ha, Hb.
    + rewrite length_app. lia.
  - repeat split; vm_compute; reflexivity.
Qed.

Lemma search_number_whole (w rest : list ascii) :
  w ≠ [] → forallb is_decimal w = true →
  match rest with
  | [] => True
  | c :: _ => is_decimal c = false ∧ c ≠ "."%char
  end →
  search_number (w ++ rest) = Some (w, None).
Proof.
  intros Hne Hw Hrest. destruct w as [|c w]; [done|].
  cbn [app]. rewrite search_number_cons.
  change (c :: w ++ rest) with ((c :: w) ++ rest).
  assert (Hc : is_decimal c = true).
  { cbn in Hw. by apply andb_prop in Hw as [? _]. }
  rewrite Hc, span_decimal; [|done|by destruct rest as [|? ?]; [|tauto]].
  cbn [fst snd]. destruct rest as [|d rest]; [done|].
  destruct Hrest as [_ Hd].
  destruct d as [[] [] [] [] [] [] [] []]; try reflexivity. done.
Qed.

Lemma search_number_fraction (w f rest : list ascii) :
  w ≠ [] → forallb is_decimal w = true → forallb is_decimal f = true →
  match rest with [] => True | c :: _ => is_decimal c = false end →
  search_number (w ++ "."%char :: f ++ rest) = Some (w, Some f).
Proof.
  intros Hne Hw Hf Hrest. destruct w as [|c w]; [done|].
  cbn [app]. rewrite search_number_cons.
  change (c :: w ++ ?x) with ((c :: w) ++ x).
  assert (Hc : is_decimal c = true).
  { cbn in Hw. by apply andb_prop in Hw as [? _]. }
  rewrite Hc, span_decimal; [|done|reflexivity].
  cbn [fst snd]. by rewrite span_decimal.
Qed.

(** X19.  The bathroom format reads the first run of digits of the text, with
    the period and the digits that follow it directly: the text before
    the first digit is skipped, whatever follows the number is ignored,
    the result is never negative and is 0 for a text without digits.  A
    number written without integer part loses its period (".5" reads
    5). *)
Theorem format_bathrooms_reads_first_number (s : string) :
  (0 <= _format_bathrooms s)%R
  ∧ (Forall (λ c, is_decimal c = false) (chars s) → _format_bathrooms s = 0%R)
  ∧ (∀ pre : string,
       Forall (λ c, is_decimal c = false) (chars pre) →
       _format_bathrooms (pre +:+ s) = _format_bathrooms s)
  ∧ (∀ w rest : list ascii,
       w ≠ [] → forallb is_decimal w = true →
       match rest with
       | [] => True
       | c :: _ => is_decimal c = false ∧ c ≠ "."%char
       end →
       _format_bathrooms (str (w ++ rest)) = IZR (decimal_value w))
  ∧ (∀ w f rest : list ascii,
       w ≠ [] → forallb is_decimal w = true → forallb is_decimal f = true →
       match rest with [] => True | c :: _ => is_decimal c = false end →
       _format_bathrooms (str (w ++ "."%char :: f ++ rest))
       = (IZR (decimal_value w) + IZR (decimal_value f) / 10 ^ length f)%R)
  ∧ _format_bathrooms "2.5 baths" = 2.5%R
  ∧ _format_bathrooms ".5 ba" = 5%R.
Proof.
  split; [|split; [|split; [|split; [|split; [|split]]]]].
  - unfold _format_bathrooms.
    destruct (search_number (chars s)) as [m|] eqn:Hm; [|lra].
    apply search_number_decimal in Hm as [Hw Hf]. by apply float_nonneg.
  - intros Hnone. unfold _format_bathrooms.
    rewrite <- (app_nil_r (chars s)), search_number_skip by done. done.
  - intros pre Hpre. unfold _format_bathrooms.
    by rewrite chars_app, search_number_skip.
  - intros w rest Hne Hw Hrest. unfold _format_bathrooms.
    rewrite chars_str, search_number_whole by done.
    unfold float. cbn [fst snd]. lra.
  - intros w f rest Hne Hw Hf Hrest. unfold _format_bathrooms.
    rewrite chars_str, search_number_fraction by done. reflexivity.
  - unfold _format_bathrooms.
    change (search_number (chars "2.5 baths"))
      with (Some (chars "2", Some (chars "5"))).
    unfold float. cbn [fst snd].
    change (decimal_value (chars "2")) with 2%Z.
    change (decimal_value (chars "5")) with 5%Z.
    change (length (chars "5")) with 1%nat. rewrite pow_1. lra.
  - unfold _format_bathrooms.
    change (search_number (chars ".5 ba")) with (Some (chars "5", @None (list ascii))).
    unfold float. cbn [fst snd].
    change (decimal_value (chars "5")) with 5%Z. lra.
Qed.

End FormatTheorems.

(** ** How many listings a search collects *)

Section SearchCap.
Import ScraperOrchestrator BaseScraper.

Lemma omap_length_le {A B} (f : A → option B) (l : list A) :
  (length (omap f l) <= length l)%nat.
Proof.
  induction l as [|x l IH]; [done|]. cbn [omap list_omap].
  destruct (f x); cbn [length]; lia.
Qed.

Lemma extract_listings_length (cards : list (option Listing)) :
  (length (extract_listings cards) <= max_results)%nat.
Proof.
  unfold extract_listings.
  etransitivity; [apply omap_length_le|]. rewrite length_take. lia.
Qed.

Lemma combine_length (n : nat) (results : list ScraperResult)
    (acc : list Listing) :
  (∀ l, Returned l ∈ results → (length l <= n)%nat) →
  (length (foldl combine_step acc results)
   <= length acc + n * length results)%nat.
Proof.
  revert acc. induction results as [|r results IH]; intros acc Hall.
  - cbn. lia.
  - cbn [foldl length].
    etransitivity; [apply IH; intros l Hl; apply Hall; by right|].
    destruct r as [msg|l|]; cbn [combine_step]; try lia.
    rewrite length_app. pose proof (Hall l ltac:(left)). lia.
Qed.

End SearchCap.

(** X20.  A scraper looks at the first 20 listing cards of the page only and
    returns the listings those yield, so at most 20; its second cut to 20
    never removes anything, and cards after the twentieth are not used
    even when earlier cards yield nothing.  When loading the page fails it
    returns its mock listings. *)
Theorem scraper_search_is_capped (mock_listings : list Listing)
    (cards : list (option Listing)) :
  let result :=
    BaseScraper.search mock_listings (BaseScraper.PageLoaded cards) in
  result = omap (λ card, card) (take BaseScraper.max_results cards)
  ∧ (length result <= BaseScraper.max_results)%nat
  ∧ (∀ l, l ∈ result → Some l ∈ take BaseScraper.max_results cards)
  ∧ (∀ more : list (option Listing),
       (BaseScraper.max_results <= length cards)%nat →
       BaseScraper.search mock_listings
         (BaseScraper.PageLoaded (cards ++ more)) = result)
  ∧ BaseScraper.search mock_listings BaseScraper.PageFailed = mock_listings.
Proof.
  intros result.
  assert (Hres : result
                 = omap (λ card, card) (take BaseScraper.max_results cards)).
  { unfold result, BaseScraper.search. apply take_ge.
    apply extract_listings_length. }
  split; [exact Hres|]. split; [|split; [|split; [|reflexivity]]].
  - rewrite Hres. apply extract_listings_length.
  - intros l Hl. rewrite Hres in Hl.
    apply list_elem_of_omap in Hl as (card & Hcard & ->). exact Hcard.
  - intros more Hlen. rewrite Hres.
    unfold BaseScraper.search, BaseScraper.extract_listings.
    rewrite take_app_le by done.
    apply take_ge. apply extract_listings_length.
Qed.

(** X21.  The collector returns at most as many listings as the scrapers
    returned together: when no scraper returns more than [n] listings, at
    most [n] times the number of scrapers, whatever fails. *)
Theorem collector_is_bounded (results : list ScraperResult) (n : nat)
    (Hcap : ∀ l, Returned l ∈ results → (length l <= n)%nat) :
  (length (search_all_platforms results) <= n * length results)%nat.
Proof.
  unfold search_all_platforms. cbn zeta.
  etransitivity; [apply sublist_length, dedup_sublist|].
  etransitivity; [by apply (combine_length n)|]. cbn [length]. lia.
Qed.

(** Three scrapers: one finds two cards, one of which yields a listing,
    one falls back to its mock listing, one raises. *)
Definition sample_results : list ScraperResult :=
  [Returned (BaseScraper.search []
               (BaseScraper.PageLoaded
                  [Some (Fixtures.house "z1" "1 Oak St"); None]));
   Returned (BaseScraper.search [Fixtures.house "m1" "9 Elm St"]
               BaseScraper.PageFailed);
   Raised "timeout"].

Lemma collector_is_bounded_witness :
  (length (search_all_platforms sample_results)
   <= 20 * length sample_results)%nat.
Proof.
  apply (collector_is_bounded sample_results 20).
  intros l Hl. unfold sample_results in Hl.
  repeat (apply elem_of_cons in Hl as [Hl|Hl];
          [try (injection Hl as ->; vm_compute; lia); try done|]).
  by apply elem_of_nil in Hl.
Defined.

(** ** Searching one platform *)

(** X22.  [search_platform] looks the platform up by its lower-cased name: two
    spellings that differ in letter case only reach the same scraper or
    fail alike; the names it knows are zillow, redfin and realtor; any
    other name, a known one with surrounding blanks included, raises the
    error, whose text quotes the platform as it was given. *)
Theorem search_platform_ignores_case {A} (search : Source → A)
    (platform : string) :
  let name := PyStr.str (PyStr.lower (PyStr.chars platform)) in
  (∀ s : Source,
     name = Platform.get_source_name s →
     Platform.search_platform search platform = inr (search s))
  ∧ ((∀ s : Source, name ≠ Platform.get_source_name s) →
     Platform.search_platform search platform
     = inl ("Unknown platform: " +:+ platform))
  ∧ (∀ other : string,
       PyStr.lower (PyStr.chars other) = PyStr.lower (PyStr.chars platform) →
       match Platform.search_platform search other,
             Platform.search_platform search platform with
       | inr a, inr b => a = b
       | inl _, inl _ => True
       | _, _ => False
       end)
  ∧ Platform.search_platform search "ZiLLoW" = inr (search zillow)
  ∧ Platform.search_platform search " zillow"
    = inl "Unknown platform:  zillow".
Proof.
  intros name.
  assert (Hcases : ∀ p : string,
            let n := PyStr.str (PyStr.lower (PyStr.chars p)) in
            Platform.search_platform search p
            = if decide (n = "zillow") then inr (search zillow)
              else if decide (n = "redfin") then inr (search redfin)
              else if decide (n = "realtor") then inr (search realtor)
              else inl ("Unknown platform: " +:+ p)).
  { intros p n. unfold Platform.search_platform. fold n.
    cbn [Platform.scrapers List.find Platform.get_source_name].
    destruct (decide (n = "zillow")) as [->|H1]; [done|].
    rewrite (bool_decide_eq_false_2 ("zillow" = n)) by done.
    destruct (decide (n = "redfin")) as [->|H2]; [done|].
    rewrite (bool_decide_eq_false_2 ("redfin" = n)) by done.
    destruct (decide (n = "realtor")) as [->|H3]; [done|].
    by rewrite (bool_decide_eq_false_2 ("realtor" = n)) by done. }
  split; [|split; [|split; [|split]]].
  - intros s Hs. rewrite Hcases. cbn zeta. fold name. rewrite Hs.
    by destruct s.
  - intros Hnone. rewrite Hcases. cbn zeta. fold name.
    rewrite decide_False by apply (Hnone zillow).
    rewrite decide_False by apply (Hnone redfin).
    by rewrite decide_False by apply (Hnone realtor).
  - intros other Hlower. rewrite !Hcases. cbn zeta. rewrite Hlower.
    fold name. repeat case_decide; done.
  - rewrite Hcases. reflexivity.
  - rewrite Hcases. reflexivity.
Qed.

(** ** Rating every listing *)

Section RateAll.
Import Search RecommendationService SearchApi.

(** A sequence of feedback calls. *)
Definition submit_all (requests : list FeedbackRequest) (st : ApiState)
  : ApiState :=
  foldl (λ st request, (submit_feedback request st).1) st requests.

Lemma filter_all {A} (P : A → Prop) `{!∀ x, Decision (P x)} (l : list A) :
  (∀ x, x ∈ l → P x) → filter P l = l.
Proof.
  induction l as [|x l IH]; intros Hall; [done|].
  rewrite filter_cons_True by (apply Hall; left).
  f_equal. apply IH. intros y Hy. apply Hall. by right.
Qed.

(** One feedback call on a complete session, accepted or refused. *)
Lemma submit_feedback_step (request : FeedbackRequest) (st : ApiState)
    (session : SearchSession) :
  features_complete (service st) →
  search_sessions st !! fb_session_id request = Some session →
  status session = complete →
  let st' := (submit_feedback request st).1 in
  features_complete (service st')
  ∧ search_sessions st' = search_sessions st
  ∧ unseen_of (fb_session_id request) st'
    = filter (λ r, id (listing r) ≠ fb_listing_id request)
        (unseen_of (fb_session_id request) st).
Proof.
  intros Hc Hsession Hstatus st'.
  destruct (find_report (fb_listing_id request)
              (default [] (final_reports session))) as [found|] eqn:Hfind.
  - pose proof (submit_feedback_accepted request st session found
                  Hc Hsession Hstatus Hfind) as Hsub.
    cbn zeta in Hsub.
    destruct (record_feedback_complete request (listing found) found
                (service st) Hc) as (_ & _ & Hc' & _).
    unfold st'. rewrite Hsub. cbn [fst search_sessions service].
    split; [exact Hc'|]. split; [done|].
    unfold unseen_of, reports_of. cbn [search_sessions].
    rewrite seen_of_marked, list_filter_filter. apply list_filter_iff.
    intros r. case_decide as Hin.
    + split; [|tauto]. intros Hr. split; [|done]. intros Heq.
      apply Hr. by rewrite Heq.
    + rewrite elem_of_app, list_elem_of_singleton. tauto.
  - assert (Hsame : submit_feedback request st
                    = (st, HTTPException 404
                             "Listing not found in this session")).
    { unfold submit_feedback. cbn zeta.
      rewrite (completed_session_Return _ _ _ session) by done.
      by rewrite Hfind. }
    unfold st'. rewrite Hsame. cbn [fst]. split; [done|]. split; [done|].
    apply find_report_None in Hfind. rewrite Forall_forall in Hfind.
    symmetry. apply filter_all. intros r Hr. apply Hfind.
    unfold unseen_of, reports_of in Hr. rewrite Hsession in Hr.
    by apply list_elem_of_filter in Hr as [_ Hr].
Qed.

Lemma submit_all_unseen (requests : list FeedbackRequest) (st : ApiState)
    (session_id : string) (session : SearchSession) :
  features_complete (service st) →
  search_sessions st !! session_id = Some session →
  status session = complete →
  Forall (λ request, fb_session_id request = session_id) requests →
  search_sessions (submit_all requests st) = search_sessions st
  ∧ unseen_of session_id (submit_all requests st)
    = filter (λ r, id (listing r) ∉ fb_listing_id <$> requests)
        (unseen_of session_id st).
Proof.
  intros Hc Hsession Hstatus Hall. revert st Hc Hsession.
  induction Hall as [|request requests Hsid _ IH]; intros st Hc Hsession.
  - cbn [submit_all foldl]. split; [done|]. symmetry. apply filter_all.
    intros r _. apply not_elem_of_nil.
  - subst session_id.
    destruct (submit_feedback_step request st session Hc Hsession Hstatus)
      as (Hc' & Hsess & Hunseen).
    cbn [submit_all foldl]. fold (submit_all requests (submit_feedback request st).1).
    destruct (IH (submit_feedback request st).1 Hc') as [Hs Hu].
    { by rewrite Hsess. }
    split; [by rewrite Hs|]. rewrite Hu, Hunseen, list_filter_filter.
    apply list_filter_iff. intros r. rewrite fmap_cons, not_elem_of_cons.
    tauto.
Qed.

End RateAll.

Section RateAllTheorem.
Import Search RecommendationService SearchApi.

Lemma next_listing_by_unseen (session_id : string) (st : ApiState)
    (session : SearchSession) :
  search_sessions st !! session_id = Some session →
  status session = complete →
  default [] (final_reports session) ≠ [] →
  SearchApi.get_next_listing session_id st
  = match head (get_ranked_listings session_id (unseen_of session_id st)
                  (service st)) with
    | None => Return {| next_message := "No more unseen listings available";
                        next_listing := None; all_seen := true |}
    | Some r => Return {| next_message := "Next recommended listing";
                          next_listing := Some r; all_seen := false |}
    end.
Proof.
  intros Hsession Hstatus Hne. unfold SearchApi.get_next_listing.
  rewrite (completed_session_Return _ _ _ session) by done.
  assert (Hunseen : unseen_of session_id st
                    = filter (λ r, id (listing r)
                                   ∉ default [] (seen_listings st !! session_id))
                        (default [] (final_reports session))).
  { unfold unseen_of, reports_of, seen_of. by rewrite Hsession. }
  destruct (default [] (final_reports session)) as [|r0 rest] eqn:Hreports;
    [done|].
  by rewrite service_next_listing, <- Hunseen.
Qed.

(** X23.  After feedback calls for a session, the reports still unseen are
    those whose listing no call named.  So once a call has been made for
    every listing of the session, in any order and however often, the
    next-listing endpoint reports all_seen; and as long as some report's
    listing has not been named it returns a listing. *)
Theorem feedback_on_every_listing_exhausts (requests : list FeedbackRequest)
    (st : ApiState) (session_id : string) (session : SearchSession)
    (Hcomplete : features_complete (service st))
    (Hsession : search_sessions st !! session_id = Some session)
    (Hstatus : status session = complete)
    (Hreports : default [] (final_reports session) ≠ [])
    (Hsid : Forall (λ request, fb_session_id request = session_id) requests) :
  let st' := submit_all requests st in
  unseen_of session_id st'
  = filter (λ r, id (listing r) ∉ fb_listing_id <$> requests)
      (unseen_of session_id st)
  ∧ ((∀ r, r ∈ default [] (final_reports session) →
           id (listing r) ∈ fb_listing_id <$> requests) →
     SearchApi.get_next_listing session_id st'
     = Return {| next_message := "No more unseen listings available";
                 next_listing := None; all_seen := true |})
  ∧ (∀ r, r ∈ unseen_of session_id st →
          id (listing r) ∉ fb_listing_id <$> requests →
          ∃ top, SearchApi.get_next_listing session_id st'
                 = Return {| next_message := "Next recommended listing";
                             next_listing := Some top; all_seen := false |}).
Proof.
  intros st'.
  destruct (submit_all_unseen requests st session_id session
              Hcomplete Hsession Hstatus Hsid) as [Hsessions Hunseen].
  fold st' in Hsessions, Hunseen.
  assert (Hsession' : search_sessions st' !! session_id = Some session)
    by (by rewrite Hsessions).
  pose proof (next_listing_by_unseen session_id st' session
                Hsession' Hstatus Hreports) as Hnext.
  pose proof (ranked_perm session_id (unseen_of session_id st') (service st'))
    as Hperm.
  split; [exact Hunseen|]. split.
  - intros Hall.
    assert (Hnil : unseen_of session_id st' = []).
    { rewrite Hunseen.
      destruct (filter _ (unseen_of session_id st)) as [|r l] eqn:Hf; [done|].
      assert (Hr : r ∈ r :: l) by left. rewrite <- Hf in Hr.
      apply list_elem_of_filter in Hr as [Hout Hr]. exfalso. apply Hout, Hall.
      unfold unseen_of, reports_of in Hr. rewrite Hsession in Hr.
      by apply list_elem_of_filter in Hr as [_ Hr]. }
    rewrite Hnil in Hperm. apply Permutation_nil_r in Hperm.
    by rewrite Hnext, Hnil, Hperm.
  - intros r Hr Hout.
    assert (Hin : r ∈ unseen_of session_id st').
    { rewrite Hunseen. by apply list_elem_of_filter. }
    rewrite <- Hperm in Hin. rewrite Hnext.
    destruct (get_ranked_listings session_id (unseen_of session_id st')
                (service st')) as [|top ranked]; [by apply elem_of_nil in Hin|].
    by exists top.
Qed.

Lemma feedback_on_every_listing_exhausts_witness :
  SearchApi.get_next_listing "s-1"
    (submit_all [feedback_request "s-1" "z2" like;
                 feedback_request "s-1" "z1" dislike;
                 feedback_request "s-1" "z2" dislike] ApiFixtures.state0)
  = Return {| next_message := "No more unseen listings available";
              next_listing := None; all_seen := true |}.
Proof.
  destruct (feedback_on_every_listing_exhausts
              [feedback_request "s-1" "z2" like;
               feedback_request "s-1" "z1" dislike;
               feedback_request "s-1" "z2" dislike]
              ApiFixtures.state0 "s-1" ApiFixtures.session0
              features_complete_empty ApiFixtures.state0_session eq_refl)
    as (_ & Hall & _).
  - discriminate.
  - repeat constructor.
  - apply Hall. intros r Hr. cbn in Hr.
    apply elem_of_cons in Hr as [->|Hr];
      [|apply list_elem_of_singleton in Hr as ->]; cbn; set_solver.
Defined.

End RateAllTheorem.

(** ** The feedback history *)

(** X24.  The history of a session, on the stores reached from the empty
    collections by any sequence of calls: it lists each listing at most
    once; every record repeats what some call of that session recorded
    (listing id, action, price, bedrooms, final score and features); and
    right after a call the history of its session holds the record of
    that call. *)
Theorem feedback_history_of_calls (calls : list FeedbackCall)
    (session_id : string) :
  let history := Insights.get_feedback_history session_id (replay calls) in
  NoDup (Insights.h_listing_id <$> history)
  ∧ (∀ h, h ∈ history →
       ∃ c, c ∈ calls
            ∧ call_session c = session_id
            ∧ Insights.h_listing_id h = call_listing c
            ∧ Insights.h_action h = action c.1.1
            ∧ Insights.h_price h = price c.1.2
            ∧ Insights.h_bedrooms h = bedrooms c.1.2
            ∧ Insights.h_final_score h = final_score c.2
            ∧ Insights.h_features h = _extract_features c.1.2 c.2)
  ∧ (∀ c : FeedbackCall,
       ∃ h, h ∈ Insights.get_feedback_history (call_session c)
                  (replay (calls ++ [c]))
            ∧ Insights.h_listing_id h = call_listing c
            ∧ Insights.h_action h = action c.1.1
            ∧ Insights.h_features h = _extract_features c.1.2 c.2).
Proof.
  intros history. unfold history, Insights.get_feedback_history.
  split; [|split].
  - rewrite <- list_fmap_compose.
    apply NoDup_fmap_2_strong;
      [|apply NoDup_filter, NoDup_map_to_list].
    intros [k1 e1] [k2 e2] H1 H2 Hid. cbn in Hid.
    apply get_where_session_elem in H1 as [Hs1 Hk1].
    apply get_where_session_elem in H2 as [Hs2 Hk2].
    assert (Hkey1 : k1 = feedback_id session_id (meta_listing_id e1.2))
      by (by eapply pair_events_key).
    assert (Hkey2 : k2 = feedback_id session_id (meta_listing_id e2.2))
      by (by eapply pair_events_key).
    assert (Hk : k1 = k2) by congruence. subst k2. congruence.
  - intros h Hh. apply list_elem_of_fmap in Hh as ([k e] & -> & He).
    apply get_where_session_elem in He as [Hs Hk].
    destruct (replay_entries _ _ _ Hk) as (c & Hc & _ & ->).
    exists c. cbn in Hs. by repeat split.
  - intros c. eexists. split.
    + apply list_elem_of_fmap. eexists. split; [reflexivity|].
      apply get_where_session_elem. split; [|].
      2: { rewrite replay_snoc, record_call_feedback. apply lookup_insert_eq. }
      reflexivity.
    + by repeat split.
Qed.

(** ** Status and progress along a run *)

Section StatusProgress.
Import ScraperOrchestrator Search.
Local Open Scope R_scope.

(** The progress values that go with a status. *)
Definition consistent (s : SearchSession) : Prop :=
  match status s with
  | pending => progress s = 0
  | scraping => progress s = 0 ∨ progress s = 20
  | evaluating => 20 <= progress s <= 95
  | complete | error => True
  end.

(** The writes a state admits. *)
Definition admits (s : SearchSession) (w : Write) : Prop :=
  match w with
  | SetStatus pending => False
  | SetStatus scraping => status s = pending
  | SetStatus evaluating =>
      (status s = scraping ∧ progress s = 20) ∨ status s = evaluating
  | SetStatus _ => True
  | SetProgress v =>
      match status s with
      | pending => False
      | scraping => v = 20
      | evaluating => 20 <= v <= 95
      | _ => True
      end
  | _ => True
  end.

Fixpoint admissible (s : SearchSession) (ws : list Write) : Prop :=
  match ws with
  | [] => True
  | w :: ws' => admits s w ∧ admissible (apply_write w s) ws'
  end.

Lemma admits_consistent (s : SearchSession) (w : Write) :
  consistent s → admits s w → consistent (apply_write w s).
Proof.
  unfold consistent, admits.
  destruct w as [st|m|v|l|l|l|l]; cbn [apply_write status progress];
    try done.
  - destruct st; try done.
    + intros Hc Hs. rewrite Hs in Hc. by left.
    + intros Hc [[Hs Hp]|Hs]; [rewrite Hp; lra|]. by rewrite Hs in Hc.
  - destruct (status s); try done. intros _ ->. by right.
Qed.

Lemma admissible_app (s : SearchSession) (ws1 ws2 : list Write) :
  admissible s (ws1 ++ ws2)
  ↔ admissible s ws1 ∧ admissible (final_state s ws1) ws2.
Proof.
  revert s. induction ws1 as [|w ws1 IH]; intros s; cbn [app admissible].
  - unfold final_state. cbn. tauto.
  - rewrite IH. unfold final_state. cbn [foldl]. tauto.
Qed.

Lemma admissible_consistent (s x : SearchSession) (ws : list Write) :
  consistent s → admissible s ws → x ∈ run_writes s ws → consistent x.
Proof.
  revert s. induction ws as [|w ws IH]; intros s Hc Ha; cbn [run_writes].
  - by intros ->%list_elem_of_singleton.
  - destruct Ha as [Hw Ha]. intros [->|Hx]%elem_of_cons; [done|].
    apply (IH (apply_write w s)); [by apply admits_consistent|done..].
Qed.

Lemma admissible_take (k : nat) (s : SearchSession) (ws : list Write) :
  admissible s ws → admissible s (take k ws).
Proof.
  revert s ws. induction k as [|k IH]; intros s [|w ws]; try done.
  cbn [take admissible]. intros [Hw Ha]. split; [done|]. by apply IH.
Qed.

(** Progress writes within bounds, while the status is evaluating. *)
Lemma admissible_progress (s : SearchSession) (ws : list Write) :
  status s = evaluating →
  Forall (λ w, match w with
               | SetProgress v => 20 <= v <= 95
               | _ => False
               end) ws →
  admissible s ws ∧ status (final_state s ws) = evaluating.
Proof.
  intros Hs Hall. revert s Hs.
  induction Hall as [|w ws Hw _ IH]; intros s Hs; [done|].
  destruct w as [| |v| | | |]; try done.
  cbn [admissible]. unfold final_state. cbn [foldl].
  destruct (IH (apply_write (SetProgress v) s) Hs) as [Ha Hf].
  split; [|exact Hf]. split; [|exact Ha].
  unfold admits. by rewrite Hs.
Qed.

Lemma stage_loop_only_progress {X Y} (call : nat → X → option Y)
    (base span : R) (n i : nat) (xs : list X) :
  Forall (λ w, match w with SetProgress _ => True | _ => False end)
         (stage_loop call base span n i xs).2.
Proof.
  revert i. induction xs as [|x xs IH]; intros i; simpl; [constructor|].
  destruct (call i x); simpl; [constructor; [exact I|]|]; apply IH.
Qed.

Lemma stage_loop_bounded {X Y} (call : nat → X → option Y)
    (base span : R) (xs : list X) :
  0 <= span → 20 <= base → base + span <= 95 →
  Forall (λ w, match w with
               | SetProgress v => 20 <= v <= 95
               | _ => False
               end)
         (stage_loop call base span (length xs) 0 xs).2.
Proof.
  intros Hspan Hlo Hhi.
  destruct (stage_loop_range call base span xs Hspan) as [_ Hb].
  pose proof (stage_loop_only_progress call base span (length xs) 0 xs) as Hp.
  revert Hb Hp. generalize (stage_loop call base span (length xs) 0 xs).2.
  intros ws Hb Hp. induction Hp as [|w ws Hw _ IH]; [constructor|].
  destruct w as [| |v| | | |]; try done.
  cbn [omap list_omap written_progress] in Hb.
  apply Forall_cons in Hb as [Hv Hb].
  constructor; [lra | by apply IH].
Qed.

Lemma pipeline_admissible (chat_sessions : gmap string ChatSession)
    (c : Collaborators) (chat_id : string) :
  admissible (start_search chat_id) (pipeline_writes chat_sessions c chat_id).
Proof.
  unfold pipeline_writes.
  destruct (chat_sessions !! chat_id) as [cs|]; [|by cbn].
  destruct (preferences cs) as [prefs|]; [|by cbn].
  cbn zeta. set (st := stages c prefs).
  assert (Hblock : ∀ (s : SearchSession) (m : string) (v : R)
                     (ws rest : list Write),
            status s = evaluating ∨ (status s = scraping ∧ progress s = 20) →
            20 <= v <= 95 →
            Forall (λ w, match w with
                         | SetProgress v => 20 <= v <= 95
                         | _ => False
                         end) ws →
            (∀ s', status s' = evaluating → admissible s' rest) →
            admissible s
              ([SetStatus evaluating; SetMessage m; SetProgress v]
               ++ ws ++ rest)).
  { intros s m v ws rest Hs Hv Hws Hrest.
    cbn [app admissible apply_write status progress].
    split; [cbn; tauto|]. split; [done|]. split; [by cbn|].
    apply admissible_app.
    set (s1 := apply_write (SetProgress v)
                 (apply_write (SetMessage m)
                    (apply_write (SetStatus evaluating) s))).
    destruct (admissible_progress s1 ws eq_refl Hws) as [Ha Hf].
    split; [exact Ha | by apply Hrest]. }
  apply admissible_app. split; [by cbn|].
  apply (Hblock _ _ _ (st_evaluated st).2); [right; by split|lra| |].
  { apply stage_loop_bounded; lra. }
  intros s1 Hs1.
  apply (Hblock _ _ _ (st_argued st).2); [by left|lra| |].
  { apply stage_loop_bounded; lra. }
  intros s2 Hs2.
  apply (Hblock _ _ _ (st_final st).2); [by left|lra| |].
  { apply stage_loop_bounded; lra. }
  intros s3 Hs3. by cbn.
Qed.

Lemma run_admissible (chat_sessions : gmap string ChatSession)
    (c : Collaborators) (chat_id : string) (escaped : option (nat * string)) :
  admissible (start_search chat_id)
    (run_search_pipeline chat_sessions c chat_id escaped).
Proof.
  pose proof (pipeline_admissible chat_sessions c chat_id) as Ha.
  unfold run_search_pipeline. destruct escaped as [[k msg]|]; [|done].
  case_decide; [|done]. apply admissible_app.
  split; [by apply admissible_take | by cbn].
Qed.

End StatusProgress.

(** X25.  Along a run, whatever the collaborators do and wherever an exception
    escapes, the progress fits the status: it is 0 while the status is
    pending, 0 or 20 while it is scraping, and between 20 and 95 while it
    is evaluating.  A session that is not complete never shows a progress
    above 95. *)
Theorem progress_fits_status (chat_sessions : gmap string ChatSession)
    (c : Collaborators) (chat_id : string) (escaped : option (nat * string))
    (s : SearchSession) :
  s ∈ session_trace chat_sessions c chat_id escaped →
  match status s with
  | pending => progress s = 0%R
  | scraping => progress s = 0%R ∨ progress s = 20%R
  | evaluating => (20 <= progress s <= 95)%R
  | complete | error => True
  end
  ∧ (in_progress (status s) = true → (progress s <= 95)%R).
Proof.
  intros Hs.
  assert (Hc : consistent s).
  { apply (admissible_consistent (start_search chat_id) s
             (run_search_pipeline chat_sessions c chat_id escaped));
      [reflexivity|apply run_admissible|exact Hs]. }
  split; [exact Hc|]. unfold consistent in Hc.
  destruct (status s); cbn; try done; intros _; lra.
Qed.

Lemma progress_fits_status_witness :
  (progress (final_state (start_search "chat-1")
               (take 6 (run_search_pipeline Fixtures.chats0 Fixtures.c0
                          "chat-1" None))) <= 95)%R.
Proof.
  eapply (progress_fits_status Fixtures.chats0 Fixtures.c0 "chat-1" None).
  - unfold session_trace.
    rewrite <- (take_drop 6 (run_search_pipeline _ _ _ _)) at 2.
    apply run_writes_prefix.
  - reflexivity.
Defined.

(** ** The chat session *)

Section ChatFacts.
Import PyStr SearchApi Chat.

(** Whether the reply of a turn carries the marker. *)
Definition marked (turn : Turn) : bool :=
  match reply turn with
  | Some assistant_message => (chat assistant_message).2
  | None => false
  end.

(** The preferences a turn extracts: those [extract_preferences] returns
    when the reply carries the marker. *)
Definition extracts (turn : Turn) : option UserPreferences :=
  if marked turn
  then match extraction turn with
       | Some (Some p) => Some p
       | _ => None
       end
  else None.

(** The messages a turn adds. *)
Definition turn_messages (message : string) (turn : Turn)
  : list (Role * string) :=
  (user, message)
  :: match reply turn with
     | Some assistant_message => [(assistant, (chat assistant_message).1)]
     | None => []
     end.

(** The session one call of [send_message] leaves in the store. *)
Definition after_turn (message : string) (turn : Turn) (session : ChatSession)
  : ChatSession :=
  {| session_id := session_id session;
     messages := messages session ++ turn_messages message turn;
     preferences :=
       match extracts turn with
       | Some p => Some p
       | None => preferences session
       end;
     preferences_complete := (preferences_complete session || marked turn)%bool |}.

Lemma send_message_store (id message : string) (turn : Turn)
    (chat_sessions : gmap string ChatSession) (session : ChatSession) :
  chat_sessions !! id = Some session →
  (send_message id message turn chat_sessions).1
  = <[id := after_turn message turn session]> chat_sessions.
Proof.
  intros Hs. unfold send_message, after_turn, extracts, marked, turn_messages.
  rewrite Hs. cbn zeta.
  destruct (reply turn) as [raw|]; cbn [fst].
  - destruct (chat raw).2 eqn:Hm.
    + destruct (extraction turn) as [[p|]|]; cbn [fst]; f_equal;
        unfold add_message, set_complete, set_preferences;
        cbn [session_id messages preferences preferences_complete];
        rewrite <- app_assoc, orb_true_r; reflexivity.
    + cbn [fst]. f_equal. unfold add_message.
      cbn [session_id messages preferences preferences_complete].
      rewrite <- app_assoc, orb_false_r. reflexivity.
  - f_equal. unfold add_message.
    cbn [session_id messages preferences preferences_complete].
    rewrite orb_false_r. reflexivity.
Qed.

(** A conversation: a sequence of [send_message] calls on one session. *)
Definition converse (id : string) (turns : list (string * Turn))
    (chat_sessions : gmap string ChatSession) : gmap string ChatSession :=
  foldl (λ cs mt, (send_message id mt.1 mt.2 cs).1) chat_sessions turns.

Lemma converse_session (id : string) (turns : list (string * Turn))
    (chat_sessions : gmap string ChatSession) (session : ChatSession) :
  chat_sessions !! id = Some session →
  ∃ session',
    converse id turns chat_sessions !! id = Some session'
    ∧ session_id session' = session_id session
    ∧ messages session'
      = messages session ++ concat (map (λ mt, turn_messages mt.1 mt.2) turns)
    ∧ preferences session'
      = match last (omap (λ mt, extracts mt.2) turns) with
        | Some p => Some p
        | None => preferences session
        end
    ∧ preferences_complete session'
      = (preferences_complete session || existsb (λ mt, marked mt.2) turns)%bool
    ∧ ∀ other, other ≠ id →
        converse id turns chat_sessions !! other = chat_sessions !! other.
Proof.
  intros Hs. induction turns as [|[m t] turns IH] using rev_ind.
  - exists session. cbn. rewrite app_nil_r, orb_false_r. by repeat split.
  - destruct IH as (s1 & Hs1 & Hid & Hmsg & Hpref & Hpc & Hother).
    unfold converse in *. rewrite foldl_app. cbn [foldl fst snd].
    rewrite (send_message_store _ _ _ _ s1 Hs1).
    exists (after_turn m t s1). rewrite lookup_insert_eq.
    split; [done|]. split; [done|]. split; [|split; [|split]].
    + cbn [after_turn messages]. rewrite Hmsg, map_app, concat_app.
      cbn [map concat fst snd]. by rewrite app_nil_r, app_assoc.
    + cbn [after_turn preferences]. rewrite omap_app.
      cbn [omap list_omap snd].
      destruct (extracts t) as [p|].
      * by rewrite last_snoc.
      * by rewrite app_nil_r.
    + cbn [after_turn preferences_complete]. rewrite Hpc, existsb_app.
      cbn [existsb snd]. by rewrite orb_false_r, orb_assoc.
    + intros other Hne. rewrite lookup_insert_ne by done. by apply Hother.
Qed.

End ChatFacts.

Section ChatTheorems.
Import PyStr ScraperOrchestrator Search SearchApi Chat.

(** X26.  One call of [send_message] on a known session appends the user's
    message and, when the agent replies, the reply without the marker;
    the user's message stays in the history even when the agent raises.
    The completion flag is never reset, the preferences are replaced only
    by preferences extracted in this call and are never removed, and the
    other sessions are untouched. *)
Theorem send_message_extends_history (id message : string) (turn : Turn)
    (chat_sessions : gmap string ChatSession) (session : ChatSession)
    (Hsession : chat_sessions !! id = Some session) :
  let after := (send_message id message turn chat_sessions).1 in
  ∃ session',
    after !! id = Some session'
    ∧ messages session'
      = messages session ++ (user, message)
          :: match reply turn with
             | Some assistant_message =>
                 [(assistant, (chat assistant_message).1)]
             | None => []
             end
    ∧ preferences_complete session'
      = (preferences_complete session || marked turn)%bool
    ∧ (preferences session' = preferences session
       ∨ ∃ p, marked turn = true ∧ extraction turn = Some (Some p)
              ∧ preferences session' = Some p)
    ∧ (is_Some (preferences session) → is_Some (preferences session'))
    ∧ (∀ other, other ≠ id → after !! other = chat_sessions !! other)
    ∧ (reply turn = None →
       (send_message id message turn chat_sessions).2 = Unhandled).
Proof.
  intros after. unfold after.
  rewrite (send_message_store _ _ _ _ session Hsession).
  exists (after_turn message turn session). rewrite lookup_insert_eq.
  split; [done|]. split; [done|]. split; [done|].
  split; [|split; [|split]].
  - cbn [after_turn preferences]. unfold extracts.
    destruct (marked turn); [|by left].
    destruct (extraction turn) as [[p|]|]; [|by left..].
    right. by exists p.
  - cbn [after_turn preferences]. intros Hsome.
    by destruct (extracts turn).
  - intros other Hne. by rewrite lookup_insert_ne.
  - intros Hnone. unfold send_message. by rewrite Hsession, Hnone.
Qed.

(** A session, and a turn whose reply carries the marker. *)
Definition chats_started : gmap string ChatSession :=
  start_chat_session "chat-9" ∅.

Definition turn_done : Turn :=
  {| reply := Some "Great, I have what I need. [PREFERENCES_COMPLETE]";
     extraction := Some (Some Fixtures.prefs0) |}.

Lemma send_message_extends_history_witness :
  ∃ session',
    (send_message "chat-9" "Austin, 3 beds" turn_done chats_started).1
      !! "chat-9" = Some session'
    ∧ messages session'
      = [(assistant, get_initial_message); (user, "Austin, 3 beds");
         (assistant, "Great, I have what I need.")]
    ∧ preferences_complete session' = true.
Proof.
  destruct (send_message_extends_history "chat-9" "Austin, 3 beds" turn_done
              chats_started
              {| session_id := "chat-9";
                 messages := [(assistant, get_initial_message)];
                 preferences := None; preferences_complete := false |})
    as (session' & Hs & Hm & Hpc & _).
  - apply lookup_insert_eq.
  - exists session'. split; [exact Hs|]. split; [rewrite Hm|rewrite Hpc];
      vm_compute; reflexivity.
Defined.

(** X27.  After any conversation on a fresh chat session, the stored
    preferences are those of the last turn whose reply carried the marker
    and whose extraction returned preferences, and the completion flag
    tells whether some reply carried the marker; the flag may be set
    with no preferences stored.  A search run on the session uses exactly
    these preferences: without them it ends in status error with the
    message "No preferences found" and stores no reports; with them, and
    nothing escaping the per-listing handlers, it completes on the
    listings the scrapers return for them. *)
Theorem search_uses_last_extracted_preferences (id : string)
    (turns : list (string * Turn))
    (chat_sessions : gmap string ChatSession) (c : Collaborators) :
  let chats := converse id turns (start_chat_session id chat_sessions) in
  let extracted := last (omap (λ mt, extracts mt.2) turns) in
  let final :=
    final_state (Search.start_search id)
      (run_search_pipeline chats c id None) in
  get_preferences id chats
  = Return (extracted, existsb (λ mt, marked mt.2) turns)
  ∧ match extracted with
    | None =>
        status final = error
        ∧ message final = "No preferences found"
        ∧ final_reports final = None
    | Some prefs =>
        status final = complete
        ∧ listings final = search_all_platforms (scrapers c prefs)
        ∧ is_Some (final_reports final)
    end.
Proof.
  intros chats extracted final.
  destruct (converse_session id turns (start_chat_session id chat_sessions)
              {| session_id := id;
                 messages := [(assistant, get_initial_message)];
                 preferences := None; preferences_complete := false |})
    as (session & Hs & _ & _ & Hpref & Hpc & _).
  { apply lookup_insert_eq. }
  fold chats in Hs. fold extracted in Hpref.
  cbn [preferences preferences_complete orb] in Hpref, Hpc.
  assert (Hprefs : preferences session = extracted)
    by (rewrite Hpref; by destruct extracted).
  split.
  - unfold get_preferences. by rewrite Hs, Hprefs, Hpc.
  - destruct extracted as [prefs|] eqn:He.
    + unfold final.
      rewrite (completed_final_state chats c id session prefs Hs Hprefs).
      cbn [status listings final_reports]. by repeat split.
    + unfold final, run_search_pipeline, pipeline_writes.
      rewrite Hs, Hprefs. by cbn.
Qed.

End ChatTheorems.

(** ** The evaluation read from the reply *)

Section ParsedEvaluation.
Import CompilationAgent EvaluationAgent.
Local Open Scope R_scope.

Lemma score_field_range (f : Field PyFloat) (v : R) :
  score_field f = Some v → 0 <= v <= 10.
Proof.
  destruct f as [| |[x| | |]]; cbn; try done.
  - intros [= <-]. lra.
  - destruct (Rle_dec 0 x); [|done]. destruct (Rle_dec x 10); [|done].
    intros [= <-]. lra.
Qed.

(** A report with its four optional scores present. *)
Definition fully_scored (ev : EvaluationReport) : Prop :=
  ∃ cr sc wa af : R,
    crime_score ev = Some cr ∧ school_score ev = Some sc
    ∧ walkability_score ev = Some wa ∧ affordability_score ev = Some af
    ∧ _calculate_additional_factors_score ev = (cr + sc + wa + af) / 4.

Lemma fully_scored_intro (ev : EvaluationReport) (cr sc wa af : R) :
  crime_score ev = Some cr → school_score ev = Some sc →
  walkability_score ev = Some wa → affordability_score ev = Some af →
  fully_scored ev.
Proof.
  intros Hc Hs Hw Ha. exists cr, sc, wa, af. repeat split; try done.
  unfold _calculate_additional_factors_score. rewrite Hc, Hs, Hw, Ha.
  unfold py_sum. cbn. lra.
Qed.

Lemma error_evaluation_valid (listing_id : string) :
  valid_evaluation (error_evaluation listing_id)
  ∧ fully_scored (error_evaluation listing_id).
Proof.
  split; [split|].
  - cbn. lra.
  - intros v Hv. unfold optional_scores in Hv. cbn in Hv.
    repeat (apply elem_of_cons in Hv as [Hv|Hv];
            [injection Hv as ->; lra|]).
    by apply elem_of_nil in Hv.
  - by eapply fully_scored_intro.
Qed.

Lemma build_report_valid (eval_data : EvalData) (listing_id : string)
    (ev : EvaluationReport) :
  build_report eval_data listing_id = Some ev →
  eval_listing_id ev = listing_id ∧ similar_evaluations ev = []
  ∧ valid_evaluation ev ∧ fully_scored ev.
Proof.
  unfold build_report.
  destruct (score_field (d_preference_match_score eval_data)) as [pm|] eqn:Hpm;
    [|done].
  destruct (score_field (d_crime_score eval_data)) as [cr|] eqn:Hcr; [|done].
  destruct (score_field (d_school_score eval_data)) as [sc|] eqn:Hsc; [|done].
  destruct (score_field (d_walkability_score eval_data)) as [wa|] eqn:Hwa;
    [|done].
  destruct (score_field (d_affordability_score eval_data)) as [af|] eqn:Haf;
    [|done].
  destruct (value_field (d_strengths eval_data) []) as [st|]; [|done].
  destruct (value_field (d_concerns eval_data) []) as [co|]; [|done].
  destruct (value_field (d_additional_notes eval_data) (Some ""))
    as [an|]; [|done].
  intros [= <-].
  apply score_field_range in Hpm, Hcr, Hsc, Hwa, Haf.
  split; [done|]. split; [done|]. split; [split|].
  - exact Hpm.
  - intros v Hv. unfold optional_scores in Hv. cbn in Hv.
    repeat (apply elem_of_cons in Hv as [Hv|Hv];
            [injection Hv as ->; done|]).
    by apply elem_of_nil in Hv.
  - by eapply fully_scored_intro.
Qed.

End ParsedEvaluation.

(** X28.  Whatever the reply holds, the evaluation read from it is for the
    listing asked about, has every score in [0,10] and all four optional
    scores present, so that the compilation agent's additional-factors
    score is their plain average.  A reply whose object holds a score
    that is out of range, NaN or unusable is replaced as a whole by the
    error evaluation, which scores 5 throughout; a reply without an
    object scores 5 throughout as well. *)
Theorem parsed_evaluation_is_valid (reply : EvaluationAgent.Reply)
    (listing_id : string) :
  let ev := EvaluationAgent._parse_evaluation_response reply listing_id in
  eval_listing_id ev = listing_id
  ∧ similar_evaluations ev = []
  ∧ valid_evaluation ev
  ∧ fully_scored ev
  ∧ (∀ d, reply = EvaluationAgent.Json d →
       (∃ f, f ∈ [EvaluationAgent.d_preference_match_score d;
                  EvaluationAgent.d_crime_score d;
                  EvaluationAgent.d_school_score d;
                  EvaluationAgent.d_walkability_score d;
                  EvaluationAgent.d_affordability_score d]
             ∧ EvaluationAgent.score_field f = None) →
       ev = EvaluationAgent.error_evaluation listing_id)
  ∧ (∀ v : R, ¬ (0 <= v <= 10)%R →
       EvaluationAgent.score_field
         (EvaluationAgent.Given (CompilationAgent.Finite v)) = None)
  ∧ EvaluationAgent.score_field
      (EvaluationAgent.Given CompilationAgent.NaN) = None
  ∧ (reply = EvaluationAgent.NoJson →
     preference_match_score ev = 5%R
     ∧ optional_scores ev = [Some 5%R; Some 5%R; Some 5%R; Some 5%R]
     ∧ strengths ev = ["Property available for viewing"]).
Proof.
  intros ev.
  assert (Hvalid : eval_listing_id ev = listing_id
                   ∧ similar_evaluations ev = []
                   ∧ valid_evaluation ev ∧ fully_scored ev).
  { unfold ev, EvaluationAgent._parse_evaluation_response.
    destruct (error_evaluation_valid listing_id) as [He1 He2].
    assert (Herr : eval_listing_id (EvaluationAgent.error_evaluation listing_id)
                   = listing_id
                   ∧ similar_evaluations
                       (EvaluationAgent.error_evaluation listing_id) = []
                   ∧ valid_evaluation
                       (EvaluationAgent.error_evaluation listing_id)
                   ∧ fully_scored
                       (EvaluationAgent.error_evaluation listing_id)).
    { split; [done|]. split; [done|]. by split. }
    destruct reply as [| |d]; [exact Herr| |].
    - destruct (EvaluationAgent.build_report _ listing_id) as [r|] eqn:Hr;
        [by apply (build_report_valid _ _ _ Hr)|exact Herr].
    - destruct (EvaluationAgent.build_report d listing_id) as [r|] eqn:Hr;
        [by apply (build_report_valid _ _ _ Hr)|exact Herr]. }
  destruct Hvalid as (H1 & H2 & H3 & H4).
  split; [exact H1|]. split; [exact H2|]. split; [exact H3|].
  split; [exact H4|]. split; [|split; [|split; [done|]]].
  - intros d -> (f & Hf & Hnone).
    unfold ev, EvaluationAgent._parse_evaluation_response.
    assert (Hb : EvaluationAgent.build_report d listing_id = None).
    { unfold EvaluationAgent.build_report.
      destruct (EvaluationAgent.score_field
                  (EvaluationAgent.d_preference_match_score d)) eqn:E1;
        [|done].
      destruct (EvaluationAgent.score_field
                  (EvaluationAgent.d_crime_score d)) eqn:E2; [|done].
      destruct (EvaluationAgent.score_field
                  (EvaluationAgent.d_school_score d)) eqn:E3; [|done].
      destruct (EvaluationAgent.score_field
                  (EvaluationAgent.d_walkability_score d)) eqn:E4; [|done].
      destruct (EvaluationAgent.score_field
                  (EvaluationAgent.d_affordability_score d)) eqn:E5; [|done].
      exfalso.
      repeat (apply elem_of_cons in Hf as [->|Hf]; [congruence|]).
      by apply elem_of_nil in Hf. }
    by rewrite Hb.
  - intros v Hv. cbn.
    destruct (Rle_dec 0 v); [|done]. destruct (Rle_dec v 10); [|done]. lra.
  - intros ->. unfold ev, EvaluationAgent._parse_evaluation_response.
    assert (Hfive : EvaluationAgent.score_field
                      (EvaluationAgent.Given (CompilationAgent.Finite 5))
                    = Some 5%R).
    { cbn. destruct (Rle_dec 0 5) as [_|Hn]; [|lra].
      destruct (Rle_dec 5 10) as [_|Hn]; [done|lra]. }
    unfold EvaluationAgent.build_report,
      EvaluationAgent._create_default_evaluation.
    cbn [EvaluationAgent.d_preference_match_score
         EvaluationAgent.d_crime_score EvaluationAgent.d_school_score
         EvaluationAgent.d_walkability_score
         EvaluationAgent.d_affordability_score EvaluationAgent.d_strengths
         EvaluationAgent.d_concerns EvaluationAgent.d_additional_notes
         EvaluationAgent.value_field].
    rewrite Hfive. done.
Qed.

(** ** The mock listings and the collector *)

Section MockDedup.
Import PyStr ScraperOrchestrator BaseScraper MockListings.

Lemma decimal_plain (c : ascii) :
  is_decimal c = true →
  isspace c = false ∧ lower_char c = c
  ∧ Forall (λ o, Ascii.eqb o c = false)
      ["s"; "a"; "b"; "d"; "r"; "."; ","]%char.
Proof.
  destruct c as [[] [] [] [] [] [] [] []]; try discriminate;
    intros _; repeat split; repeat constructor.
Qed.

Lemma lstrip_snoc (l : list ascii) (c : ascii) :
  lstrip (l ++ [c])
  = if (forallb isspace l && isspace c)%bool then [] else lstrip l ++ [c].
Proof.
  induction l as [|x l IH]; cbn [app lstrip forallb andb].
  - by destruct (isspace c).
  - destruct (isspace x); [exact IH|done].
Qed.

Lemma rstrip_cons (c : ascii) (s : list ascii) :
  rstrip (c :: s)
  = if (forallb isspace (rev s) && isspace c)%bool then []
    else c :: rstrip s.
Proof.
  unfold rstrip. cbn [rev]. rewrite lstrip_snoc.
  destruct (forallb isspace (rev s) && isspace c)%bool; [done|].
  by rewrite rev_app_distr.
Qed.

(** Nothing, or text that starts with a blank. *)
Definition gap (w : list ascii) : Prop := w = [] ∨ ∃ t, w = " "%char :: t.

Lemma replace_cons_ne (o : ascii) (old new : list ascii) (c : ascii)
    (s : list ascii) :
  Ascii.eqb o c = false →
  replace (o :: old) new (c :: s) = c :: replace (o :: old) new s.
Proof.
  intros Hne. unfold replace. cbn [replace_go startswith]. by rewrite Hne.
Qed.

Lemma replace_gap (o : ascii) (old new w : list ascii) :
  Ascii.eqb o " "%char = false → gap w → gap (replace (o :: old) new w).
Proof.
  intros Hne [->|[t ->]]; [by left|]. right.
  rewrite replace_cons_ne by done. by eexists.
Qed.

Lemma replace_number (o : ascii) (old new : list ascii)
    (d1 d2 d3 : ascii) (w : list ascii) :
  Ascii.eqb o d1 = false → Ascii.eqb o d2 = false →
  Ascii.eqb o d3 = false →
  replace (o :: old) new (d1 :: d2 :: d3 :: w)
  = d1 :: d2 :: d3 :: replace (o :: old) new w.
Proof. intros H1 H2 H3. by rewrite !replace_cons_ne. Qed.

Lemma join_first (sep w : list ascii) (ws : list (list ascii)) :
  take (length w) (join sep (w :: ws)) = w.
Proof.
  cbn [join]. destruct ws as [|w' ws]; [apply firstn_all|].
  by rewrite take_app_length.
Qed.

Lemma split_number (d1 d2 d3 : ascii) (w : list ascii) :
  isspace d1 = false → isspace d2 = false → isspace d3 = false → gap w →
  ∃ ws, split (d1 :: d2 :: d3 :: w) = [d1; d2; d3] :: ws.
Proof.
  intros H1 H2 H3 Hw. unfold split. cbn [split_go]. rewrite H1, H2, H3.
  destruct Hw as [->|[t ->]]; cbn [split_go rev app]; [by eexists|].
  change (isspace " "%char) with true. cbn. by eexists.
Qed.

(** A street number of three digits is the head of the normalised
    address. *)
Lemma normalize_number (d1 d2 d3 : ascii) (rest : list ascii) :
  is_decimal d1 = true → is_decimal d2 = true → is_decimal d3 = true →
  take 3 (_normalize_chars (d1 :: d2 :: d3 :: " "%char :: rest))
  = [d1; d2; d3].
Proof.
  intros [Hs1 [Hl1 Ho1]]%decimal_plain [Hs2 [Hl2 Ho2]]%decimal_plain
         [Hs3 [Hl3 Ho3]]%decimal_plain.
  unfold _normalize_chars. cbn zeta.
  assert (Hstrip : ∃ w, gap w
            ∧ strip (lower (d1 :: d2 :: d3 :: " "%char :: rest))
              = d1 :: d2 :: d3 :: w).
  { unfold lower. cbn [map]. rewrite Hl1, Hl2, Hl3.
    unfold strip. cbn [lstrip]. rewrite Hs1.
    rewrite !rstrip_cons, Hs1, Hs2, Hs3, !andb_false_r.
    destruct (forallb isspace _ && isspace _)%bool;
      eexists; (split; [|reflexivity]); [by left|right; by eexists]. }
  destruct Hstrip as (w & Hw & ->).
  repeat match goal with
         | H : Forall _ (_ :: _) |- _ => apply Forall_cons in H as [? H]
         end.
  unfold chars. cbn [list_ascii_of_string].
  rewrite !replace_number by done.
  set (w' := replace _ _ (replace _ _ (replace _ _ (replace _ _
               (replace _ _ (replace _ _ (replace _ _ w))))))).
  assert (Hw' : gap w').
  { unfold w'. repeat apply replace_gap; done. }
  destruct (split_number d1 d2 d3 w' Hs1 Hs2 Hs3 Hw') as [ws ->].
  apply (join_first _ [d1; d2; d3] ws).
Qed.

End MockDedup.

Section MockCollector.
Import PyStr ScraperOrchestrator BaseScraper MockListings.

Lemma mock_key_head (uuid : string) (src : Source)
    (url street zip_code : string) (price bedrooms : Z) (bathrooms : R)
    (sqft : Z) (property_type description : string) (days : Z)
    (location : string) (d1 d2 d3 : ascii) (tail : list ascii) :
  chars street = d1 :: d2 :: d3 :: " "%char :: tail →
  is_decimal d1 = true → is_decimal d2 = true → is_decimal d3 = true →
  take 3 (chars (addr_key
                   (mock_listing uuid src url street zip_code price bedrooms
                      bathrooms sqft property_type description days
                      location)))
  = [d1; d2; d3].
Proof.
  intros Hstreet H1 H2 H3. unfold addr_key, _normalize_address, mock_listing.
  cbn [address]. rewrite chars_str, chars_app, Hstreet. cbn [app].
  by apply normalize_number.
Qed.

End MockCollector.

(** X29.  When the result pages of all three platforms fail to load, the
    collector does not come back empty: each scraper falls back to its two
    mock listings, their six addresses stay distinct after normalisation
    whatever the location is, and the collector returns all six, in the
    order Zillow, Redfin, Realtor. *)
Theorem failing_pages_yield_six_mock_listings
    (u1 u2 u3 u4 u5 u6 : string) (preferences : UserPreferences) :
  let z := MockListings.zillow_mock_listings u1 u2 preferences in
  let r := MockListings.redfin_mock_listings u3 u4 preferences in
  let t := MockListings.realtor_mock_listings u5 u6 preferences in
  let collected :=
    search_all_platforms
      [Returned (BaseScraper.search z BaseScraper.PageFailed);
       Returned (BaseScraper.search r BaseScraper.PageFailed);
       Returned (BaseScraper.search t BaseScraper.PageFailed)] in
  collected = z ++ r ++ t
  ∧ length collected = 6%nat
  ∧ NoDup (addr_key <$> collected)
  ∧ source <$> collected = [zillow; zillow; redfin; redfin; realtor; realtor].
Proof.
  intros z r t collected.
  assert (Hkeys : NoDup (addr_key <$> z ++ r ++ t)).
  { apply (NoDup_fmap_1 (λ k, take 3 (chars k))).
    rewrite <- list_fmap_compose.
    unfold z, r, t, MockListings.zillow_mock_listings,
      MockListings.redfin_mock_listings, MockListings.realtor_mock_listings.
    cbn [app fmap list_fmap compose].
    rewrite (mock_key_head u1 zillow _ "123 Market St" _ _ _ _ _ _ _ _ _
               "1" "2" "3" (chars "Market St") eq_refl eq_refl eq_refl eq_refl).
    rewrite (mock_key_head u2 zillow _ "456 Valencia St" _ _ _ _ _ _ _ _ _
               "4" "5" "6" (chars "Valencia St") eq_refl eq_refl eq_refl
               eq_refl).
    rewrite (mock_key_head u3 redfin _ "789 Mission St" _ _ _ _ _ _ _ _ _
               "7" "8" "9" (chars "Mission St") eq_refl eq_refl eq_refl
               eq_refl).
    rewrite (mock_key_head u4 redfin _ "321 Folsom St" _ _ _ _ _ _ _ _ _
               "3" "2" "1" (chars "Folsom St") eq_refl eq_refl eq_refl
               eq_refl).
    rewrite (mock_key_head u5 realtor _ "555 Howard St" _ _ _ _ _ _ _ _ _
               "5" "5" "5" (chars "Howard St") eq_refl eq_refl eq_refl
               eq_refl).
    rewrite (mock_key_head u6 realtor _ "888 Brannan St" _ _ _ _ _ _ _ _ _
               "8" "8" "8" (chars "Brannan St") eq_refl eq_refl eq_refl
               eq_refl).
    apply (bool_decide_unpack _). vm_compute. exact I. }
  assert (Hcollected : collected = z ++ r ++ t).
  { unfold collected, search_all_platforms.
    cbn [foldl combine_step BaseScraper.search app].
    rewrite <- app_assoc. by apply dedup_fixed. }
  rewrite Hcollected. split; [done|]. split; [done|]. split; [done|done].
Qed.

(** ** Starting a search *)

Section StartSearch.
Import Search SearchApi.

(** X30.  [start_search] does not look at the chat session: it stores a pending
    session under the new id, leaves the other sessions, the seen lists
    and the feedback store alone, and answers pending whatever the chat
    session id is.  For a chat session that does not exist the run then
    ends in status error with the message "Chat session not found",
    progress still 0 and nothing stored, and the result endpoints answer
    400 for it. *)
Theorem start_search_accepts_any_chat_session (new_id chat_id : string)
    (st : ApiState) (chat_sessions : gmap string ChatSession)
    (c : Collaborators) :
  let started := (SearchApi.start_search new_id chat_id st).1 in
  (SearchApi.start_search new_id chat_id st).2 = (new_id, pending)
  ∧ search_sessions started !! new_id = Some (Search.start_search chat_id)
  ∧ (∀ other, other ≠ new_id →
       search_sessions started !! other = search_sessions st !! other)
  ∧ seen_listings started = seen_listings st
  ∧ service started = service st
  ∧ get_final_results new_id started
    = HTTPException 400 "Search is not complete yet"
  ∧ (chat_sessions !! chat_id = None →
     let final :=
       final_state (Search.start_search chat_id)
         (run_search_pipeline chat_sessions c chat_id None) in
     status final = error
     ∧ message final = "Chat session not found"
     ∧ progress final = 0%R
     ∧ listings final = [] ∧ final_reports final = None
     ∧ ∀ st', search_sessions st' !! new_id = Some final →
              get_search_results new_id st'
              = HTTPException 400 "Search is not complete yet"
              ∧ get_final_results new_id st'
                = HTTPException 400 "Search is not complete yet"
              ∧ SearchApi.get_next_listing new_id st'
                = HTTPException 400 "Search not complete yet").
Proof.
  intros started. unfold started, SearchApi.start_search.
  cbn [fst snd search_sessions seen_listings service].
  split; [done|]. split; [apply lookup_insert_eq|].
  split; [intros other Hne; by apply lookup_insert_ne|].
  split; [done|]. split; [done|]. split.
  - unfold get_final_results.
    rewrite (completed_session_400 _ _ _ (Search.start_search chat_id));
      [done|apply lookup_insert_eq|discriminate].
  - intros Hnone.
    assert (Hfinal : final_state (Search.start_search chat_id)
                       (run_search_pipeline chat_sessions c chat_id None)
                     = {| status := error; chat_session_id := chat_id;
                          message := "Chat session not found"; progress := 0;
                          listings := []; evaluated_listings := None;
                          argued_listings := None; final_reports := None |}).
    { unfold run_search_pipeline, pipeline_writes. by rewrite Hnone. }
    rewrite Hfinal. cbn [status message progress listings final_reports].
    split; [done|]. split; [done|]. split; [done|]. split; [done|].
    split; [done|]. intros st' Hst'.
    unfold get_search_results, get_final_results, SearchApi.get_next_listing.
    by rewrite !(completed_session_400 _ _ _ _ Hst').
Qed.

End StartSearch.
